(** * pctools: calendar engine, rate/factor conversion, curves, labels, buckets

    A shallow embedding of the Python sources [pypctools/Calendar.py],
    [Curve_bkp.py] and [pypctools/Bucket.py], and of the file-name rule of
    [pypctools/Txts.py], followed by the properties proved about them.

    Conventions of the embedding.
    - A Python exception is a value of [exn]; a call that may raise returns
      [result A exn].
    - A date ([np.datetime64[D]]) is the integer number of days since
      1970-01-01, as numpy stores it.
    - A numpy value that is either a scalar or a one-dimensional array is a
      value of [nd].
    - The module-level dictionary [_CALENDARS] is threaded explicitly: a
      function that may consult it has type [M A], a function from the
      cache to the new cache and the outcome.
    - Floating-point numbers of [Bucket.py] are IEEE binary64 values (the
      kernel's [float]).  The conversions of [Curve_bkp.py] also call
      [**], [np.exp] and [np.log]; they are written once over the
      interface [Arith] and read either in binary64 arithmetic (with the
      platform's pow, exp and log as a parameter) or in exact real
      arithmetic. *)

From Stdlib Require Import ZArith List String Ascii Floats Reals Lra Lia Bool Sorted
  Permutation.
From stdpp Require Import base option list gmap strings.

Set Warnings "-inexact-float".
Set Default Proof Using "Type".

Local Open Scope string_scope.
Local Open Scope Z_scope.

(** ** Python basics *)

Module Py.

(** The exception classes the sources raise or catch. *)
Inductive exn : Type :=
| TypeError (msg : string)
| ValueError (msg : string)
| AssertionError (msg : string)
| IndexError (msg : string)
| KeyError (msg : string)
| AttributeError (msg : string)
| RuntimeError (msg : string)
| FileNotFoundError (msg : string).

Definition res (A : Type) : Type := result A exn.

Definition bindR {A B : Type} (r : res A) (k : A -> res B) : res B :=
  match r with
  | Ok a => k a
  | Error e => Error e
  end.

Definition is_ok {A : Type} (r : res A) : bool :=
  match r with Ok _ => true | Error _ => false end.

Definition is_ValueError (e : exn) : bool :=
  match e with ValueError _ => true | _ => false end.

Definition is_FileNotFoundError (e : exn) : bool :=
  match e with FileNotFoundError _ => true | _ => false end.

(** [python_assert b msg] is the statement [assert b, msg]. *)
Definition python_assert (b : bool) (msg : string) : res unit :=
  if b then Ok tt else Error (AssertionError msg).

(** A numpy operand: a scalar or a one-dimensional array. *)
Inductive nd (A : Type) : Type :=
| Scalar (a : A)
| Array (l : list A).
Arguments Scalar {A} a.
Arguments Array {A} l.

Definition nd_map {A B : Type} (f : A -> B) (x : nd A) : nd B :=
  match x with
  | Scalar a => Scalar (f a)
  | Array l => Array (map f l)
  end.

Definition nd_to_list {A : Type} (x : nd A) : list A :=
  match x with
  | Scalar a => [a]
  | Array l => l
  end.

Fixpoint zip_with_same {A B C : Type} (f : A -> B -> C) (l : list A) (k : list B) : list C :=
  match l, k with
  | a :: l', b :: k' => f a b :: zip_with_same f l' k'
  | _, _ => []
  end.

(** numpy broadcasting of a binary operation over two operands of at most
    one dimension: a scalar or a one-element array is stretched, arrays of
    equal length are paired positionally, anything else is refused. *)
Definition broadcast2 {A B C : Type} (f : A -> B -> C) (x : nd A) (y : nd B) : res (nd C) :=
  match x, y with
  | Scalar a, Scalar b => Ok (Scalar (f a b))
  | Scalar a, Array k => Ok (Array (map (f a) k))
  | Array l, Scalar b => Ok (Array (map (fun a => f a b) l))
  | Array l, Array k =>
      if (length l =? length k)%nat then Ok (Array (zip_with_same f l k))
      else match l, k with
           | [a], _ => Ok (Array (map (f a) k))
           | _, [b] => Ok (Array (map (fun a => f a b) l))
           | _, _ => Error (ValueError "operands could not be broadcast together")
           end
  end.

(** [np.any] over a boolean operand. *)
Definition np_any (x : nd bool) : bool := existsb (fun b => b) (nd_to_list x).

(** [str.upper] and [str.isupper] on ASCII text. *)
Definition is_lower_ascii (c : ascii) : bool :=
  let n := nat_of_ascii c in ((97 <=? n) && (n <=? 122))%nat.

Definition is_upper_ascii (c : ascii) : bool :=
  let n := nat_of_ascii c in ((65 <=? n) && (n <=? 90))%nat.

Definition upper_ascii (c : ascii) : ascii :=
  if is_lower_ascii c then ascii_of_nat (nat_of_ascii c - 32) else c.

Fixpoint upper (s : string) : string :=
  match s with
  | EmptyString => EmptyString
  | String c s' => String (upper_ascii c) (upper s')
  end.

Definition lower_ascii (c : ascii) : ascii :=
  if is_upper_ascii c then ascii_of_nat (nat_of_ascii c + 32) else c.

Fixpoint lower (s : string) : string :=
  match s with
  | EmptyString => EmptyString
  | String c s' => String (lower_ascii c) (lower s')
  end.

Definition isupper (s : string) : bool :=
  let cs := list_ascii_of_string s in
  forallb (fun c => negb (is_lower_ascii c)) cs && existsb is_upper_ascii cs.

(** [str.split()] with no argument: the maximal runs of non-blank
    characters. *)
Definition is_space (c : ascii) : bool :=
  let n := nat_of_ascii c in
  (((9 <=? n) && (n <=? 13)) || ((28 <=? n) && (n <=? 32)))%nat.

Fixpoint split_from (cs : list ascii) (cur : list ascii) : list string :=
  match cs with
  | [] => match cur with [] => [] | _ => [string_of_list_ascii (rev cur)] end
  | c :: cs' =>
      if is_space c
      then match cur with
           | [] => split_from cs' []
           | _ => string_of_list_ascii (rev cur) :: split_from cs' []
           end
      else split_from cs' (c :: cur)
  end.

Definition split (s : string) : list string :=
  split_from (list_ascii_of_string s) [].

(** [np.sort] of an integer array (insertion into a sorted list). *)
Fixpoint insert_sorted (x : Z) (l : list Z) : list Z :=
  match l with
  | [] => [x]
  | y :: l' => if x <=? y then x :: l else y :: insert_sorted x l'
  end.

Definition np_sort (l : list Z) : list Z := fold_right insert_sorted [] l.

(** [np.unique]: the sorted array without repeats. *)
Fixpoint drop_repeats (l : list Z) : list Z :=
  match l with
  | [] => []
  | x :: l' =>
      match l' with
      | y :: _ => if x =? y then drop_repeats l' else x :: drop_repeats l'
      | [] => [x]
      end
  end.

Definition np_unique (l : list Z) : list Z := drop_repeats (np_sort l).

(** [np.array_equal] on integer arrays. *)
Definition np_array_equal (l k : list Z) : bool :=
  bool_decide (l = k).

(** [l[-1]], on a list that has a first element [d]. *)
Definition last_of {A : Type} (d : A) (l : list A) : A := List.last l d.

End Py.
Export Py.

Notation "'let!' x ':=' e 'in' k" := (bindR e (fun x => k))
  (at level 10, x name, e at level 100, k at level 200).

(** [[f(x) for x in l]], where [f] may raise. *)
Fixpoint map_res {B C : Type} (f : B -> res C) (l : list B) : res (list C) :=
  match l with
  | [] => Ok []
  | b :: l' => let! c := f b in let! cs := map_res f l' in Ok (c :: cs)
  end.

(** ** Arithmetic of the conversions

    The operations the sources apply to rates, factors and terms.  Python's
    [int / int] and numpy's [int64 / int] are the binary operation [fdiv]
    on the converted operands (exact below 2^53, which day counts never
    reach). *)

Module Numeric.

Class Arith (T : Type) : Type := {
  of_int : Z -> T;
  fadd : T -> T -> T;
  fsub : T -> T -> T;
  fmul : T -> T -> T;
  fdiv : T -> T -> T;
  fpow : T -> T -> T;
  fexp : T -> T;
  flog : T -> T;
  fltb : T -> T -> bool;
}.

(** The correctly rounded conversion of an integer to binary64. *)
Definition float_of_Z (z : Z) : float :=
  SF2Prim (binary_normalize 53 1024 z 0 false).

(** The platform's [pow], [exp] and [log] on binary64: not part of the
    repository, and not fixed bit for bit by IEEE 754. *)
Record Libm : Type := {
  libm_pow : float -> float -> float;
  libm_exp : float -> float;
  libm_log : float -> float;
}.

(** IEEE binary64, as numpy's [float64] computes. *)
Definition binary64 (L : Libm) : Arith float := {|
  of_int := float_of_Z;
  fadd := PrimFloat.add;
  fsub := PrimFloat.sub;
  fmul := PrimFloat.mul;
  fdiv := PrimFloat.div;
  fpow := libm_pow L;
  fexp := libm_exp L;
  flog := libm_log L;
  fltb := PrimFloat.ltb;
|}.

Definition Rltb (x y : R) : bool := if Rlt_dec x y then true else false.

(** Exact real arithmetic: the same formulas without rounding.  [Rpower]
    is the power function on a positive base, and division is the real
    one; results at a zero divisor or a non-positive base are not the
    IEEE ones and no statement below relies on them. *)
Definition exact : Arith R := {|
  of_int := IZR;
  fadd := Rplus;
  fsub := Rminus;
  fmul := Rmult;
  fdiv := Rdiv;
  fpow := Rpower;
  fexp := exp;
  flog := ln;
  fltb := Rltb;
|}.

End Numeric.
Export Numeric.

(** ** pypctools/Calendar.py *)

Module Calendar.

(** A [np.busdaycalendar] with the default week mask (Monday to Friday):
    what it keeps is its holidays.  numpy also sorts them and drops
    repeats, which membership does not see. *)
Record busdaycalendar : Type := { holidays : list Z }.

(** The global [_CALENDARS] and the computations that thread it. *)
Definition M (A : Type) : Type :=
  gmap string busdaycalendar -> gmap string busdaycalendar * res A.

Definition ret {A : Type} (a : A) : M A := fun cache => (cache, Ok a).

Definition raise {A : Type} (e : exn) : M A := fun cache => (cache, Error e).

Definition lift {A : Type} (r : res A) : M A := fun cache => (cache, r).

Definition bind {A B : Type} (m : M A) (k : A -> M B) : M B :=
  fun cache =>
    match m cache with
    | (cache', Ok a) => k a cache'
    | (cache', Error e) => (cache', Error e)
    end.

Notation "'let*' x ':=' e 'in' k" := (bind e (fun x => k))
  (at level 10, x name, e at level 100, k at level 200).

(** [for x in l: f(x)] *)
Fixpoint for_each {A : Type} (f : A -> M unit) (l : list A) : M unit :=
  match l with
  | [] => ret tt
  | x :: l' => let* _ := f x in for_each f l'
  end.

(** [[f(x) for x in l]] *)
Fixpoint map_M {A B : Type} (f : A -> M B) (l : list A) : M (list B) :=
  match l with
  | [] => ret []
  | x :: l' => let* y := f x in let* ys := map_M f l' in ret (y :: ys)
  end.

(** The epochs 1899-12-31 and 1899-12-30 are the days -25568 and -25569. *)
Definition _xldate_to_datetime (xldate : Z) : Z :=
  let days := xldate in
  if days <? 60 then -25568 + days else -25569 + days.

(** Dates reach the functions below already as day numbers, so the
    conversion through [pd.Timestamp] is the identity (its [TypeError] on
    a malformed date is outside the model). *)
Definition _normalize_dates (dates : nd Z) : nd Z := dates.

(** Civil calendar: the year of a day number, the first day of a year,
    leap years, and the weekday (Monday is 0; 1970-01-01 was a Thursday). *)
Definition year_of (d : Z) : Z :=
  let z := d + 719468 in
  let era := z / 146097 in
  let doe := z - era * 146097 in
  let yoe := (doe - doe / 1460 + doe / 36524 - doe / 146096) / 365 in
  let doy := doe - (365 * yoe + yoe / 4 - yoe / 100) in
  let mp := (5 * doy + 2) / 153 in
  let m := if mp <? 10 then mp + 3 else mp - 9 in
  yoe + era * 400 + (if m <=? 2 then 1 else 0).

Definition first_day_of_year (y : Z) : Z :=
  let y' := y - 1 in
  let era := y' / 400 in
  let yoe := y' - era * 400 in
  era * 146097 + (yoe * 365 + yoe / 4 - yoe / 100 + 306) - 719468.

Definition is_leap_year (y : Z) : bool :=
  ((y mod 4 =? 0) && negb (y mod 100 =? 0)) || (y mod 400 =? 0).

Definition weekday (d : Z) : Z := (d + 3) mod 7.

(** [np.is_busday] and [np.busday_count].  The count covers the days from
    [begin] up to, not including, [end_]; with the dates in reverse order
    it is minus the count of the days after [end_] up to [begin] (numpy
    1.25 and later: the end date is never counted). *)
Definition is_busday (bc : busdaycalendar) (d : Z) : bool :=
  (weekday d <? 5) && negb (existsb (Z.eqb d) (holidays bc)).

Fixpoint count_valid (bc : busdaycalendar) (from : Z) (n : nat) : Z :=
  match n with
  | O => 0
  | S n' => (if is_busday bc from then 1 else 0) + count_valid bc (from + 1) n'
  end.

Definition busday_count (bc : busdaycalendar) (begin end_ : Z) : Z :=
  if begin <=? end_ then count_valid bc begin (Z.to_nat (end_ - begin))
  else - count_valid bc (end_ + 1) (Z.to_nat (begin - end_)).

Section WithPackage.

(** The package data [Calendars/<cal>.xml]: for each calendar that has a
    file, the integers its XML elements hold (Excel day numbers). *)
Variable pkg : gmap string (list Z).

(** [np.busday_offset] and [pd.bdate_range] are library calls that
    [offsetdate] and [bday_range] hand their arguments to; they stay
    abstract. *)
Variable np_busday_offset :
  nd Z -> nd Z -> string -> busdaycalendar -> res (nd (option Z)).
Variable pd_bdate_range :
  option Z -> option Z -> option Z -> list Z -> res (list Z).

Definition pkgutil_get_data (cal : string) : res (list Z) :=
  match pkg !! cal with
  | Some data => Ok data
  | None => Error (FileNotFoundError ("./Calendars/" ++ cal ++ ".xml"))
  end.

Definition _load_calendar (cal : string) : M unit :=
  fun cache =>
    if bool_decide (is_Some (cache !! cal)) then (cache, Ok tt)
    else
      match pkgutil_get_data cal with
      | Error (FileNotFoundError _) =>
          (cache, Error (ValueError ("Invalid/NotImplemented calendar: " ++ cal)))
      | Error e => (cache, Error e)
      | Ok data =>
          let holidays := map _xldate_to_datetime data in
          (<[cal := {| holidays := holidays |}]> cache, Ok tt)
      end.

(** [_CALENDARS[cal]] *)
Definition cached (cal : string) : M busdaycalendar :=
  fun cache =>
    match cache !! cal with
    | Some bc => (cache, Ok bc)
    | None => (cache, Error (KeyError cal))
    end.

(** [cal] is [None] when the caller passes no string. *)
Definition _get_bdaycalendar (cal : option string) : M busdaycalendar :=
  match cal with
  | None => raise (TypeError "Calendar input must be str, got NoneType")
  | Some cal =>
      let cals := split (upper cal) in
      let* _ := for_each _load_calendar cals in
      match cals with
      | [c] => cached c
      | _ :: _ :: _ =>
          let* loaded := map_M cached cals in
          ret {| holidays := concat (map holidays loaded) |}
      | [] => raise (RuntimeError ("Unexpected calendar: " ++ cal))
      end
  end.

Definition isbd (dates : nd Z) (cal : option string) : M (nd bool) :=
  let* bdaycal := _get_bdaycalendar cal in
  let dates := _normalize_dates dates in
  ret (nd_map (is_busday bdaycal) dates).

Definition bdbetween (start_dates end_dates : nd Z) (cal : option string) : M (nd Z) :=
  let* bdaycal := _get_bdaycalendar cal in
  let start_dates := _normalize_dates start_dates in
  let end_dates := _normalize_dates end_dates in
  lift (broadcast2 (busday_count bdaycal) start_dates end_dates).

Definition offsetdate (dates offsets : nd Z) (roll : string) (cal : option string)
  : M (nd (option Z)) :=
  let* bdaycal := _get_bdaycalendar cal in
  let dates := _normalize_dates dates in
  lift (np_busday_offset dates offsets (lower roll) bdaycal).

(** [collections.Counter((start, end, periods)).get(None)] counts the
    arguments left out. *)
Definition count_None (start end_ periods : option Z) : nat :=
  length (filter (fun o => o = None) [start; end_; periods]).

Definition bday_range (start end_ periods : option Z) (cal : option string) : M (list Z) :=
  if negb (count_None start end_ periods =? 1)%nat
  then raise (ValueError "Of the three parameters (start, end, periods), exactly two must be specified")
  else
    let* bdaycal := _get_bdaycalendar cal in
    lift (pd_bdate_range start end_ periods (holidays bdaycal)).

End WithPackage.

Section Terms.

Context {T : Type} {A : Arith T}.
Variable pkg : gmap string (list Z).

(** The inner function of [_calc_term]. *)
Definition act_act_term (start end_ : Z) : T :=
  let sign := if end_ <? start then -1 else 1 in
  let (start, end_) := if end_ <? start then (end_, start) else (start, end_) in
  let start_year := year_of start in
  let end_year := year_of end_ in
  let term :=
    fold_left
      (fun term year =>
         let den := if is_leap_year year then 366 else 365 in
         let num :=
           if (year =? start_year) && (year =? end_year) then end_ - start
           else if year =? start_year then first_day_of_year (year + 1) - start
           else if year =? end_year then end_ - first_day_of_year year
           else first_day_of_year (year + 1) - first_day_of_year year in
         fadd term (fdiv (of_int num) (of_int den)))
      (seqZ start_year (end_year + 1 - start_year))
      (of_int 0) in
  fmul term (of_int sign).

Definition _available_day_counts : list string :=
  ["BUS/252"; "ACT/360"; "ACT/365"; "ACT/ACT"].

Definition _calc_term (start_dates end_dates : nd Z) (day_count : string)
    (cal : option string) : M (nd T) :=
  let day_count := upper day_count in
  if negb (existsb (String.eqb day_count) _available_day_counts)
  then raise (ValueError "day_count given must be one of {'BUS/252', 'ACT/360', 'ACT/365', 'ACT/ACT'}")
  else if String.eqb day_count "BUS/252"
  then
    let* n := bdbetween pkg start_dates end_dates cal in
    ret (nd_map (fun n => fdiv (of_int n) (of_int 252)) n)
  else
    let start_dates := _normalize_dates start_dates in
    let end_dates := _normalize_dates end_dates in
    if String.eqb day_count "ACT/ACT"
    then
      match end_dates with
      | Array ends =>
          let starts :=
            match start_dates with
            | Scalar s => repeat s (length ends)
            | Array starts => starts
            end in
          if negb (length starts =? length ends)%nat
          then raise (ValueError "start and end dates must have the same length")
          else ret (Array (zip_with_same act_act_term starts ends))
      | Scalar e =>
          match start_dates with
          | Scalar s => ret (Scalar (act_act_term s e))
          | Array _ => raise (TypeError "Cannot convert input to Timestamp")
          end
      end
    else
      let* actual_count := lift (broadcast2 Z.sub end_dates start_dates) in
      if String.eqb day_count "ACT/365"
      then ret (nd_map (fun n => fdiv (of_int n) (of_int 365)) actual_count)
      else if String.eqb day_count "ACT/360"
      then ret (nd_map (fun n => fdiv (of_int n) (of_int 360)) actual_count)
      else raise (ValueError ("Invalid day_count: " ++ day_count)).

End Terms.

End Calendar.

(** ** Curve_bkp.py *)

Module Curve_bkp.
Import Calendar.

(** [np.interp(x, xp, fp)] at one point, for increasing integer sample
    points: the edge values outside the range, the sample itself at a
    sample point, the chord between the two neighbours elsewhere. *)
Section Interp.

Context {T : Type} {A : Arith T}.

Fixpoint interp_between (x : Z) (xp : list Z) (fp : list T) (d : T) : T :=
  match xp, fp with
  | xj :: xp', fj :: fp' =>
      match xp', fp' with
      | xj1 :: _, fj1 :: _ =>
          if x <? xj1
          then
            if x =? xj then fj
            else
              let slope := fdiv (fsub fj1 fj) (of_int (xj1 - xj)) in
              fadd (fmul slope (of_int (x - xj))) fj
          else interp_between x xp' fp' d
      | _, _ => fj
      end
  | _, _ => d
  end.

Definition np_interp1 (xp : list Z) (fp : list T) (x : Z) : res T :=
  match xp, fp with
  | x0 :: _, f0 :: _ =>
      if negb (length xp =? length fp)%nat
      then Error (ValueError "fp and xp are not of the same length.")
      else if x <? x0 then Ok f0
      else if last_of x0 xp <? x then Ok (last_of f0 fp)
      else Ok (interp_between x xp fp f0)
  | [], _ => Error (ValueError "array of sample points is empty")
  | _, [] => Error (ValueError "fp and xp are not of the same length.")
  end.

Definition np_interp (x : nd Z) (xp : list Z) (fp : list T) : res (nd T) :=
  match x with
  | Scalar x => let! y := np_interp1 xp fp x in Ok (Scalar y)
  | Array xs => let! ys := map_res (np_interp1 xp fp) xs in Ok (Array ys)
  end.

End Interp.

Inductive interp_kind : Type := LIN | EXP.

(** The attributes [Curve.__init__] sets.  [interp_method] is kept as the
    validated value of ['LIN'] or ['EXP']. *)
Record Curve (T : Type) : Type := {
  ref_date : Z;
  start_dates : list Z;
  end_dates : list Z;
  interp_method : interp_kind;
  compounding : string;
  day_count : string;
  factors : list T;
  rates : list T;
  log_factors : option (list T);
  cal : option string;
  ndays : list Z;
}.
Arguments ref_date {T} _.
Arguments start_dates {T} _.
Arguments end_dates {T} _.
Arguments interp_method {T} _.
Arguments compounding {T} _.
Arguments day_count {T} _.
Arguments factors {T} _.
Arguments rates {T} _.
Arguments log_factors {T} _.
Arguments cal {T} _.
Arguments ndays {T} _.

Section Conversions.

Context {T : Type} {A : Arith T}.
Variable pkg : gmap string (list Z).

Definition negative_term (term : nd T) : bool :=
  np_any (nd_map (fun t => fltb t (of_int 0)) term).

Definition rate2fct (rates : nd T) (start_dates end_dates : nd Z)
    (compounding day_count : string) (cal : option string) : M (nd T) :=
  let* term := _calc_term pkg start_dates end_dates day_count cal in
  if negative_term term
  then raise (ValueError "Unable to calculate factors with end_dates < start_dates")
  else
    let compounding := upper compounding in
    if String.eqb compounding "YIELD"
    then lift (broadcast2 (fun r t => fpow (fadd (of_int 1) r) t) rates term)
    else if String.eqb compounding "LINEAR"
    then lift (broadcast2 (fun r t => fadd (of_int 1) (fmul r t)) rates term)
    else if String.eqb compounding "CONTINUOUS"
    then lift (broadcast2 (fun r t => fexp (fmul r t)) rates term)
    else raise (ValueError ("Invalid compounding parameter: " ++ compounding)).

Definition fct2rate (factors : nd T) (start_dates end_dates : nd Z)
    (compounding day_count : string) (cal : option string) : M (nd T) :=
  let* term := _calc_term pkg start_dates end_dates day_count cal in
  if negative_term term
  then raise (ValueError "Unable to calculate factors with end_dates < start_dates")
  else
    let compounding := upper compounding in
    if String.eqb compounding "YIELD"
    then lift (broadcast2 (fun f t => fsub (fpow f (fdiv (of_int 1) t)) (of_int 1)) factors term)
    else if String.eqb compounding "LINEAR"
    then lift (broadcast2 (fun f t => fdiv (fsub f (of_int 1)) t) factors term)
    else if String.eqb compounding "CONTINUOUS"
    then lift (broadcast2 (fun f t => fdiv (flog f) t) factors term)
    else raise (ValueError ("Invalid compounding parameter: " ++ compounding)).

End Conversions.

Section CurveClass.

Context {T : Type} {A : Arith T}.
Variable pkg : gmap string (list Z).

(** The inner loop of the bootstrap: [for j in range(i)]. *)
Definition find_fra (end_dates : list Z) (factors : list T) (start_i : Z)
    (i : nat) (temp_fct : T) : bool * T :=
  fold_left
    (fun (acc : bool * T) (j : nat) =>
       match end_dates !! j, factors !! j with
       | Some end_j, Some factor_j =>
           if end_j =? start_i then (true, fmul (snd acc) factor_j) else acc
       | _, _ => acc
       end)
    (seq 0 i) (false, temp_fct).

(** The body of [for i in range(len(end_dates))]: the factor appended for
    segment [i], given the factors of the segments before it. *)
Definition segment_factor (start_dates end_dates : list Z) (rates : list T)
    (compounding day_count : string) (cal : option string) (ref_date : Z)
    (factors : list T) (i : nat) : M T :=
  match rates !! i, start_dates !! i, end_dates !! i with
  | Some rate_i, Some start_i, Some end_i =>
      let* temp_fct :=
        rate2fct pkg (Scalar rate_i) (Scalar start_i) (Scalar end_i)
          compounding day_count cal in
      match temp_fct with
      | Scalar temp_fct =>
          if start_i =? ref_date then ret temp_fct
          else
            let (found_fra, temp_fct) :=
              find_fra end_dates factors start_i i temp_fct in
            if negb found_fra
            then raise (ValueError "Cannot calculate FRA's with given dates")
            else ret temp_fct
      | Array _ => raise (TypeError "only size-1 arrays can be converted to Python scalars")
      end
  | _, _, _ => raise (IndexError "index out of bounds")
  end.

Fixpoint bootstrap_from (start_dates end_dates : list Z) (rates : list T)
    (compounding day_count : string) (cal : option string) (ref_date : Z)
    (indices : list nat) (factors : list T) : M (list T) :=
  match indices with
  | [] => ret factors
  | i :: indices' =>
      let* temp_fct :=
        segment_factor start_dates end_dates rates compounding day_count cal
          ref_date factors i in
      bootstrap_from start_dates end_dates rates compounding day_count cal
        ref_date indices' (factors ++ [temp_fct])
  end.

Definition bootstrap (start_dates end_dates : list Z) (rates : list T)
    (compounding day_count : string) (cal : option string) (ref_date : Z)
  : M (list T) :=
  bootstrap_from start_dates end_dates rates compounding day_count cal ref_date
    (seq 0 (length end_dates)) [].

Definition parse_interp_method (interp_method : string) : option interp_kind :=
  let m := upper interp_method in
  if String.eqb m "LIN" then Some LIN
  else if String.eqb m "EXP" then Some EXP
  else None.

Definition __init__ (start_dates end_dates : nd Z) (rates : nd T)
    (interp_method compounding day_count : string) (cal : option string)
  : M (Curve T) :=
  let start_dates := _normalize_dates start_dates in
  let end_dates := _normalize_dates end_dates in
  match rates with
  | Scalar _ => raise (TypeError "'rates' parameter must be array_like")
  | Array rates =>
  match end_dates with
  | Scalar _ => raise (ValueError "end_dates must be array_like")
  | Array end_dates =>
  let start_dates :=
    match start_dates with
    | Scalar s => repeat s (length end_dates)
    | Array starts => starts
    end in
  if negb (length start_dates =? length end_dates)%nat
  then raise (ValueError "start and end dates must have the same length")
  else if negb (length end_dates =? length rates)%nat
  then raise (ValueError "end_dates and rates must have the same length")
  else if negb (np_array_equal (np_sort end_dates) end_dates)
  then raise (ValueError "end_dates must be sorted in ascending order")
  else if negb (length (np_unique end_dates) =? length end_dates)%nat
  then raise (ValueError "end_dates must be all unique")
  else
  match start_dates with
  | [] => raise (IndexError "index 0 is out of bounds for axis 0 with size 0")
  | ref_date :: _ =>
  let* _ :=
    if String.eqb (upper day_count) "BUS/252"
    then
      let* nbusdays := bdbetween pkg (Scalar ref_date) (Array end_dates) cal in
      let nbusdays := nd_to_list nbusdays in
      if negb (length (np_unique nbusdays) =? length nbusdays)%nat
      then raise (ValueError "Dates given must have no repeated business days count")
      else ret tt
    else ret tt in
  match parse_interp_method interp_method with
  | None => raise (ValueError "interp_method parameter must be 'LIN' or 'EXP'")
  | Some method =>
  let* factors :=
    bootstrap start_dates end_dates rates compounding day_count cal ref_date in
  let* rates :=
    fct2rate pkg (Array factors) (Scalar ref_date) (Array end_dates)
      compounding day_count cal in
  let log_factors :=
    match method with
    | EXP => Some (map flog factors)
    | LIN => None
    end in
  let* cal_ndays :=
    if String.eqb (upper day_count) "BUS/252"
    then
      match cal with
      | Some c =>
          let* n := bdbetween pkg (Scalar ref_date) (Array end_dates) cal in
          ret (Some (upper c), nd_to_list n)
      | None => raise (AttributeError "'NoneType' object has no attribute 'upper'")
      end
    else ret (None, map (fun e => e - ref_date) end_dates) in
  ret {| ref_date := ref_date;
         start_dates := start_dates;
         end_dates := end_dates;
         interp_method := method;
         compounding := upper compounding;
         day_count := upper day_count;
         factors := factors;
         rates := nd_to_list rates;
         log_factors := log_factors;
         cal := fst cal_ndays;
         ndays := snd cal_ndays |}
  end
  end
  end
  end.

Definition __zc_r2f (self : Curve T) (rates : nd T) (dates : nd Z) : M (nd T) :=
  rate2fct pkg rates (Scalar (ref_date self)) dates
    (compounding self) (day_count self) (cal self).

Definition __zc_f2r (self : Curve T) (factors : nd T) (dates : nd Z) : M (nd T) :=
  fct2rate pkg factors (Scalar (ref_date self)) dates
    (compounding self) (day_count self) (cal self).

(** [self.end_dates[0]] and [self.end_dates[-1]] *)
Definition first_end_date (self : Curve T) : res Z :=
  match end_dates self with
  | e :: _ => Ok e
  | [] => Error (IndexError "index 0 is out of bounds for axis 0 with size 0")
  end.

Definition last_end_date (self : Curve T) : res Z :=
  match end_dates self with
  | e :: _ => Ok (last_of e (end_dates self))
  | [] => Error (IndexError "index -1 is out of bounds for axis 0 with size 0")
  end.

(** The temporary move of out-of-range dates to a boundary: [np.where]
    twice for an array, [max(min(...))] for a single date. *)
Definition clamp_dates (self : Curve T) (dates : nd Z) : res (nd Z) :=
  match dates with
  | Array ds =>
      let! e0 := first_end_date self in
      let ds := map (fun d => if d <? e0 then e0 else d) ds in
      let! en := last_end_date self in
      Ok (Array (map (fun d => if en <? d then en else d) ds))
  | Scalar d =>
      let! en := last_end_date self in
      let! e0 := first_end_date self in
      Ok (Scalar (Z.max (Z.min d en) e0))
  end.

Definition interp (self : Curve T) (dates : nd Z) : M (nd T) :=
  let dates := _normalize_dates dates in
  let* x :=
    if String.eqb (day_count self) "BUS/252"
    then bdbetween pkg (Scalar (ref_date self)) dates (cal self)
    else ret (nd_map (fun d => d - ref_date self) dates) in
  match interp_method self with
  | EXP =>
      let* dates := lift (clamp_dates self dates) in
      match log_factors self with
      | Some log_factors =>
          let* y := lift (np_interp x (ndays self) log_factors) in
          let interp_factors := nd_map fexp y in
          __zc_f2r self interp_factors dates
      | None => raise (TypeError "object of type NoneType has no len()")
      end
  | LIN => lift (np_interp x (ndays self) (rates self))
  end.

Definition fra_interp (self : Curve T) (start_dates end_dates : nd Z) : M (nd T) :=
  let* start_rates := interp self start_dates in
  let* start_factors := __zc_r2f self start_rates start_dates in
  let* end_rates := interp self end_dates in
  let* end_factors := __zc_r2f self end_rates end_dates in
  let* ratio := lift (broadcast2 fdiv end_factors start_factors) in
  fct2rate pkg ratio start_dates end_dates
    (compounding self) (day_count self) (cal self).

End CurveClass.

End Curve_bkp.

(** ** pypctools/Bucket.py: class Label *)

Module Label.

(** The attributes [__init__] sets on a Label. *)
Record Label : Type := {
  _letter_map : gmap string Z;
  _label : string;
  _dc_count : Z;
}.

(** An argument of the constructor: a [str], a Label, or an object of
    another class (named). *)
Inductive pyobj : Type :=
| PyStr (s : string)
| PyLabel (l : Label)
| PyOther (class_name : string).

Definition is_digit (c : ascii) : bool :=
  let n := nat_of_ascii c in ((48 <=? n) && (n <=? 57))%nat.

Definition is_unit_letter (c : ascii) : bool :=
  existsb (Ascii.eqb c) (list_ascii_of_string "YMWD").

(** [_single_label_pat.findall(label)] for the pattern [(\d+)([YMWD])]:
    every unit letter that follows a run of digits, with that run. *)
Fixpoint findall_from (cs : list ascii) (digits : list ascii) : list (string * string) :=
  match cs with
  | [] => []
  | c :: cs' =>
      if is_digit c then findall_from cs' (c :: digits)
      else if is_unit_letter c then
        match digits with
        | [] => findall_from cs' []
        | _ => (string_of_list_ascii (rev digits), String c EmptyString)
                 :: findall_from cs' []
        end
      else findall_from cs' []
  end.

Definition findall (label : string) : list (string * string) :=
  findall_from (list_ascii_of_string label) [].

(** [int(s)] on a string of decimal digits. *)
Definition int_of_digits (s : string) : Z :=
  fold_left (fun n c => 10 * n + (Z.of_nat (nat_of_ascii c) - 48))
    (list_ascii_of_string s) 0.

(** [''.join(parts)] and [label.count(char)] *)
Definition join (parts : list string) : string :=
  fold_right String.append EmptyString parts.

Definition count (label : string) (char : string) : Z :=
  Z.of_nat (length (filter (fun c => String c EmptyString = char)
                      (list_ascii_of_string label))).

Definition _letter_order_map : gmap string Z :=
  <["Y" := 0]> (<["M" := 1]> (<["W" := 2]> (<["D" := 3]> ∅))).

Definition quoted (s : string) : string :=
  String "034"%char (s ++ String "034"%char EmptyString).

(** [__init__] on a [str] argument: the checks, then the attributes. *)
Definition __init__ (label : string) : res Label :=
  if negb (isupper label)
  then Error (ValueError ("Given label " ++ quoted label ++ " must be uppercase"))
  else
    let match_list := findall label in
    match match_list with
    | [] => Error (ValueError ("Invalid label format: " ++ label))
    | _ :: _ =>
        let rebuilt_label := join (map (fun tup => fst tup ++ snd tup) match_list) in
        if negb (String.eqb rebuilt_label label)
        then Error (ValueError ("Invalid label format: " ++ label))
        else
          let numbers := map (fun tup => int_of_digits (fst tup)) match_list in
          let letters := map snd match_list in
          let max_count := fold_right Z.max 0 (map (count label) letters) in
          if negb ((max_count =? 0) || (max_count =? 1))
          then Error (ValueError ("Repeated letters in given label: " ++ label))
          else
            let mapped_letters :=
              map (fun c => default 0 (_letter_order_map !! c)) letters in
            if (1 <? length letters)%nat
               && negb (bool_decide (np_sort mapped_letters = mapped_letters))
            then Error (ValueError "Label must be in Y-M-W-D order")
            else
              let letter_map :=
                fold_left (fun m cn => <[fst cn := snd cn]> m)
                  (zip_with_same pair letters numbers)
                  (<["Y" := 0]> (<["M" := 0]> (<["W" := 0]> (<["D" := 0]> ∅)))) in
              Ok {| _letter_map := letter_map;
                    _label := label;
                    _dc_count :=
                      fold_left Z.add
                        (map (fun nc => fst nc * default 0 (letter_map !! snd nc))
                           [(1, "D"); (7, "W"); (30, "M"); (360, "Y")])
                        0 |}
    end.

(** The call [Label(label)] as a value: [__new__] hands a Label back,
    [__init__] refuses an argument that is no [str]. *)
Definition new (label : pyobj) : res Label :=
  match label with
  | PyLabel l => Ok l
  | PyStr s => __init__ s
  | PyOther class_name => Error (TypeError ("Expected str, got " ++ class_name))
  end.

Definition label (self : Label) : string := _label self.
Definition letter_map (self : Label) : gmap string Z := _letter_map self.
Definition dc_count (self : Label) : Z := _dc_count self.

(** Comparison methods; [__lt__], [__gt__] and [__ge__] are the ones
    [functools.total_ordering] derives from [__le__]. *)
Definition __eq__ (self : Label) (other : pyobj) : res bool :=
  match other with
  | PyLabel other => Ok (_dc_count self =? _dc_count other)
  | _ => Error (TypeError "Label can only be compared with another Label")
  end.

Definition __le__ (self : Label) (other : pyobj) : res bool :=
  match other with
  | PyLabel other => Ok (_dc_count self <=? _dc_count other)
  | _ => Error (TypeError "Label can only be compared with another Label")
  end.

Definition __ne__ (self : Label) (other : pyobj) : res bool :=
  let! eq := __eq__ self other in Ok (negb eq).

Definition __lt__ (self : Label) (other : pyobj) : res bool :=
  let! op_result := __le__ self other in
  if op_result then __ne__ self other else Ok false.

Definition __gt__ (self : Label) (other : pyobj) : res bool :=
  let! op_result := __le__ self other in Ok (negb op_result).

Definition __ge__ (self : Label) (other : pyobj) : res bool :=
  let! op_result := __le__ self other in
  if negb op_result then Ok true else __eq__ self other.

Definition __repr__ (self : Label) : string := "<Label " ++ label self ++ ">".

Definition __str__ (self : Label) : string := label self.

(** [hash(repr(self))]: the hash of a [str] is the interpreter's, and
    changes from one process to the next. *)
Definition __hash__ (str_hash : string -> Z) (self : Label) : Z :=
  str_hash (__repr__ self).

(** *** Objects and identity

    The same constructor on a heap of Label objects, to speak of which
    object a call returns.  A cell holds the attributes of one object, or
    nothing while they are not set. *)
Inductive pyval : Type :=
| VStr (s : string)
| VRef (address : nat)
| VOther (class_name : string).

Definition heap : Type := list (option Label).

Definition isinstance_Label (h : heap) (v : pyval) : bool :=
  match v with
  | VRef a => bool_decide (is_Some (h !! a))
  | _ => false
  end.

(** [__new__] on its positional and keyword arguments: the heap after it
    and the address of the object it returns. *)
Definition __new__ (h : heap) (args : list pyval) (kwargs : list (string * pyval))
  : heap * nat :=
  match kwargs, args with
  | [], [VRef a] =>
      if isinstance_Label h (VRef a) then (h, a) else ((h ++ [None])%list, length h)
  | _, _ => ((h ++ [None])%list, length h)
  end.

(** How Python binds the arguments of a call to the one parameter
    [label] of [__init__]. *)
Definition bind_label (args : list pyval) (kwargs : list (string * pyval)) : res pyval :=
  match args, kwargs with
  | [v], [] => Ok v
  | [], [(name, v)] =>
      if String.eqb name "label" then Ok v
      else Error (TypeError "__init__() got an unexpected keyword argument")
  | _, _ => Error (TypeError "__init__() takes exactly one argument")
  end.

(** [__init__(self, label)] on the object at address [self]. *)
Definition init_object (h : heap) (self : nat) (label : pyval) : heap * res unit :=
  if isinstance_Label h label then (h, Ok tt)
  else
    match label with
    | VStr s =>
        match __init__ s with
        | Ok attrs => (<[self := Some attrs]> h, Ok tt)
        | Error e => (h, Error e)
        end
    | VRef _ => (h, Error (TypeError "Expected str, got object"))
    | VOther class_name => (h, Error (TypeError ("Expected str, got " ++ class_name)))
    end.

(** The call of the class on positional and keyword arguments:
    [__new__], then [__init__] on what it returned. *)
Definition call (h : heap) (args : list pyval) (kwargs : list (string * pyval))
  : heap * res nat :=
  let (h1, obj) := __new__ h args kwargs in
  match bind_label args kwargs with
  | Error e => (h1, Error e)
  | Ok label =>
      match init_object h1 obj label with
      | (h2, Ok _) => (h2, Ok obj)
      | (h2, Error e) => (h2, Error e)
      end
  end.

(** *** Shifting a date by a Label: [Label.to_date] and [labeltodate] *)

Section ToDate.
Import Calendar.

Variable pkg : gmap string (list Z).
Variable np_busday_offset :
  nd Z -> nd Z -> string -> busdaycalendar -> res (nd (option Z)).

(** [date + pd.DateOffset(months=n)] is a pandas call and stays abstract;
    [date + pd.DateOffset(days=n)] adds [n] days. *)
Variable pd_add_months : Z -> Z -> Z.

(** [offsetdate(shifted, 0, roll=roll, cal=cal)] on the one date
    [shifted], which is [None] when it is NaT: numpy hands NaT back. *)
Definition offset_zero (shifted : option Z) (roll : string) (cal : option string)
  : M (option Z) :=
  match shifted with
  | Some d =>
      let* r := offsetdate pkg np_busday_offset (Scalar d) (Scalar 0) roll cal in
      match r with
      | Scalar o => ret o
      | Array _ => raise (TypeError "Cannot convert input to Timestamp")
      end
  | None => let* _ := _get_bdaycalendar pkg cal in ret None
  end.

Definition to_date (self : Label) (ref_date : Z) (date_adjust : pyobj)
    (cal : option string) : M (option Z) :=
  match date_adjust with
  | PyStr date_adjust =>
      let date_adjust := upper date_adjust in
      if negb (existsb (String.eqb date_adjust) ["DU"; "DC"])
      then raise (ValueError ("date_adjust parameter must be 'DU' or 'DC', got '"
                              ++ date_adjust ++ "'"))
      else
        let get := fun c => letter_map self !! c in
        match get "Y" with
        | None => raise (TypeError "unsupported operand type(s) for *: 'int' and 'NoneType'")
        | Some ny =>
        match get "M" with
        | None => raise (TypeError "unsupported operand type(s) for +=: 'NoneType' and 'int'")
        | Some nm =>
        let nm := nm + 12 * ny in
        match get "W" with
        | None => raise (TypeError "unsupported operand type(s) for *: 'int' and 'NoneType'")
        | Some nw =>
        match get "D" with
        | None => raise (TypeError "unsupported operand type(s) for +=: 'NoneType' and 'int'")
        | Some nd =>
        let nd := nd + 7 * nw in
        let shifted := Some ref_date in
        let* shifted :=
          if 0 <? nm
          then
            let shifted := option_map (fun d => pd_add_months d nm) shifted in
            if String.eqb date_adjust "DU"
            then offset_zero shifted "modifiedfollowing" cal
            else ret shifted
          else ret shifted in
        let* shifted :=
          if 0 <? nd
          then
            let shifted := option_map (fun d => d + nd) shifted in
            if String.eqb date_adjust "DU"
            then offset_zero shifted "forward" cal
            else ret shifted
          else ret shifted in
        ret shifted
        end
        end
        end
        end
  | PyLabel _ => raise (TypeError "date_adjust parameter must be str, got Label")
  | PyOther class_name =>
      raise (TypeError ("date_adjust parameter must be str, got " ++ class_name))
  end.

(** [labeltodate(date, label, date_adjust=..., cal=...)] *)
Definition labeltodate (date : Z) (label : pyobj) (date_adjust : pyobj)
    (cal : option string) : M (option Z) :=
  let* l := lift (new label) in
  to_date l date date_adjust cal.

End ToDate.

End Label.

(** ** pypctools/Bucket.py: class Bucket *)

Module Bucket.

Local Open Scope float_scope.

(** numpy and Python on binary64 values.  [np_sum] adds from the left, as
    numpy does on fewer than eight elements. *)
Definition np_sum (l : list float) : float := fold_left PrimFloat.add l 0.

Definition is_finite (x : float) : bool :=
  negb (PrimFloat.is_nan x) && negb (PrimFloat.is_infinity x).

Definition np_isclose (a b rtol atol : float) : bool :=
  if is_finite a && is_finite b
  then PrimFloat.leb (PrimFloat.abs (a - b)) (atol + rtol * PrimFloat.abs b)
  else PrimFloat.eqb a b.

(** Python's [a / b] on two integers: the quotient of the converted
    operands, which is Python's correctly rounded quotient below 2^53. *)
Definition int_truediv (a b : Z) : float := float_of_Z a / float_of_Z b.

(** [round(x, 7) == 1]: Python rounds the exact value of [x] to seven
    decimals (ties to even), so the test holds when [x * 10^8] lies
    between 99999995 and 100000005. *)
Definition scaled_compare (m e bound : Z) : comparison :=
  if (0 <=? e)%Z then (m * 2 ^ e * 10 ^ 8 ?= bound)%Z
  else (m * 10 ^ 8 ?= bound * 2 ^ (- e))%Z.

Definition round7_is_one (x : float) : bool :=
  match Prim2SF x with
  | S754_finite false m e =>
      match scaled_compare (Z.pos m) e 99999995, scaled_compare (Z.pos m) e 100000005 with
      | Lt, _ => false
      | _, Gt => false
      | _, _ => true
      end
  | _ => false
  end.

(** A Bucket is a [pd.Series]: its index of Labels and its values, as
    float64 (an integer Series holds the same numbers). *)
Record Bucket : Type := {
  index : list Label.Label;
  values : list float;
}.

(** [ix.unique()] keeps the first of the Labels that are one key to a hash
    table: equal hash and [==].  The hash is the one of the text, taken
    to tell different texts apart. *)
Definition same_key (a b : Label.Label) : bool :=
  String.eqb (Label.__repr__ a) (Label.__repr__ b)
  && (Label._dc_count a =? Label._dc_count b)%Z.

Fixpoint unique (ix : list Label.Label) : list Label.Label :=
  match ix with
  | [] => []
  | a :: ix' => a :: filter (fun b => same_key a b = false) (unique ix')
  end.

(** [ix.equals(other)]: same length and [==] position by position. *)
Definition equals (ix other : list Label.Label) : bool :=
  (length ix =? length other)%nat
  && forallb (fun ab => (Label._dc_count (fst ab) =? Label._dc_count (snd ab))%Z)
       (zip_with_same pair ix other).

(** [sort_index]: the entries in ascending order of their Labels. *)
Fixpoint insert_entry (x : Label.Label * float) (l : list (Label.Label * float))
  : list (Label.Label * float) :=
  match l with
  | [] => [x]
  | y :: l' =>
      if (Label._dc_count (fst x) <=? Label._dc_count (fst y))%Z
      then x :: l else y :: insert_entry x l'
  end.

Definition sort_index (entries : list (Label.Label * float)) : list (Label.Label * float) :=
  fold_right insert_entry [] entries.

(** [values] is [None] when the caller leaves it out. *)
Definition __init__ (labels : list Label.pyobj) (values : option (list float)) : res Bucket :=
  let! ix := map_res Label.new labels in
  if negb (equals ix (unique ix))
  then Error (ValueError "Given labels must be all unique (i.e. different dc_count)")
  else
    let! data :=
      match values with
      | None => Ok (repeat PrimFloat.nan (length ix))
      | Some data =>
          if (length data =? length ix)%nat then Ok data
          else Error (ValueError "Length of values does not match length of index")
      end in
    let entries := sort_index (zip_with_same pair ix data) in
    Ok {| index := map fst entries; values := map snd entries |}.

(** [self.iteritems()] *)
Definition iteritems (self : Bucket) : list (Label.Label * float) :=
  zip_with_same pair (index self) (values self).

(** [next(dropwhile(pred, it))], with [None] for [StopIteration]. *)
Fixpoint next_dropwhile (pred : Z -> bool) (it : list Z) : option Z :=
  match it with
  | [] => None
  | x :: it' => if pred x then next_dropwhile pred it' else Some x
  end.

(** The inner function of [distribute_values]. *)
Definition find_closest (to_ndays : list Z) (nd : Z) : res (option Z * option Z) :=
  let left := next_dropwhile (fun to_nd => (nd <? to_nd)%Z) (rev to_ndays) in
  let right := next_dropwhile (fun to_nd => (to_nd <? nd)%Z) to_ndays in
  let! _ := python_assert
              (negb (bool_decide (left = None) && bool_decide (right = None)))
              "left = right = None!" in
  Ok (left, right).

(** [to_ndays.index(x)] *)
Fixpoint list_index (l : list Z) (x : Z) : res nat :=
  match l with
  | [] => Error (ValueError "x is not in list")
  | y :: l' => if (y =? x)%Z then Ok O else let! i := list_index l' x in Ok (S i)
  end.

(** [distributed[to_ndays.index(nd)] += amount] *)
Definition add_at (to_ndays : list Z) (distributed : list float) (nd : Z) (amount : float)
  : res (list float) :=
  let! i := list_index to_ndays nd in
  Ok (alter (fun old => old + amount) i distributed).

(** The body of the loop over [self.iteritems()]. *)
Definition distribute_one (to_ndays : list Z) (distributed : list float)
    (entry : Label.Label * float) : res (list float) :=
  let (label, value) := entry in
  let! closest := find_closest to_ndays (Label.dc_count label) in
  match closest with
  | (None, Some nd_right) => add_at to_ndays distributed nd_right value
  | (None, None) => Error (ValueError "None is not in list")
  | (Some nd_left, None) => add_at to_ndays distributed nd_left value
  | (Some nd_left, Some nd_right) =>
      if (nd_left =? nd_right)%Z then add_at to_ndays distributed nd_left value
      else
        let perc_left := int_truediv (nd_right - Label.dc_count label) (nd_right - nd_left) in
        let perc_right := int_truediv (Label.dc_count label - nd_left) (nd_right - nd_left) in
        let! _ := python_assert (PrimFloat.ltb 0 perc_left && PrimFloat.ltb perc_left 1) "" in
        let! _ := python_assert (PrimFloat.ltb 0 perc_right && PrimFloat.ltb perc_right 1) "" in
        let! _ := python_assert (round7_is_one (perc_left + perc_right)) "" in
        let! distributed := add_at to_ndays distributed nd_left (perc_left * value) in
        add_at to_ndays distributed nd_right (perc_right * value)
  end.

Fixpoint distribute_all (to_ndays : list Z) (distributed : list float)
    (entries : list (Label.Label * float)) : res (list float) :=
  match entries with
  | [] => Ok distributed
  | entry :: entries' =>
      let! distributed := distribute_one to_ndays distributed entry in
      distribute_all to_ndays distributed entries'
  end.

(** What [distribute_values] returns: an array, or a new Bucket. *)
Inductive distributed_values : Type :=
| AsArray (a : list float)
| AsBucket (b : Bucket).

Definition distribute_values (self : Bucket) (verts : list Label.pyobj)
    (return_bucket : bool) : res distributed_values :=
  if existsb PrimFloat.is_nan (values self)
  then Error (ValueError "Can't distribute NaN values")
  else
    let! verts := map_res Label.new verts in
    let to_ndays := map Label.dc_count verts in
    let distributed := repeat 0 (length verts) in
    let! distributed := distribute_all to_ndays distributed (iteritems self) in
    let! _ := python_assert
                (np_isclose (np_sum distributed) (np_sum (values self)) 0 0.01) "" in
    if return_bucket
    then let! b := __init__ (map Label.PyLabel verts) (Some distributed) in Ok (AsBucket b)
    else Ok (AsArray distributed).

Section ToDates.
Import Calendar.
Variable pkg : gmap string (list Z).
Variable np_busday_offset :
  nd Z -> nd Z -> string -> busdaycalendar -> res (nd (option Z)).
Variable pd_add_months : Z -> Z -> Z.

(** [Bucket.to_dates]: [label.to_date(...)] for each label of the index,
    in its order. *)
Definition to_dates (self : Bucket) (ref_date : Z) (date_adjust : Label.pyobj)
    (cal : option string) : M (list (option Z)) :=
  map_M (fun label =>
           Label.to_date pkg np_busday_offset pd_add_months label ref_date date_adjust cal)
    (index self).
End ToDates.

End Bucket.

(** ** pypctools/Txts.py: the root name of a txt file *)

Module Txts.

(** [str.strip()] with no argument, and [sep.join(parts)]. *)
Fixpoint drop_spaces (cs : list ascii) : list ascii :=
  match cs with
  | [] => []
  | c :: cs' => if is_space c then drop_spaces cs' else cs
  end.

Definition strip (s : string) : string :=
  string_of_list_ascii
    (rev (drop_spaces (rev (drop_spaces (list_ascii_of_string s))))).

Fixpoint join (sep : string) (parts : list string) : string :=
  match parts with
  | [] => EmptyString
  | [p] => p
  | p :: parts' => p ++ sep ++ join sep parts'
  end.

(** Transforms 'ON BRL IPCA' into 'ON_BRL_IPCA'. *)
Definition _easy_txt_rootname (root_fname : string) : string :=
  join "_" (split (upper (strip root_fname))).

End Txts.

(** * Properties *)

(** ** Strings and integer arrays *)

Module PyFacts.

Lemma upper_ascii_idem (c : ascii) : upper_ascii (upper_ascii c) = upper_ascii c.
Proof. destruct c as [[] [] [] [] [] [] [] []]; reflexivity. Qed.

Lemma upper_idem (s : string) : upper (upper s) = upper s.
Proof.
  induction s as [|c s IH]; simpl; [reflexivity|].
  now rewrite upper_ascii_idem, IH.
Qed.

Lemma insert_sorted_Sorted (x : Z) (l : list Z) :
  Sorted Z.le l -> Sorted Z.le (insert_sorted x l).
Proof.
  induction l as [|y l IH]; simpl; intros Hs.
  - repeat constructor.
  - destruct (Z.leb_spec x y) as [Hxy|Hxy].
    + constructor; [assumption|constructor; assumption].
    + apply Sorted_inv in Hs as [Hs Hhd].
      constructor; [auto|].
      destruct l as [|z l]; simpl.
      * constructor; lia.
      * destruct (Z.leb_spec x z); constructor; [lia|].
        inversion Hhd; assumption.
Qed.

Lemma np_sort_Sorted (l : list Z) : Sorted Z.le (np_sort l).
Proof.
  induction l as [|x l IH]; simpl; [constructor|].
  now apply insert_sorted_Sorted.
Qed.

Lemma np_sort_fixed (l : list Z) : Sorted Z.le l -> np_sort l = l.
Proof.
  induction l as [|x l IH]; simpl; intros Hs; [reflexivity|].
  apply Sorted_inv in Hs as [Hs Hhd].
  rewrite (IH Hs).
  destruct l as [|y l]; simpl; [reflexivity|].
  inversion Hhd; subst.
  destruct (Z.leb_spec x y); [reflexivity|lia].
Qed.

Lemma np_array_equal_sorted (l : list Z) :
  np_array_equal (np_sort l) l = true -> Sorted Z.le l.
Proof.
  unfold np_array_equal. intros H%bool_decide_eq_true.
  rewrite <- H. apply np_sort_Sorted.
Qed.

Lemma drop_repeats_length (l : list Z) : (length (drop_repeats l) <= length l)%nat.
Proof.
  induction l as [|x l IH]; simpl; [lia|].
  destruct l as [|y l]; [simpl; lia|].
  destruct (x =? y); simpl in *; lia.
Qed.

Lemma drop_repeats_strict (l : list Z) :
  Sorted Z.le l -> length (drop_repeats l) = length l -> StronglySorted Z.lt l.
Proof.
  induction l as [|x l IH]; intros Hs Hlen; [constructor|].
  apply Sorted_inv in Hs as [Hs Hhd].
  destruct l as [|y l]; [repeat constructor|].
  change (drop_repeats (x :: y :: l))
    with (if x =? y then drop_repeats (y :: l) else x :: drop_repeats (y :: l)) in Hlen.
  pose proof (drop_repeats_length (y :: l)) as Hle.
  destruct (Z.eqb_spec x y) as [->|Hne].
  - simpl in Hlen, Hle. lia.
  - assert (Htl : StronglySorted Z.lt (y :: l)).
    { apply IH; [assumption|]. simpl in Hlen |- *. lia. }
    inversion Hhd; subst.
    constructor; [assumption|].
    apply StronglySorted_inv in Htl as [_ Hall].
    constructor; [lia|].
    eapply Forall_impl; [exact Hall|]. simpl. intros; lia.
Qed.

Lemma strict_NoDup (l : list Z) : StronglySorted Z.lt l -> NoDup l.
Proof.
  induction 1 as [|x l Hs IH Hall]; constructor; [|assumption].
  intros Hin. rewrite Forall_forall in Hall. specialize (Hall x Hin). lia.
Qed.

(** What the two checks of the constructor on [end_dates] establish. *)
Lemma sorted_unique_strict (l : list Z) :
  np_array_equal (np_sort l) l = true ->
  (length (np_unique l) =? length l)%nat = true ->
  StronglySorted Z.lt l.
Proof.
  intros Hsorted Huniq.
  pose proof (np_array_equal_sorted _ Hsorted) as Hs.
  apply Nat.eqb_eq in Huniq.
  unfold np_unique in Huniq. rewrite (np_sort_fixed _ Hs) in Huniq.
  now apply drop_repeats_strict.
Qed.

Lemma monotone_unique_strict (l : list Z) :
  Sorted Z.le l ->
  (length (np_unique l) =? length l)%nat = true ->
  StronglySorted Z.lt l.
Proof.
  intros Hs Huniq. apply Nat.eqb_eq in Huniq.
  unfold np_unique in Huniq. rewrite (np_sort_fixed _ Hs) in Huniq.
  now apply drop_repeats_strict.
Qed.

End PyFacts.

(** ** The calendar cache

    The cache only ever holds what the package data gives, so what a
    computation returns does not depend on what is cached already. *)

Module CalendarFacts.
Import Calendar.

(** The outcome of a computation started on a given cache. *)
Definition run {A : Type} (m : M A) (cache : gmap string busdaycalendar) : res A :=
  snd (m cache).

Section Cache.

Variable pkg : gmap string (list Z).

Definition loaded_calendar (data : list Z) : busdaycalendar :=
  {| holidays := map _xldate_to_datetime data |}.

Definition calendar_of (code : string) : busdaycalendar :=
  loaded_calendar (default [] (pkg !! code)).

(** Every cached calendar is the one its file gives. *)
Definition consistent (cache : gmap string busdaycalendar) : Prop :=
  forall code bc, cache !! code = Some bc ->
    is_Some (pkg !! code) /\ bc = calendar_of code.

(** A computation keeps the cache consistent and returns the same on every
    consistent cache. *)
Definition stable {A : Type} (m : M A) : Prop :=
  forall c, consistent c ->
    consistent (fst (m c)) /\ forall c', consistent c' -> run m c' = run m c.

(** The first calendar code of a list that has no file. *)
Definition first_missing (cals : list string) : option string :=
  List.find (fun code => bool_decide (pkg !! code = None)) cals.

(** What [_get_bdaycalendar] returns, read off the package data alone. *)
Definition resolve (cal : option string) : res busdaycalendar :=
  match cal with
  | None => Error (TypeError "Calendar input must be str, got NoneType")
  | Some cal =>
      let cals := split (upper cal) in
      match first_missing cals with
      | Some code => Error (ValueError ("Invalid/NotImplemented calendar: " ++ code))
      | None =>
          match cals with
          | [] => Error (RuntimeError ("Unexpected calendar: " ++ cal))
          | [c] => Ok (calendar_of c)
          | _ => Ok {| holidays := concat (map holidays (map calendar_of cals)) |}
          end
      end
  end.

Lemma consistent_empty : consistent ∅.
Proof. intros code bc H. rewrite lookup_empty in H. discriminate. Qed.

Lemma stable_ret {A : Type} (a : A) : stable (ret a).
Proof. intros c Hc. split; [exact Hc|reflexivity]. Qed.

Lemma stable_raise {A : Type} (e : exn) : stable (@raise A e).
Proof. intros c Hc. split; [exact Hc|reflexivity]. Qed.

Lemma stable_lift {A : Type} (r : res A) : stable (lift r).
Proof. intros c Hc. split; [exact Hc|reflexivity]. Qed.

Lemma stable_bind {A B : Type} (m : M A) (k : A -> M B) :
  stable m -> (forall a, stable (k a)) -> stable (bind m k).
Proof.
  intros Hm Hk c Hc.
  destruct (Hm c Hc) as [Hc1 Hrun].
  unfold run, bind in *.
  destruct (m c) as [c1 [a|e]] eqn:Hmc; simpl in *.
  - destruct (Hk a c1 Hc1) as [Hc2 Hrun2]. split; [exact Hc2|].
    intros c' Hc'. specialize (Hrun c' Hc').
    destruct (Hm c' Hc') as [Hc1' _].
    destruct (m c') as [c1' [a'|e']]; simpl in *; [|discriminate].
    injection Hrun as ->. apply (Hrun2 c1' Hc1').
  - split; [exact Hc1|].
    intros c' Hc'. specialize (Hrun c' Hc').
    destruct (m c') as [c1' [a'|e']]; simpl in *; [discriminate|].
    now injection Hrun as ->.
Qed.

(** On a consistent cache, [bind] of stable computations is [bindR] of
    their outcomes. *)
Lemma run_bind {A B : Type} (m : M A) (k : A -> M B) c :
  stable m -> (forall a, stable (k a)) -> consistent c ->
  run (bind m k) c = bindR (run m c) (fun a => run (k a) c).
Proof.
  intros Hm Hk Hc.
  destruct (Hm c Hc) as [Hc1 _].
  unfold run, bind in *.
  destruct (m c) as [c1 [a|e]]; simpl in *; [|reflexivity].
  destruct (Hk a c1 Hc1) as [_ Hrun]. symmetry. apply (Hrun c Hc).
Qed.

Lemma run_ret {A : Type} (a : A) c : run (ret a) c = Ok a.
Proof. reflexivity. Qed.

Lemma run_raise {A : Type} (e : exn) c : run (@raise A e) c = Error e.
Proof. reflexivity. Qed.

Lemma run_lift {A : Type} (r : res A) c : run (lift r) c = r.
Proof. reflexivity. Qed.

Lemma stable_run {A : Type} (m : M A) c c' :
  stable m -> consistent c -> consistent c' -> run m c' = run m c.
Proof. intros Hm Hc Hc'. exact (proj2 (Hm c Hc) c' Hc'). Qed.

Lemma stable_consistent {A : Type} (m : M A) c :
  stable m -> consistent c -> consistent (fst (m c)).
Proof. intros Hm Hc. exact (proj1 (Hm c Hc)). Qed.

Lemma bind_ok {A B : Type} (m : M A) (k : A -> M B) c c' a :
  m c = (c', Ok a) -> bind m k c = k a c'.
Proof. intros H. unfold bind. now rewrite H. Qed.

Lemma bind_error {A B : Type} (m : M A) (k : A -> M B) c c' e :
  m c = (c', Error e) -> bind m k c = (c', Error e).
Proof. intros H. unfold bind. now rewrite H. Qed.

(** Loading one calendar. *)
Lemma load_present code data c :
  consistent c -> pkg !! code = Some data ->
  exists c', _load_calendar pkg code c = (c', Ok tt)
    /\ consistent c'
    /\ (forall k v, c !! k = Some v -> c' !! k = Some v)
    /\ c' !! code = Some (calendar_of code).
Proof.
  intros Hc Hdata. unfold _load_calendar, pkgutil_get_data.
  case_bool_decide as Hin.
  - exists c. destruct Hin as [bc Hbc].
    destruct (Hc _ _ Hbc) as [_ ->]. auto.
  - rewrite Hdata. eexists. split; [reflexivity|].
    assert (Hcal : {| holidays := map _xldate_to_datetime data |} = calendar_of code).
    { unfold calendar_of. now rewrite Hdata. }
    rewrite Hcal. split; [|split].
    + intros k bc. rewrite lookup_insert. case_decide as Hk.
      * intros [= <-]. subst k. split; [now rewrite Hdata|reflexivity].
      * apply Hc.
    + intros k v Hkv. rewrite lookup_insert. case_decide as Hk; [|exact Hkv].
      subst k. exfalso. apply Hin. now rewrite Hkv.
    + now rewrite lookup_insert_eq.
Qed.

Lemma load_missing code c :
  consistent c -> pkg !! code = None ->
  _load_calendar pkg code c
  = (c, Error (ValueError ("Invalid/NotImplemented calendar: " ++ code))).
Proof.
  intros Hc Hdata. unfold _load_calendar, pkgutil_get_data.
  case_bool_decide as Hin.
  - destruct Hin as [bc Hbc]. destruct (Hc _ _ Hbc) as [[d Hd] _]. congruence.
  - now rewrite Hdata.
Qed.

Lemma for_each_load_ok cals c :
  consistent c -> first_missing cals = None ->
  exists c', for_each (_load_calendar pkg) cals c = (c', Ok tt)
    /\ consistent c'
    /\ (forall k v, c !! k = Some v -> c' !! k = Some v)
    /\ (forall code, In code cals -> c' !! code = Some (calendar_of code)).
Proof.
  revert c. induction cals as [|code cals IH]; intros c Hc Hnone.
  - exists c. simpl. split; [reflexivity|]. split; [exact Hc|].
    split; [auto|]. intros ? [].
  - simpl in Hnone. case_bool_decide as Hcode; [discriminate|].
    destruct (pkg !! code) as [data|] eqn:Hdata; [|congruence].
    destruct (load_present code data c Hc Hdata) as (c1 & Hload & Hc1 & Hkeep1 & Hin1).
    destruct (IH c1 Hc1 Hnone) as (c2 & Hrest & Hc2 & Hkeep2 & Hin2).
    exists c2. simpl. unfold bind. rewrite Hload, Hrest.
    split; [reflexivity|]. split; [exact Hc2|]. split; [auto|].
    intros code' [<-|Hin]; auto.
Qed.

Lemma for_each_load_missing cals code c :
  consistent c -> first_missing cals = Some code ->
  exists c', for_each (_load_calendar pkg) cals c
             = (c', Error (ValueError ("Invalid/NotImplemented calendar: " ++ code)))
    /\ consistent c'.
Proof.
  revert c. induction cals as [|code0 cals IH]; intros c Hc Hsome; [discriminate|].
  simpl in Hsome. case_bool_decide as Hcode.
  - injection Hsome as <-. exists c. simpl. unfold bind.
    rewrite (load_missing _ _ Hc Hcode). auto.
  - destruct (pkg !! code0) as [data|] eqn:Hdata; [|congruence].
    destruct (load_present code0 data c Hc Hdata) as (c1 & Hload & Hc1 & _).
    destruct (IH c1 Hc1 Hsome) as (c2 & Hrest & Hc2).
    exists c2. simpl. unfold bind. rewrite Hload, Hrest. auto.
Qed.

Lemma map_M_cached cals c :
  (forall code, In code cals -> c !! code = Some (calendar_of code)) ->
  map_M cached cals c = (c, Ok (map calendar_of cals)).
Proof.
  induction cals as [|code cals IH]; intros Hin; [reflexivity|].
  simpl. unfold bind at 1. unfold cached at 1.
  rewrite (Hin code) by (now left).
  unfold bind. rewrite IH by (intros; apply Hin; now right). reflexivity.
Qed.

Lemma get_bdaycalendar_resolve cal c :
  consistent c ->
  consistent (fst (_get_bdaycalendar pkg cal c))
  /\ run (_get_bdaycalendar pkg cal) c = resolve cal.
Proof.
  intros Hc. unfold run, _get_bdaycalendar, resolve.
  destruct cal as [cal|]; [|split; [exact Hc|reflexivity]].
  cbv zeta. set (cals := split (upper cal)).
  destruct (first_missing cals) as [code|] eqn:Hmiss.
  - destruct (for_each_load_missing cals code c Hc Hmiss) as (c' & Hrun & Hc').
    rewrite (bind_error _ _ _ _ _ Hrun). simpl. auto.
  - destruct (for_each_load_ok cals c Hc Hmiss) as (c' & Hrun & Hc' & _ & Hin).
    rewrite (bind_ok _ _ _ _ _ Hrun).
    destruct cals as [|c1 [|c2 cals']].
    + simpl. auto.
    + unfold cached. rewrite (Hin c1) by (now left). simpl. auto.
    + rewrite (bind_ok _ _ _ _ _ (map_M_cached _ _ Hin)). simpl. auto.
Qed.

Lemma stable_get_bdaycalendar cal : stable (_get_bdaycalendar pkg cal).
Proof.
  intros c Hc. destruct (get_bdaycalendar_resolve cal c Hc) as [Hc' Hrun].
  split; [exact Hc'|].
  intros c' Hc'2. rewrite Hrun.
  exact (proj2 (get_bdaycalendar_resolve cal c' Hc'2)).
Qed.

Lemma run_get_bdaycalendar cal c :
  consistent c -> run (_get_bdaycalendar pkg cal) c = resolve cal.
Proof. intros Hc. exact (proj2 (get_bdaycalendar_resolve cal c Hc)). Qed.

End Cache.

(** Stability of a computation built from [ret], [raise], [lift], [bind],
    tests and the calendar lookup. *)
Ltac stable_step :=
  lazymatch goal with
  | |- stable _ (bind _ _) => apply stable_bind; [|intros ?]
  | |- stable _ (ret _) => apply stable_ret
  | |- stable _ (raise _) => apply stable_raise
  | |- stable _ (lift _) => apply stable_lift
  | |- stable _ (_get_bdaycalendar _ _) => apply stable_get_bdaycalendar
  | |- stable _ (if ?b then _ else _) => destruct b
  | |- stable _ (match ?x with _ => _ end) => destruct x
  end.

Ltac stable_auto := intros; repeat (first [assumption | stable_step]).

Section Operations.

Variable pkg : gmap string (list Z).
Variable np_busday_offset :
  nd Z -> nd Z -> string -> busdaycalendar -> res (nd (option Z)).
Variable pd_bdate_range :
  option Z -> option Z -> option Z -> list Z -> res (list Z).

Lemma stable_isbd dates cal : stable pkg (isbd pkg dates cal).
Proof. unfold isbd. stable_auto. Qed.

Lemma stable_bdbetween s e cal : stable pkg (bdbetween pkg s e cal).
Proof. unfold bdbetween. stable_auto. Qed.

Lemma stable_offsetdate dates offsets roll cal :
  stable pkg (offsetdate pkg np_busday_offset dates offsets roll cal).
Proof. unfold offsetdate. stable_auto. Qed.

Lemma stable_bday_range start end_ periods cal :
  stable pkg (bday_range pkg pd_bdate_range start end_ periods cal).
Proof. unfold bday_range. stable_auto. Qed.

Lemma stable_calc_term {T : Type} {A : Arith T} s e day_count cal :
  stable pkg (_calc_term pkg s e day_count cal).
Proof.
  unfold _calc_term. cbv zeta.
  repeat (first [apply stable_bdbetween | stable_step]).
Qed.

(** The outcome of each operation, through the calendar it resolves. *)
Lemma run_isbd dates cal c :
  consistent pkg c ->
  run (isbd pkg dates cal) c
  = let! bc := resolve pkg cal in Ok (nd_map (is_busday bc) dates).
Proof.
  intros Hc. unfold isbd.
  rewrite (run_bind pkg) by (stable_auto). now rewrite run_get_bdaycalendar.
Qed.

Lemma run_bdbetween s e cal c :
  consistent pkg c ->
  run (bdbetween pkg s e cal) c
  = let! bc := resolve pkg cal in broadcast2 (busday_count bc) s e.
Proof.
  intros Hc. unfold bdbetween.
  rewrite (run_bind pkg) by (stable_auto). now rewrite run_get_bdaycalendar.
Qed.

Lemma run_offsetdate dates offsets roll cal c :
  consistent pkg c ->
  run (offsetdate pkg np_busday_offset dates offsets roll cal) c
  = let! bc := resolve pkg cal in np_busday_offset dates offsets (lower roll) bc.
Proof.
  intros Hc. unfold offsetdate.
  rewrite (run_bind pkg) by (stable_auto). now rewrite run_get_bdaycalendar.
Qed.

Lemma run_bday_range start end_ periods cal c :
  consistent pkg c -> count_None start end_ periods = 1%nat ->
  run (bday_range pkg pd_bdate_range start end_ periods cal) c
  = let! bc := resolve pkg cal in pd_bdate_range start end_ periods (holidays bc).
Proof.
  intros Hc Hcount. unfold bday_range. rewrite Hcount. simpl.
  rewrite (run_bind pkg) by (stable_auto). now rewrite run_get_bdaycalendar.
Qed.

End Operations.

(** Business-day counts. *)
Lemma count_valid_nonneg bc from n : 0 <= count_valid bc from n.
Proof.
  revert from. induction n as [|n IH]; intros from; simpl; [lia|].
  specialize (IH (from + 1)). destruct (is_busday bc from); lia.
Qed.

Lemma count_valid_app bc from n m :
  count_valid bc from (n + m)
  = count_valid bc from n + count_valid bc (from + Z.of_nat n) m.
Proof.
  revert from. induction n as [|n IH]; intros from.
  - simpl. now rewrite Z.add_0_r.
  - cbn [Nat.add count_valid]. rewrite IH.
    replace (from + 1 + Z.of_nat n) with (from + Z.of_nat (S n)) by lia. lia.
Qed.

Lemma count_valid_pos bc from n d :
  from <= d < from + Z.of_nat n -> is_busday bc d = true ->
  0 < count_valid bc from n.
Proof.
  revert from. induction n as [|n IH]; intros from Hd Hbd; [lia|].
  simpl. destruct (Z.eq_dec d from) as [->|Hne].
  - rewrite Hbd. pose proof (count_valid_nonneg bc (from + 1) n). lia.
  - assert (0 < count_valid bc (from + 1) n) by (apply IH; [lia|assumption]).
    destruct (is_busday bc from); lia.
Qed.

Lemma count_valid_zero bc from n :
  (forall d, from <= d < from + Z.of_nat n -> is_busday bc d = false) ->
  count_valid bc from n = 0.
Proof.
  revert from. induction n as [|n IH]; intros from Hall; [reflexivity|].
  simpl. rewrite (Hall from) by lia. rewrite IH; [lia|].
  intros d Hd. apply Hall. lia.
Qed.

Lemma count_valid_pos_inv bc from n :
  0 < count_valid bc from n ->
  exists d, from <= d < from + Z.of_nat n /\ is_busday bc d = true.
Proof.
  revert from. induction n as [|n IH]; intros from Hpos; simpl in Hpos; [lia|].
  destruct (is_busday bc from) eqn:Hbd.
  - exists from. split; [lia|assumption].
  - destruct (IH (from + 1)) as (d & Hd & Hd'); [lia|].
    exists d. split; [lia|assumption].
Qed.

(** The count never decreases when the end date moves later. *)
Lemma busday_count_monotone bc begin e1 e2 :
  e1 <= e2 -> busday_count bc begin e1 <= busday_count bc begin e2.
Proof.
  intros Hle. unfold busday_count.
  destruct (Z.leb_spec begin e1) as [H1|H1], (Z.leb_spec begin e2) as [H2|H2]; try lia.
  - replace (Z.to_nat (e2 - begin))
      with (Z.to_nat (e1 - begin) + Z.to_nat (e2 - e1))%nat by lia.
    rewrite count_valid_app.
    pose proof (count_valid_nonneg bc (begin + Z.of_nat (Z.to_nat (e1 - begin)))
                  (Z.to_nat (e2 - e1))). lia.
  - pose proof (count_valid_nonneg bc (e1 + 1) (Z.to_nat (begin - e1))).
    pose proof (count_valid_nonneg bc begin (Z.to_nat (e2 - begin))). lia.
  - replace (Z.to_nat (begin - e1))
      with (Z.to_nat (e2 - e1) + Z.to_nat (begin - e2))%nat by lia.
    rewrite count_valid_app.
    replace (e1 + 1 + Z.of_nat (Z.to_nat (e2 - e1))) with (e2 + 1) by lia.
    pose proof (count_valid_nonneg bc (e1 + 1) (Z.to_nat (e2 - e1))). lia.
Qed.

Lemma map_busday_count_sorted bc begin ends :
  Sorted Z.le ends -> Sorted Z.le (map (busday_count bc begin) ends).
Proof.
  induction 1 as [|e ends Hs IH Hhd]; simpl; constructor; [assumption|].
  destruct Hhd; simpl; constructor. now apply busday_count_monotone.
Qed.

(** A small package and its one calendar, for closed examples: BRL with
    the holiday 2020-01-01 (Excel day 43831). *)
Definition pkg_BRL : gmap string (list Z) := {[ "BRL" := [43831] ]}.

Definition cal_BRL : busdaycalendar := {| holidays := [18262] |}.

Lemma resolve_BRL : run (_get_bdaycalendar pkg_BRL (Some "brl")) ∅ = Ok cal_BRL.
Proof. vm_compute. reflexivity. Qed.

Lemma first_missing_In (pkg : gmap string (list Z)) (cals : list string) (code : string) :
  In code cals -> pkg !! code = None ->
  exists missing, first_missing pkg cals = Some missing
    /\ In missing cals /\ pkg !! missing = None.
Proof.
  intros Hin Hnone. unfold first_missing.
  destruct (List.find (fun code => bool_decide (pkg !! code = None)) cals) as [m|] eqn:Hf.
  - apply find_some in Hf as [Hm Hb]. apply bool_decide_eq_true in Hb. eauto.
  - apply (find_none _ _ Hf) in Hin. apply bool_decide_eq_false in Hin. contradiction.
Qed.

(** C7 (as amended).  When one of the calendar codes of [cal] has no
    holiday file, each operation that resolves [cal] -- [isbd],
    [bdbetween], [offsetdate], and [bday_range] once its parameter count
    is right -- fails with the ValueError that [_load_calendar] raises in
    place of the FileNotFoundError it catches; the message names the first
    code without a file. *)
Theorem unknown_calendar_ValueError (pkg : gmap string (list Z))
    (c : gmap string busdaycalendar) (cal code : string) :
  consistent pkg c ->
  In code (split (upper cal)) ->
  pkg !! code = None ->
  exists missing,
    In missing (split (upper cal)) /\ pkg !! missing = None
    /\ let e := ValueError ("Invalid/NotImplemented calendar: " ++ missing) in
       (forall dates, run (isbd pkg dates (Some cal)) c = Error e)
       /\ (forall s e', run (bdbetween pkg s e' (Some cal)) c = Error e)
       /\ (forall np_busday_offset dates offsets roll,
             run (offsetdate pkg np_busday_offset dates offsets roll (Some cal)) c
             = Error e)
       /\ (forall pd_bdate_range start end_ periods,
             count_None start end_ periods = 1%nat ->
             run (bday_range pkg pd_bdate_range start end_ periods (Some cal)) c
             = Error e).
Proof.
  intros Hc Hin Hnone.
  destruct (first_missing_In pkg _ _ Hin Hnone) as (missing & Hfirst & Hmin & Hmnone).
  exists missing. split; [exact Hmin|]. split; [exact Hmnone|]. cbv zeta.
  assert (Hres : resolve pkg (Some cal)
                 = Error (ValueError ("Invalid/NotImplemented calendar: " ++ missing))).
  { unfold resolve. cbv zeta. now rewrite Hfirst. }
  repeat split; intros.
  - rewrite run_isbd by assumption. now rewrite Hres.
  - rewrite run_bdbetween by assumption. now rewrite Hres.
  - rewrite run_offsetdate by assumption. now rewrite Hres.
  - rewrite run_bday_range by assumption. now rewrite Hres.
Qed.

Lemma unknown_calendar_witness :
  exists e,
    run (isbd pkg_BRL (Scalar 18262) (Some "usd")) ∅ = Error e
    /\ is_ValueError e = true.
Proof.
  destruct (unknown_calendar_ValueError pkg_BRL ∅ "usd" "USD"
              (consistent_empty pkg_BRL) (or_introl eq_refl) eq_refl)
    as (missing & _ & _ & Hisbd & _).
  eexists. split; [apply Hisbd|reflexivity].
Defined.

(** The calendar XYZ has no file; [isbd] fails, and the exception is a
    ValueError, not a FileNotFoundError. *)
Lemma unknown_calendar_not_FileNotFoundError :
  pkg_BRL !! "XYZ" = None
  /\ exists e,
       run (isbd pkg_BRL (Scalar 18262) (Some "XYZ")) ∅ = Error e
       /\ is_FileNotFoundError e = false.
Proof.
  split; [reflexivity|]. eexists. split; [vm_compute; reflexivity|reflexivity].
Qed.

(** The calendar cache does not show in the results: started on any
    cache that holds only loaded calendars, [bdbetween] returns what it
    returns on the empty cache, leaves such a cache behind, and returns
    the same when called again on the cache it left. *)
Theorem calendar_cache_transparent (pkg : gmap string (list Z))
    (s e : nd Z) (cal : option string) (c : gmap string busdaycalendar) :
  consistent pkg c ->
  consistent pkg (fst (bdbetween pkg s e cal c))
  /\ run (bdbetween pkg s e cal) c = run (bdbetween pkg s e cal) ∅
  /\ run (bdbetween pkg s e cal) (fst (bdbetween pkg s e cal c))
     = run (bdbetween pkg s e cal) c.
Proof.
  intros Hc. destruct (stable_bdbetween pkg s e cal c Hc) as [Hc' Hsame].
  split; [exact Hc'|]. split.
  - symmetry. apply Hsame, consistent_empty.
  - apply Hsame, Hc'.
Qed.

Lemma calendar_cache_transparent_witness :
  consistent pkg_BRL ∅
  /\ run (bdbetween pkg_BRL (Scalar 18261) (Scalar 18264) (Some "BRL"))
       (fst (bdbetween pkg_BRL (Scalar 18261) (Scalar 18264) (Some "BRL") ∅))
     = Ok (Scalar 2).
Proof.
  split; [apply consistent_empty|].
  rewrite (proj2 (proj2 (calendar_cache_transparent pkg_BRL (Scalar 18261) (Scalar 18264)
                           (Some "BRL") ∅ (consistent_empty _)))).
  vm_compute. reflexivity.
Defined.

(** For one start date and a calendar that resolves, the business-day
    count of [bdbetween] never decreases when the end date moves later. *)
Theorem bdbetween_monotone_in_end (pkg : gmap string (list Z))
    (s e1 e2 : Z) (cal : option string) (c : gmap string busdaycalendar)
    (bc : busdaycalendar) :
  consistent pkg c -> resolve pkg cal = Ok bc -> e1 <= e2 ->
  exists n1 n2,
    run (bdbetween pkg (Scalar s) (Scalar e1) cal) c = Ok (Scalar n1)
    /\ run (bdbetween pkg (Scalar s) (Scalar e2) cal) c = Ok (Scalar n2)
    /\ n1 <= n2.
Proof.
  intros Hc Hbc Hle. rewrite !run_bdbetween, Hbc by assumption.
  exists (busday_count bc s e1), (busday_count bc s e2).
  split; [reflexivity|]. split; [reflexivity|].
  now apply busday_count_monotone.
Qed.

Lemma bdbetween_monotone_in_end_witness :
  exists n1 n2,
    run (bdbetween pkg_BRL (Scalar 18261) (Scalar 18262) (Some "BRL")) ∅ = Ok (Scalar n1)
    /\ run (bdbetween pkg_BRL (Scalar 18261) (Scalar 18264) (Some "BRL")) ∅ = Ok (Scalar n2)
    /\ n1 <= n2.
Proof.
  apply (bdbetween_monotone_in_end pkg_BRL 18261 18262 18264 (Some "BRL") ∅ cal_BRL).
  - apply consistent_empty.
  - vm_compute. reflexivity.
  - lia.
Defined.

End CalendarFacts.

(** ** Rate and factor conversions, curves *)

Module CurveFacts.
Import Calendar Curve_bkp CalendarFacts.

Section Stability.

Context {T : Type} {A : Arith T}.
Variable pkg : gmap string (list Z).

Lemma stable_rate2fct rates s e compounding day_count cal :
  stable pkg (rate2fct pkg rates s e compounding day_count cal).
Proof.
  unfold rate2fct. cbv zeta.
  repeat (first [apply stable_calc_term | stable_step]).
Qed.

Lemma stable_fct2rate factors s e compounding day_count cal :
  stable pkg (fct2rate pkg factors s e compounding day_count cal).
Proof.
  unfold fct2rate. cbv zeta.
  repeat (first [apply stable_calc_term | stable_step]).
Qed.

Lemma stable_segment_factor starts ends rates compounding day_count cal ref factors i :
  stable pkg (segment_factor pkg starts ends rates compounding day_count cal ref factors i).
Proof.
  unfold segment_factor.
  repeat (first [apply stable_rate2fct | stable_step]).
Qed.

Lemma stable_bootstrap_from starts ends rates compounding day_count cal ref indices factors :
  stable pkg
    (bootstrap_from pkg starts ends rates compounding day_count cal ref indices factors).
Proof.
  revert factors. induction indices as [|i indices IH]; intros factors; simpl.
  - apply stable_ret.
  - apply stable_bind; [apply stable_segment_factor|]. intros f. apply IH.
Qed.

Lemma stable_init starts ends rates interp_method compounding day_count cal :
  stable pkg (__init__ pkg starts ends rates interp_method compounding day_count cal).
Proof.
  unfold __init__, bootstrap. cbv zeta.
  repeat (first [apply stable_bdbetween | apply stable_fct2rate
                | apply stable_bootstrap_from | stable_step]).
Qed.

Lemma stable_interp self dates : stable pkg (interp pkg self dates).
Proof.
  unfold interp, __zc_f2r. cbv zeta.
  repeat (first [apply stable_bdbetween | apply stable_fct2rate | stable_step]).
Qed.

End Stability.

Ltac stable_all :=
  intros;
  repeat (first [ assumption
                | apply stable_calc_term | apply stable_bdbetween
                | apply stable_rate2fct | apply stable_fct2rate
                | apply stable_segment_factor | apply stable_bootstrap_from
                | apply stable_init | apply stable_interp
                | stable_step ]).

Lemma Rltb_false (x y : R) : (y <= x)%R -> Rltb x y = false.
Proof. intros H. unfold Rltb. destruct (Rlt_dec x y); [lra|reflexivity]. Qed.

Lemma Rltb_true (x y : R) : (x < y)%R -> Rltb x y = true.
Proof. intros H. unfold Rltb. destruct (Rlt_dec x y); [reflexivity|lra]. Qed.

Section Validation.

Context {T : Type} {A : Arith T}.
Variable pkg : gmap string (list Z).

Lemma rate2fct_negative_term c x s e compounding day_count cal term :
  consistent pkg c ->
  run (_calc_term pkg s e day_count cal) c = Ok term ->
  negative_term term = true ->
  run (rate2fct pkg x s e compounding day_count cal) c
  = Error (ValueError "Unable to calculate factors with end_dates < start_dates").
Proof.
  intros Hc Hterm Hneg. unfold rate2fct.
  rewrite (run_bind pkg) by stable_all. rewrite Hterm. simpl.
  now rewrite Hneg.
Qed.

Lemma fct2rate_negative_term c x s e compounding day_count cal term :
  consistent pkg c ->
  run (_calc_term pkg s e day_count cal) c = Ok term ->
  negative_term term = true ->
  run (fct2rate pkg x s e compounding day_count cal) c
  = Error (ValueError "Unable to calculate factors with end_dates < start_dates").
Proof.
  intros Hc Hterm Hneg. unfold fct2rate.
  rewrite (run_bind pkg) by stable_all. rewrite Hterm. simpl.
  now rewrite Hneg.
Qed.

End Validation.




(** [np.interp] at and beyond the ends of increasing sample points. *)
Section InterpFacts.

Context {T : Type} {A : Arith T}.

Lemma head_le_last (x0 a : Z) (l : list Z) :
  StronglySorted Z.lt (a :: l) -> a <= List.last (a :: l) x0.
Proof.
  revert a. induction l as [|b l IH]; intros a Hs; [simpl; lia|].
  apply StronglySorted_inv in Hs as [Hs Hall].
  apply Forall_cons in Hall as [Hab _].
  specialize (IH b Hs).
  change (List.last (a :: b :: l) x0) with (List.last (b :: l) x0). lia.
Qed.

Lemma interp_between_step (x xj xj1 : Z) (xp : list Z) (fj fj1 : T) (fp : list T) (d : T) :
  interp_between x (xj :: xj1 :: xp) (fj :: fj1 :: fp) d
  = if x <? xj1
    then if x =? xj then fj
         else fadd (fmul (fdiv (fsub fj1 fj) (of_int (xj1 - xj))) (of_int (x - xj))) fj
    else interp_between x (xj1 :: xp) (fj1 :: fp) d.
Proof. reflexivity. Qed.

Lemma interp_between_last (xp : list Z) (fp : list T) (x0 : Z) (f0 d : T) :
  StronglySorted Z.lt xp -> length xp = length fp -> xp <> [] ->
  interp_between (List.last xp x0) xp fp d = List.last fp f0.
Proof.
  revert fp. induction xp as [|xj xp IH]; intros fp Hs Hlen Hne; [congruence|].
  destruct fp as [|fj fp]; [discriminate|].
  destruct xp as [|xj1 xp]; destruct fp as [|fj1 fp]; try discriminate.
  - reflexivity.
  - change (List.last (xj :: xj1 :: xp) x0) with (List.last (xj1 :: xp) x0).
    change (List.last (fj :: fj1 :: fp) f0) with (List.last (fj1 :: fp) f0).
    apply StronglySorted_inv in Hs as [Hs _].
    pose proof (head_le_last x0 xj1 xp Hs) as Hle.
    rewrite interp_between_step.
    destruct (Z.ltb_spec (List.last (xj1 :: xp) x0) xj1) as [Hlt|_]; [lia|].
    apply IH; [assumption|simpl in *; lia|discriminate].
Qed.

Lemma np_interp1_right (x0 : Z) (xp : list Z) (f0 : T) (fp : list T) (x : Z) :
  StronglySorted Z.lt (x0 :: xp) -> length xp = length fp ->
  List.last (x0 :: xp) x0 <= x ->
  np_interp1 (x0 :: xp) (f0 :: fp) x = Ok (List.last (f0 :: fp) f0).
Proof.
  intros Hs Hlen Hx. unfold np_interp1, last_of.
  cbn [length]. rewrite Hlen, Nat.eqb_refl. cbn [negb].
  pose proof (head_le_last x0 x0 xp Hs) as Hle.
  destruct (Z.ltb_spec x x0) as [Hlt|_]; [lia|].
  destruct (Z.ltb_spec (List.last (x0 :: xp) x0) x) as [_|Hge]; [reflexivity|].
  assert (x = List.last (x0 :: xp) x0) as -> by lia.
  f_equal. apply interp_between_last; [assumption|simpl; lia|discriminate].
Qed.

Lemma np_interp1_left (x0 : Z) (xp : list Z) (f0 : T) (fp : list T) (x : Z) :
  StronglySorted Z.lt (x0 :: xp) -> length xp = length fp ->
  x <= x0 ->
  np_interp1 (x0 :: xp) (f0 :: fp) x = Ok f0.
Proof.
  intros Hs Hlen Hx. unfold np_interp1, last_of.
  cbn [length]. rewrite Hlen, Nat.eqb_refl. cbn [negb].
  pose proof (head_le_last x0 x0 xp Hs) as Hle.
  destruct (Z.ltb_spec x x0) as [_|Hge]; [reflexivity|].
  assert (x = x0) as -> by lia.
  destruct (Z.ltb_spec (List.last (x0 :: xp) x0) x0) as [Hlt|_]; [lia|].
  f_equal. destruct xp as [|x1 xp]; destruct fp as [|f1 fp]; try discriminate.
  - reflexivity.
  - rewrite interp_between_step.
    apply StronglySorted_inv in Hs as [_ Hall].
    apply Forall_cons in Hall as [H01 _].
    destruct (Z.ltb_spec x0 x1) as [_|Hge']; [|lia].
    now rewrite Z.eqb_refl.
Qed.

End InterpFacts.

(** What a successful construction establishes. *)
Section Construction.

Context {T : Type} {A : Arith T}.
Variable pkg : gmap string (list Z).

Record built (curve : Curve T) : Prop := {
  built_ends : end_dates curve <> [];
  built_sorted : StronglySorted Z.lt (end_dates curve);
  built_factors : length (factors curve) = length (end_dates curve);
  built_log :
    interp_method curve = EXP -> log_factors curve = Some (map flog (factors curve));
  built_axis :
    exists xf : Z -> Z,
      (forall d1 d2, d1 <= d2 -> xf d1 <= xf d2)
      /\ ndays curve = map xf (end_dates curve)
      /\ StronglySorted Z.lt (ndays curve)
      /\ forall c dates, consistent pkg c ->
           run (if String.eqb (day_count curve) "BUS/252"
                then bdbetween pkg (Scalar (ref_date curve)) dates (cal curve)
                else ret (nd_map (fun d => d - ref_date curve) dates)) c
           = Ok (nd_map xf dates);
}.

Lemma broadcast2_scalar_l {B C D : Type} (f : B -> C -> D) (b : B) (y : nd C) :
  broadcast2 f (Scalar b) y = Ok (nd_map (f b) y).
Proof. now destruct y. Qed.

Lemma bootstrap_from_length starts ends rates compounding day_count cal ref indices
    factors c fs :
  consistent pkg c ->
  run (bootstrap_from pkg starts ends rates compounding day_count cal ref indices factors) c
  = Ok fs ->
  length fs = (length factors + length indices)%nat.
Proof.
  intros Hc. revert factors. induction indices as [|i indices IH]; intros factors Hrun.
  - cbn in Hrun. injection Hrun as <-. simpl. lia.
  - cbn [bootstrap_from] in Hrun.
    rewrite (run_bind pkg) in Hrun by stable_all.
    destruct (run (segment_factor pkg starts ends rates compounding day_count cal ref
                     factors i) c) as [f|err]; [|discriminate].
    cbn [bindR] in Hrun. apply IH in Hrun. rewrite length_app in Hrun. simpl in *. lia.
Qed.

Lemma resolve_upper (c : string) :
  is_ok (resolve pkg (Some c)) = true ->
  resolve pkg (Some (upper c)) = resolve pkg (Some c).
Proof.
  unfold resolve. rewrite PyFacts.upper_idem.
  destruct (first_missing pkg (split (upper c))); [reflexivity|].
  destruct (split (upper c)) as [|? [|? ?]]; [discriminate|reflexivity|reflexivity].
Qed.

Lemma sorted_map_monotone (xf : Z -> Z) (l : list Z) :
  (forall d1 d2, d1 <= d2 -> xf d1 <= xf d2) ->
  StronglySorted Z.lt l -> Sorted Z.le (map xf l).
Proof.
  intros Hmono Hs. apply StronglySorted_Sorted in Hs.
  induction Hs as [|e l Hs IH Hhd]; simpl; constructor; [assumption|].
  destruct Hhd; simpl; constructor. apply Hmono. lia.
Qed.

Lemma strict_map_sub (ref : Z) (l : list Z) :
  StronglySorted Z.lt l -> StronglySorted Z.lt (map (fun e => e - ref) l).
Proof.
  induction 1 as [|e l Hs IH Hall]; simpl; constructor; [assumption|].
  apply Forall_map. eapply Forall_impl; [exact Hall|]. simpl. intros; lia.
Qed.

Lemma init_built starts ends rates interp_method compounding day_count cal c0 curve :
  consistent pkg c0 ->
  run (__init__ pkg starts ends rates interp_method compounding day_count cal) c0
  = Ok curve ->
  built curve.
Proof.
  intros Hc0 Hrun. unfold __init__, _normalize_dates in Hrun.
  destruct rates as [?|rates]; [discriminate|].
  destruct ends as [?|ends]; [discriminate|].
  cbv zeta in Hrun.
  set (starts' := match starts with Scalar s => repeat s (length ends) | Array l => l end)
    in Hrun.
  destruct (negb (length starts' =? length ends)%nat) eqn:Hlen1; [discriminate|].
  destruct (negb (length ends =? length rates)%nat) eqn:Hlen2; [discriminate|].
  destruct (negb (np_array_equal (np_sort ends) ends)) eqn:Hsorted; [discriminate|].
  destruct (negb (length (np_unique ends) =? length ends)%nat) eqn:Huniq; [discriminate|].
  apply negb_false_iff in Hlen1, Hlen2, Hsorted, Huniq.
  pose proof (PyFacts.sorted_unique_strict ends Hsorted Huniq) as Hstrict.
  destruct starts' as [|ref starts''] eqn:Hstarts; [discriminate|].
  assert (Hends : ends <> []).
  { intros ->. apply Nat.eqb_eq in Hlen1. discriminate. }
  rewrite (run_bind pkg) in Hrun by stable_all.
  match type of Hrun with
  | bindR (run ?m c0) _ = _ => destruct (run m c0) as [[]|err] eqn:Hcheck; [|discriminate]
  end.
  cbn [bindR] in Hrun.
  destruct (parse_interp_method interp_method) as [method|]; [|discriminate].
  rewrite (run_bind pkg) in Hrun by stable_all.
  match type of Hrun with
  | bindR (run ?m c0) _ = _ => destruct (run m c0) as [fs|err] eqn:Hboot; [|discriminate]
  end.
  cbn [bindR] in Hrun.
  apply bootstrap_from_length in Hboot; [|assumption].
  rewrite length_seq in Hboot. simpl in Hboot.
  rewrite (run_bind pkg) in Hrun by stable_all.
  match type of Hrun with
  | bindR (run ?m c0) _ = _ => destruct (run m c0) as [rs|err] eqn:Hrates; [|discriminate]
  end.
  cbn [bindR] in Hrun.
  rewrite (run_bind pkg) in Hrun by stable_all.
  match type of Hrun with
  | bindR (run ?m c0) _ = _ => destruct (run m c0) as [[cal' nds]|err] eqn:Haxis; [|discriminate]
  end.
  cbn [bindR run ret snd fst] in Hrun. injection Hrun as <-.
  constructor; cbn [end_dates factors log_factors Curve_bkp.interp_method ndays
                      Curve_bkp.day_count Curve_bkp.cal ref_date].
  - exact Hends.
  - exact Hstrict.
  - exact Hboot.
  - intros ->. reflexivity.
  - destruct (String.eqb (upper day_count) "BUS/252") eqn:Hbus.
    + destruct cal as [cstr|]; [|discriminate].
      rewrite (run_bind pkg) in Haxis by stable_all.
      rewrite (run_bdbetween pkg) in Haxis by assumption.
      rewrite (run_bind pkg) in Hcheck by stable_all.
      rewrite (run_bdbetween pkg) in Hcheck by assumption.
      destruct (resolve pkg (Some cstr)) as [bc|err] eqn:Hres; [|discriminate].
      cbn [bindR broadcast2 nd_to_list run ret snd] in Haxis, Hcheck.
      injection Haxis as <- <-.
      destruct (negb (length (np_unique (map (busday_count bc ref) ends))
                      =? length (map (busday_count bc ref) ends))%nat) eqn:Hnb;
        [discriminate|].
      apply negb_false_iff in Hnb.
      exists (busday_count bc ref). split; [|split; [|split]].
      * intros d1 d2. apply busday_count_monotone.
      * reflexivity.
      * apply PyFacts.monotone_unique_strict; [|assumption].
        apply sorted_map_monotone; [|assumption].
        intros d1 d2. apply busday_count_monotone.
      * intros c dates Hc.
        rewrite (run_bdbetween pkg) by assumption.
        rewrite resolve_upper by (now rewrite Hres). rewrite Hres.
        cbn [bindR]. apply broadcast2_scalar_l.
    + cbn [run ret snd] in Haxis. injection Haxis as <- <-.
      exists (fun e => e - ref). split; [|split; [|split]].
      * intros; lia.
      * reflexivity.
      * now apply strict_map_sub.
      * intros c dates Hc. reflexivity.
Qed.

Lemma last_map (xf : Z -> Z) (l : list Z) (x0 : Z) :
  List.last (map xf l) (xf x0) = xf (List.last l x0).
Proof.
  induction l as [|a l IH]; [reflexivity|].
  destruct l as [|b l]; [reflexivity|]. exact IH.
Qed.

(** EXP interpolation at one date: the interpolated log factor at the
    date's position on the x axis, turned into a rate over the term to
    the date moved into the curve's range. *)
Lemma interp_EXP_scalar curve c d e0 ends f0 fs xf :
  consistent pkg c ->
  Curve_bkp.interp_method curve = EXP ->
  end_dates curve = e0 :: ends ->
  log_factors curve = Some (f0 :: fs) ->
  (forall dates,
      run (if String.eqb (Curve_bkp.day_count curve) "BUS/252"
           then bdbetween pkg (Scalar (ref_date curve)) dates (Curve_bkp.cal curve)
           else ret (nd_map (fun d => d - ref_date curve) dates)) c
      = Ok (nd_map xf dates)) ->
  run (interp pkg curve (Scalar d)) c
  = let! y := np_interp1 (ndays curve) (f0 :: fs) (xf d) in
    run (__zc_f2r pkg curve (Scalar (fexp y))
           (Scalar (Z.max (Z.min d (List.last (e0 :: ends) e0)) e0))) c.
Proof.
  intros Hc Hexp Hends Hlog Hx. unfold interp, _normalize_dates.
  rewrite (run_bind pkg) by stable_all. rewrite Hx. cbn [bindR nd_map].
  rewrite Hexp.
  rewrite (run_bind pkg) by (unfold __zc_f2r; stable_all).
  unfold clamp_dates, last_end_date, first_end_date, last_of. rewrite Hends.
  cbn [run lift snd bindR]. rewrite Hlog.
  rewrite (run_bind pkg) by (unfold __zc_f2r; stable_all).
  cbn [run lift snd np_interp].
  destruct (np_interp1 (ndays curve) (f0 :: fs) (xf d)); reflexivity.
Qed.

(** The same for an array of dates ([np.where] twice). *)
Definition where_clamp (e0 en d : Z) : Z :=
  let d := if d <? e0 then e0 else d in
  if en <? d then en else d.

Lemma where_clamp_max_min (e0 en d : Z) :
  e0 <= en -> where_clamp e0 en d = Z.max (Z.min d en) e0.
Proof.
  intros Hle. unfold where_clamp.
  destruct (Z.ltb_spec d e0); destruct (Z.ltb_spec en e0);
    destruct (Z.ltb_spec en d); lia.
Qed.

Lemma interp_EXP_array curve c ds e0 ends f0 fs xf :
  consistent pkg c ->
  Curve_bkp.interp_method curve = EXP ->
  end_dates curve = e0 :: ends ->
  log_factors curve = Some (f0 :: fs) ->
  (forall dates,
      run (if String.eqb (Curve_bkp.day_count curve) "BUS/252"
           then bdbetween pkg (Scalar (ref_date curve)) dates (Curve_bkp.cal curve)
           else ret (nd_map (fun d => d - ref_date curve) dates)) c
      = Ok (nd_map xf dates)) ->
  run (interp pkg curve (Array ds)) c
  = let! ys := map_res (np_interp1 (ndays curve) (f0 :: fs)) (map xf ds) in
    run (__zc_f2r pkg curve (Array (map fexp ys))
           (Array (map (where_clamp e0 (List.last (e0 :: ends) e0)) ds))) c.
Proof.
  intros Hc Hexp Hends Hlog Hx. unfold interp, _normalize_dates.
  rewrite (run_bind pkg) by stable_all. rewrite Hx. cbn [bindR nd_map].
  rewrite Hexp.
  rewrite (run_bind pkg) by (unfold __zc_f2r; stable_all).
  unfold clamp_dates, last_end_date, first_end_date, last_of. rewrite Hends.
  cbn [run lift snd bindR]. rewrite Hlog.
  rewrite (run_bind pkg) by (unfold __zc_f2r; stable_all).
  cbn [run lift snd np_interp]. rewrite map_map.
  destruct (map_res (np_interp1 (ndays curve) (f0 :: fs)) (map xf ds)); reflexivity.
Qed.

Lemma map_res_ext {B C : Type} (f g : B -> res C) (l : list B) :
  (forall b, f b = g b) -> map_res f l = map_res g l.
Proof.
  intros Hfg. induction l as [|b l IH]; [reflexivity|].
  cbn [map_res]. now rewrite Hfg, IH.
Qed.

Lemma map_res_map {B B' C : Type} (f : B' -> res C) (g : B -> B') (l : list B) :
  map_res f (map g l) = map_res (fun b => f (g b)) l.
Proof.
  induction l as [|b l IH]; [reflexivity|]. cbn [map map_res]. now rewrite IH.
Qed.

End Construction.

(** C5.  For a curve built with EXP interpolation, a date strictly after
    the last end date gets the rate [interp] returns at the last end date
    itself, and a date strictly before the first end date gets the rate
    at the first end date; on an array of dates, [interp] returns what it
    returns on the array with every date moved to the nearest boundary. *)
Theorem interp_EXP_flat_outside {T : Type} {A : Arith T}
    (pkg : gmap string (list Z)) (start_dates end_dates : nd Z) (rates : nd T)
    (interp_method compounding day_count : string) (cal : option string)
    (c0 c : gmap string busdaycalendar) (curve : Curve T) :
  consistent pkg c0 ->
  run (__init__ pkg start_dates end_dates rates interp_method compounding day_count cal) c0
  = Ok curve ->
  Curve_bkp.interp_method curve = EXP ->
  consistent pkg c ->
  exists first last,
    first_end_date curve = Ok first
    /\ last_end_date curve = Ok last
    /\ (forall d,
          (last < d ->
           run (interp pkg curve (Scalar d)) c = run (interp pkg curve (Scalar last)) c)
          /\ (d < first ->
              run (interp pkg curve (Scalar d)) c
              = run (interp pkg curve (Scalar first)) c))
    /\ (forall ds,
          run (interp pkg curve (Array ds)) c
          = run (interp pkg curve
                   (Array (map (fun d => Z.max (Z.min d last) first) ds))) c).
Proof.
  intros Hc0 Hinit Hexp Hc.
  destruct (init_built pkg _ _ _ _ _ _ _ _ _ Hc0 Hinit)
    as [Hne Hsorted Hlen Hlog (xf & Hmono & Hnd & Hstrict & Hx)].
  specialize (Hlog Hexp).
  destruct (Curve_bkp.end_dates curve) as [|e0 ends] eqn:Hends; [congruence|].
  destruct (factors curve) as [|f0 fs] eqn:Hfs; [discriminate|].
  cbn [map] in Hlog.
  pose proof (head_le_last e0 e0 ends Hsorted) as Hfl.
  exists e0, (List.last (e0 :: ends) e0).
  unfold first_end_date, last_end_date, last_of. rewrite Hends.
  split; [reflexivity|]. split; [reflexivity|].
  assert (Hflen : length (map xf ends) = length (map flog fs)).
  { rewrite !length_map. simpl in Hlen. lia. }
  assert (Hlast : List.last (xf e0 :: map xf ends) (xf e0)
                  = xf (List.last (e0 :: ends) e0)).
  { apply (last_map xf (e0 :: ends) e0). }
  cbn [map] in Hnd, Hstrict. rewrite Hnd in Hstrict.
  assert (Hright : forall d, List.last (e0 :: ends) e0 <= d ->
            np_interp1 (xf e0 :: map xf ends) (flog f0 :: map flog fs) (xf d)
            = Ok (List.last (flog f0 :: map flog fs) (flog f0))).
  { intros d Hd. apply np_interp1_right; [assumption|assumption|].
    rewrite Hlast. apply Hmono. lia. }
  assert (Hleft : forall d, d <= e0 ->
            np_interp1 (xf e0 :: map xf ends) (flog f0 :: map flog fs) (xf d)
            = Ok (flog f0)).
  { intros d Hd. apply np_interp1_left; [assumption|assumption|].
    apply Hmono. lia. }
  split.
  - intros d. split; intros Hd.
    + rewrite (interp_EXP_scalar pkg curve c d e0 ends (flog f0) (map flog fs) xf)
        by (auto using Hx).
      rewrite (interp_EXP_scalar pkg curve c (List.last (e0 :: ends) e0) e0 ends
                 (flog f0) (map flog fs) xf) by (auto using Hx).
      rewrite Hnd, !Hright by lia.
      cbn [bindR]. do 3 f_equal. lia.
    + rewrite (interp_EXP_scalar pkg curve c d e0 ends (flog f0) (map flog fs) xf)
        by (auto using Hx).
      rewrite (interp_EXP_scalar pkg curve c e0 e0 ends
                 (flog f0) (map flog fs) xf) by (auto using Hx).
      rewrite Hnd, !Hleft by lia.
      cbn [bindR]. do 3 f_equal. lia.
  - intros ds.
    rewrite !(interp_EXP_array pkg curve c _ e0 ends (flog f0) (map flog fs) xf)
      by (auto using Hx).
    rewrite Hnd, !map_res_map, !map_map.
    set (clamp := fun d => Z.max (Z.min d (List.last (e0 :: ends) e0)) e0).
    rewrite (map_res_ext _ (fun d => np_interp1 (xf e0 :: map xf ends)
                                       (flog f0 :: map flog fs) (xf (clamp d)))).
    2:{ intros d. unfold clamp.
        destruct (Z.lt_ge_cases d e0) as [Hlo|Hlo].
        - rewrite !Hleft by lia. reflexivity.
        - destruct (Z.lt_ge_cases (List.last (e0 :: ends) e0) d) as [Hhi|Hhi].
          + rewrite !Hright by lia. reflexivity.
          + do 2 f_equal. lia. }
    assert (Hm : map (fun d => where_clamp e0 (List.last (e0 :: ends) e0) (clamp d)) ds
                 = map (where_clamp e0 (List.last (e0 :: ends) e0)) ds).
    { apply map_ext. intros d. unfold clamp.
      rewrite !where_clamp_max_min by assumption. lia. }
    unfold clamp in *. rewrite Hm. reflexivity.
Qed.

(** The bootstrap loop. *)
Section Bootstrap.

Context {T : Type} {A : Arith T}.
Variable pkg : gmap string (list Z).

Lemma calc_term_scalar c s e day_count cal term :
  consistent pkg c ->
  run (_calc_term pkg (Scalar s) (Scalar e) day_count cal) c = Ok term ->
  exists t, term = Scalar t.
Proof.
  intros Hc Hrun. unfold _calc_term, _normalize_dates in Hrun. cbv zeta in Hrun.
  destruct (negb (existsb (String.eqb (upper day_count)) _available_day_counts));
    [discriminate|].
  destruct (String.eqb (upper day_count) "BUS/252").
  - rewrite (run_bind pkg) in Hrun by stable_all.
    rewrite (run_bdbetween pkg) in Hrun by assumption.
    destruct (resolve pkg cal); [|discriminate].
    cbn in Hrun. injection Hrun as <-. eauto.
  - destruct (String.eqb (upper day_count) "ACT/ACT").
    + cbn in Hrun. injection Hrun as <-. eauto.
    + rewrite (run_bind pkg) in Hrun by stable_all.
      cbn [run lift snd broadcast2 bindR] in Hrun.
      destruct (String.eqb (upper day_count) "ACT/365");
        [cbn in Hrun; injection Hrun as <-; eauto|].
      destruct (String.eqb (upper day_count) "ACT/360");
        [cbn in Hrun; injection Hrun as <-; eauto|discriminate].
Qed.

Lemma rate2fct_scalar c r s e compounding day_count cal v :
  consistent pkg c ->
  run (rate2fct pkg (Scalar r) (Scalar s) (Scalar e) compounding day_count cal) c = Ok v ->
  exists t, v = Scalar t.
Proof.
  intros Hc Hrun. unfold rate2fct in Hrun.
  rewrite (run_bind pkg) in Hrun by stable_all.
  destruct (run (_calc_term pkg (Scalar s) (Scalar e) day_count cal) c) as [term|]
    eqn:Hterm; [|discriminate].
  destruct (calc_term_scalar _ _ _ _ _ _ Hc Hterm) as [t ->].
  cbn [bindR] in Hrun.
  destruct (negative_term (Scalar t)); [discriminate|]. cbv zeta in Hrun.
  repeat (match type of Hrun with
          | run (if ?b then _ else _) _ = _ => destruct b
          end;
          [cbn in Hrun; injection Hrun as <-; eauto|]).
  discriminate.
Qed.

(** The inner loop, as a fold over the indices it visits. *)
Definition fra_step (end_dates : list Z) (factors : list T) (start_i : Z)
    (acc : bool * T) (j : nat) : bool * T :=
  match end_dates !! j, factors !! j with
  | Some end_j, Some factor_j =>
      if end_j =? start_i then (true, fmul (snd acc) factor_j) else acc
  | _, _ => acc
  end.

Lemma find_fra_fold end_dates factors start_i i temp :
  find_fra end_dates factors start_i i temp
  = fold_left (fra_step end_dates factors start_i) (seq 0 i) (false, temp).
Proof. reflexivity. Qed.

Lemma fra_fold_no_match end_dates factors start_i js acc :
  (forall j, In j js -> end_dates !! j <> Some start_i) ->
  fold_left (fra_step end_dates factors start_i) js acc = acc.
Proof.
  revert acc. induction js as [|j js IH]; intros acc Hno; [reflexivity|].
  cbn [fold_left]. rewrite IH by (intros; apply Hno; now right).
  unfold fra_step. specialize (Hno j (or_introl eq_refl)).
  destruct (end_dates !! j) as [end_j|]; [|reflexivity].
  destruct (factors !! j); [|reflexivity].
  destruct (Z.eqb_spec end_j start_i); [congruence|reflexivity].
Qed.

Lemma find_fra_no_match end_dates factors start_i i temp :
  (forall j, (j < i)%nat -> end_dates !! j <> Some start_i) ->
  find_fra end_dates factors start_i i temp = (false, temp).
Proof.
  intros Hno. rewrite find_fra_fold. apply fra_fold_no_match.
  intros j Hj%in_seq. apply Hno. lia.
Qed.

Lemma find_fra_match end_dates factors start_i i j temp factor_j :
  NoDup end_dates -> (j < i)%nat ->
  end_dates !! j = Some start_i -> factors !! j = Some factor_j ->
  find_fra end_dates factors start_i i temp = (true, fmul temp factor_j).
Proof.
  intros Hnd Hj Hend Hfac. rewrite find_fra_fold.
  replace (seq 0 i) with (seq 0 j ++ j :: seq (S j) (i - S j))%list.
  2:{ change (j :: seq (S j) (i - S j)) with (seq (0 + j) (S (i - S j))).
      rewrite <- seq_app. f_equal. lia. }
  assert (Hother : forall k, k <> j -> end_dates !! k <> Some start_i).
  { intros k Hk Hkk. apply Hk. eapply NoDup_lookup; eauto. }
  rewrite fold_left_app. cbn [fold_left].
  rewrite (fra_fold_no_match _ _ _ (seq 0 j)).
  2:{ intros k Hk%in_seq. apply Hother. lia. }
  rewrite fra_fold_no_match.
  2:{ intros k Hk%in_seq. apply Hother. lia. }
  unfold fra_step. rewrite Hend, Hfac, Z.eqb_refl. reflexivity.
Qed.

Definition chain_error : exn := ValueError "Cannot calculate FRA's with given dates".

(** The errors of the checks that precede the bootstrap loop. *)
Definition validation_errors : list exn :=
  [ ValueError "start and end dates must have the same length";
    ValueError "end_dates and rates must have the same length";
    ValueError "end_dates must be sorted in ascending order";
    ValueError "end_dates must be all unique";
    ValueError "Dates given must have no repeated business days count";
    ValueError "interp_method parameter must be 'LIN' or 'EXP'" ].

(** The conversion of segment [k] alone fails with [e]. *)
Definition segment_conversion_fails (starts ends : list Z) (rates : list T)
    (compounding day_count : string) (cal : option string)
    (c : gmap string busdaycalendar) (k : nat) (e : exn) : Prop :=
  exists r_k s_k e_k,
    rates !! k = Some r_k /\ starts !! k = Some s_k /\ ends !! k = Some e_k
    /\ run (rate2fct pkg (Scalar r_k) (Scalar s_k) (Scalar e_k)
              compounding day_count cal) c = Error e.

Lemma run_segment_factor starts ends rates compounding day_count cal ref factors i c
    r_i s_i e_i :
  consistent pkg c ->
  rates !! i = Some r_i -> starts !! i = Some s_i -> ends !! i = Some e_i ->
  run (segment_factor pkg starts ends rates compounding day_count cal ref factors i) c
  = match run (rate2fct pkg (Scalar r_i) (Scalar s_i) (Scalar e_i)
                 compounding day_count cal) c with
    | Ok (Scalar t) =>
        if s_i =? ref then Ok t
        else
          let (found, t') := find_fra ends factors s_i i t in
          if negb found then Error chain_error else Ok t'
    | Ok (Array _) =>
        Error (TypeError "only size-1 arrays can be converted to Python scalars")
    | Error e => Error e
    end.
Proof.
  intros Hc Hr Hs He. unfold segment_factor. rewrite Hr, Hs, He.
  rewrite (run_bind pkg) by stable_all.
  destruct (run (rate2fct pkg (Scalar r_i) (Scalar s_i) (Scalar e_i)
                   compounding day_count cal) c) as [[t|l]|e]; cbn [bindR];
    [|reflexivity|reflexivity].
  destruct (s_i =? ref); [reflexivity|].
  destruct (find_fra ends factors s_i i t) as [[] t']; reflexivity.
Qed.

Lemma bootstrap_from_unresolvable starts ends rates compounding day_count cal ref c
    i start_i :
  consistent pkg c ->
  (forall k, (k <= i)%nat ->
     is_Some (rates !! k) /\ is_Some (starts !! k) /\ is_Some (ends !! k)) ->
  starts !! i = Some start_i -> start_i <> ref ->
  (forall j, (j < i)%nat -> ends !! j <> Some start_i) ->
  forall n a factors, (a <= i < a + n)%nat ->
  exists e,
    run (bootstrap_from pkg starts ends rates compounding day_count cal ref
           (seq a n) factors) c = Error e
    /\ (e = chain_error
        \/ exists k, (k <= i)%nat
             /\ segment_conversion_fails starts ends rates compounding day_count cal c k e).
Proof.
  intros Hc Hsome Hsi Hne Hno n.
  induction n as [|n IH]; intros a factors Ha; [lia|].
  cbn [seq bootstrap_from]. rewrite (run_bind pkg) by stable_all.
  destruct (Hsome a) as ([r_a Hr] & [s_a Hs] & [e_a He]); [lia|].
  rewrite (run_segment_factor _ _ _ _ _ _ _ _ _ _ r_a s_a e_a) by assumption.
  destruct (run (rate2fct pkg (Scalar r_a) (Scalar s_a) (Scalar e_a)
                   compounding day_count cal) c) as [v|e] eqn:Hconv.
  2:{ exists e. split; [reflexivity|]. right. exists a. split; [lia|].
      exists r_a, s_a, e_a. auto. }
  destruct (rate2fct_scalar _ _ _ _ _ _ _ _ Hc Hconv) as [t ->].
  destruct (Nat.eq_dec a i) as [->|Hai].
  - assert (s_a = start_i) as -> by congruence.
    destruct (Z.eqb_spec start_i ref); [contradiction|].
    rewrite (find_fra_no_match _ _ _ _ _ Hno). cbn.
    exists chain_error. auto.
  - destruct (s_a =? ref).
    + cbn [bindR]. apply IH. lia.
    + destruct (find_fra ends factors s_a a t) as [[] t'].
      * cbn [negb bindR]. apply IH. lia.
      * cbn. exists chain_error. auto.
Qed.

Lemma bootstrap_from_ok starts ends rates compounding day_count cal ref c n :
  consistent pkg c ->
  forall a factors fs, length factors = a ->
  run (bootstrap_from pkg starts ends rates compounding day_count cal ref
         (seq a n) factors) c = Ok fs ->
  take a fs = factors
  /\ forall k, (a <= k < a + n)%nat ->
       exists f_k, fs !! k = Some f_k
         /\ run (segment_factor pkg starts ends rates compounding day_count cal ref
                   (take k fs) k) c = Ok f_k.
Proof.
  intros Hc. induction n as [|n IH]; intros a factors fs Hlen Hrun.
  - cbn in Hrun. injection Hrun as <-. split; [|intros; lia].
    rewrite <- Hlen. apply firstn_all.
  - cbn [seq bootstrap_from] in Hrun. rewrite (run_bind pkg) in Hrun by stable_all.
    destruct (run (segment_factor pkg starts ends rates compounding day_count cal ref
                     factors a) c) as [f|e] eqn:Hseg; [|discriminate].
    cbn [bindR] in Hrun.
    destruct (IH (S a) (factors ++ [f])%list fs) as [Htake Hrest];
      [rewrite length_app; simpl; lia|exact Hrun|].
    assert (Htake_a : take a fs = factors).
    { replace (take a fs) with (take a (take (S a) fs))
        by (rewrite take_take; f_equal; lia).
      rewrite Htake, <- Hlen. apply take_app_length. }
    split; [exact Htake_a|].
    intros k Hk. destruct (Nat.eq_dec k a) as [->|Hka].
    + exists f. rewrite Htake_a. split; [|exact Hseg].
      rewrite <- (lookup_take_lt fs (S a) a) by lia. rewrite Htake.
      now apply list_lookup_middle.
    + apply Hrest. lia.
Qed.

End Bootstrap.


(** Evaluation of a closed example in exact arithmetic: everything is
    computed except the real-number operations, and each comparison of
    two real constants is settled by [lra]. *)
Ltac eval_exact :=
  repeat (cbv -[Rltb IZR Rdiv Rplus Rmult Rminus Rinv Ropp ln exp Rpower];
          try match goal with
              | |- context [Rltb ?x ?y] =>
                  first [ rewrite (Rltb_false x y) by lra
                        | rewrite (Rltb_true x y) by lra ]
              end).

(** A one-segment curve: 5% LINEAR ACT/360 from day 0 to day 360, EXP
    interpolation. *)
Lemma interp_EXP_flat_witness :
  exists curve,
    run (__init__ (A := exact) ∅ (Scalar 0) (Array [360]) (Array [(5 / 100)%R])
           "EXP" "LINEAR" "ACT/360" None) ∅ = Ok curve
    /\ run (interp (A := exact) ∅ curve (Scalar 400)) ∅
       = run (interp (A := exact) ∅ curve (Scalar 360)) ∅.
Proof.
  assert (Hinit :
    exists curve,
      run (__init__ (A := exact) ∅ (Scalar 0) (Array [360]) (Array [(5 / 100)%R])
             "EXP" "LINEAR" "ACT/360" None) ∅ = Ok curve
      /\ Curve_bkp.interp_method curve = EXP
      /\ last_end_date curve = Ok 360).
  { eexists. split; [|split].
    - eval_exact. reflexivity.
    - reflexivity.
    - reflexivity. }
  destruct Hinit as (curve & Hinit & Hexp & Hlast).
  exists curve. split; [exact Hinit|].
  destruct (interp_EXP_flat_outside ∅ _ _ _ _ _ _ _ ∅ ∅ curve
              (consistent_empty ∅) Hinit Hexp (consistent_empty ∅))
    as (first & last & _ & Hl & Hflat & _).
  rewrite Hlast in Hl. injection Hl as <-.
  apply (Hflat 400). lia.
Defined.



(** [fct2rate(rate2fct(r, s, e, ...), s, e, ...)] *)
Definition roundtrip {T : Type} {A : Arith T} (pkg : gmap string (list Z))
    (r : T) (s e : Z) (compounding day_count : string) (cal : option string)
  : M (nd T) :=
  bind (rate2fct pkg (Scalar r) (Scalar s) (Scalar e) compounding day_count cal)
    (fun f => fct2rate pkg f (Scalar s) (Scalar e) compounding day_count cal).

(** [abs(x - y) <= tol] on binary64 values. *)
Definition within (tol x y : float) : bool :=
  PrimFloat.leb (PrimFloat.abs (PrimFloat.sub x y)) tol.



(** At a zero term (start and end on the same day) [rate2fct] accepts the
    input and returns the factor 1, and [fct2rate] then divides by zero:
    under LINEAR compounding the round trip is NaN in binary64, whatever
    the platform's pow, exp and log are. *)
Lemma roundtrip_zero_term_LINEAR (L : Libm) :
  run (rate2fct (A := binary64 L) ∅ (Scalar 0.05%float) (Scalar 18262) (Scalar 18262)
         "LINEAR" "ACT/360" None) ∅ = Ok (Scalar 1%float)
  /\ run (roundtrip (A := binary64 L) ∅ 0.05%float 18262 18262 "LINEAR" "ACT/360" None) ∅
     = Ok (Scalar PrimFloat.nan).
Proof. split; vm_compute; reflexivity. Qed.


(** A curve that was constructed has at least one segment, strictly
    increasing end dates, one zero-coupon factor per end date and a
    strictly increasing interpolation axis [ndays]. *)
Theorem curve_construction_invariants {T : Type} {A : Arith T}
    (pkg : gmap string (list Z)) (start_dates end_dates : nd Z) (rates : nd T)
    (interp_method compounding day_count : string) (cal : option string)
    (c0 : gmap string busdaycalendar) (curve : Curve T) :
  consistent pkg c0 ->
  run (__init__ pkg start_dates end_dates rates interp_method compounding day_count cal) c0
  = Ok curve ->
  Curve_bkp.end_dates curve <> []
  /\ StronglySorted Z.lt (Curve_bkp.end_dates curve)
  /\ length (factors curve) = length (Curve_bkp.end_dates curve)
  /\ StronglySorted Z.lt (ndays curve).
Proof.
  intros Hc0 Hinit.
  destruct (init_built pkg _ _ _ _ _ _ _ _ _ Hc0 Hinit)
    as [Hne Hsorted Hlen _ (xf & _ & _ & Hstrict & _)].
  auto.
Qed.

Lemma curve_construction_invariants_witness :
  exists curve,
    run (__init__ (A := exact) ∅ (Array [0; 360]) (Array [360; 720])
           (Array [(5 / 100)%R; (6 / 100)%R]) "LIN" "LINEAR" "ACT/360" None) ∅
    = Ok curve
    /\ StronglySorted Z.lt (ndays curve).
Proof.
  assert (Hinit :
    exists curve,
      run (__init__ (A := exact) ∅ (Array [0; 360]) (Array [360; 720])
             (Array [(5 / 100)%R; (6 / 100)%R]) "LIN" "LINEAR" "ACT/360" None) ∅
      = Ok curve).
  { eexists. eval_exact. reflexivity. }
  destruct Hinit as (curve & Hinit).
  exists curve. split; [exact Hinit|].
  apply (curve_construction_invariants ∅ _ _ _ _ _ _ _ ∅ curve
           (consistent_empty ∅) Hinit).
Defined.

(** End dates that are not in ascending order are refused with the
    ValueError of that check, whatever the other arguments, once the
    three arrays have one length. *)
Theorem unsorted_end_dates_rejected {T : Type} {A : Arith T}
    (pkg : gmap string (list Z)) (start_dates end_dates : list Z) (rates : list T)
    (interp_method compounding day_count : string) (cal : option string)
    (c : gmap string busdaycalendar) :
  length start_dates = length end_dates ->
  length end_dates = length rates ->
  np_sort end_dates <> end_dates ->
  run (__init__ pkg (Array start_dates) (Array end_dates) (Array rates)
         interp_method compounding day_count cal) c
  = Error (ValueError "end_dates must be sorted in ascending order").
Proof.
  intros Hse Her Hunsorted. unfold __init__, _normalize_dates.
  rewrite Hse, Her, !Nat.eqb_refl. cbn [negb].
  unfold np_array_equal. rewrite bool_decide_eq_false_2 by exact Hunsorted.
  reflexivity.
Qed.

Lemma unsorted_end_dates_rejected_witness :
  run (__init__ (A := exact) ∅ (Array [0; 0]) (Array [720; 360])
         (Array [(5 / 100)%R; (6 / 100)%R]) "LIN" "LINEAR" "ACT/360" None) ∅
  = Error (ValueError "end_dates must be sorted in ascending order").
Proof.
  apply (unsorted_end_dates_rejected (A := exact)); [reflexivity|reflexivity|].
  vm_compute. discriminate.
Defined.

End CurveFacts.

(** ** Labels *)

Module LabelFacts.
Import Label.

(** The entry of a unit in the letter map ([0] when absent). *)
Definition units (l : Label) (unit : string) : Z :=
  default 0 (_letter_map l !! unit).

Lemma init_dc_count (s : string) (l : Label) :
  __init__ s = Ok l ->
  _dc_count l = units l "D" + 7 * units l "W" + 30 * units l "M" + 360 * units l "Y".
Proof.
  unfold __init__. cbv zeta.
  repeat match goal with
         | |- (if ?b then _ else _) = _ -> _ => destruct b; [discriminate|]
         | |- match ?x with _ => _ end = _ -> _ => destruct x; [discriminate|]
         end.
  intros [= <-]. unfold units. cbn [_dc_count _letter_map map fold_left fst snd]. lia.
Qed.

(** C8.  The comparison operators read nothing but the day-count key
    (D + 7 W + 30 M + 360 Y), so Label('1W') == Label('7D'), both of key
    7; the hash is the hash of the text ['<Label ...>'], so the two hashes
    agree only if the string hash collides on the two different texts,
    and differ for every string hash that tells texts apart. *)
Theorem eq_by_key_hash_by_text (str_hash : string -> Z) :
  (forall a b,
      __eq__ a (PyLabel b) = Ok (_dc_count a =? _dc_count b)
      /\ __ne__ a (PyLabel b) = Ok (negb (_dc_count a =? _dc_count b))
      /\ __le__ a (PyLabel b) = Ok (_dc_count a <=? _dc_count b)
      /\ __lt__ a (PyLabel b) = Ok (_dc_count a <? _dc_count b)
      /\ __gt__ a (PyLabel b) = Ok (_dc_count b <? _dc_count a)
      /\ __ge__ a (PyLabel b) = Ok (_dc_count b <=? _dc_count a))
  /\ (forall s l, __init__ s = Ok l ->
        _dc_count l
        = units l "D" + 7 * units l "W" + 30 * units l "M" + 360 * units l "Y")
  /\ exists w d,
       new (PyStr "1W") = Ok w /\ new (PyStr "7D") = Ok d
       /\ dc_count w = 7 /\ dc_count d = 7
       /\ __eq__ w (PyLabel d) = Ok true
       /\ __repr__ w = "<Label 1W>" /\ __repr__ d = "<Label 7D>"
       /\ (__hash__ str_hash w = __hash__ str_hash d
           <-> str_hash "<Label 1W>" = str_hash "<Label 7D>")
       /\ ((forall s t, str_hash s = str_hash t -> s = t) ->
           __hash__ str_hash w <> __hash__ str_hash d).
Proof.
  split; [|split].
  - intros a b. unfold __ne__, __lt__, __gt__, __ge__, __ne__, __le__, __eq__.
    cbn [bindR].
    destruct (Z.leb_spec (_dc_count a) (_dc_count b)),
             (Z.eqb_spec (_dc_count a) (_dc_count b)),
             (Z.ltb_spec (_dc_count a) (_dc_count b)),
             (Z.ltb_spec (_dc_count b) (_dc_count a)),
             (Z.leb_spec (_dc_count b) (_dc_count a));
      cbn; repeat split; reflexivity || lia.
  - apply init_dc_count.
  - destruct (__init__ "1W") as [w|] eqn:Hw; [|vm_compute in Hw; discriminate].
    destruct (__init__ "7D") as [d|] eqn:Hd; [|vm_compute in Hd; discriminate].
    assert (Hw' : _label w = "1W" /\ _dc_count w = 7).
    { vm_compute in Hw. injection Hw as <-. split; reflexivity. }
    assert (Hd' : _label d = "7D" /\ _dc_count d = 7).
    { vm_compute in Hd. injection Hd as <-. split; reflexivity. }
    destruct Hw' as [Hwl Hwk], Hd' as [Hdl Hdk].
    exists w, d. cbn [new]. rewrite Hw, Hd.
    unfold dc_count, __eq__, __hash__, __repr__, label. rewrite Hwl, Hdl, Hwk, Hdk.
    repeat split; try reflexivity; try tauto.
    intros Hinj Heq. apply Hinj in Heq. discriminate.
Qed.

(** C9.  Calling the class on an existing Label object returns that very
    object: [__new__] allocates nothing and hands the argument back,
    [__init__] returns without a check, the heap is as before and no
    exception is raised. *)
Theorem call_on_Label_returns_it (h : heap) (address : nat) :
  is_Some (h !! address) ->
  __new__ h [VRef address] [] = (h, address)
  /\ init_object h address (VRef address) = (h, Ok tt)
  /\ call h [VRef address] [] = (h, Ok address).
Proof.
  intros Hsome.
  assert (Hinst : isinstance_Label h (VRef address) = true).
  { unfold isinstance_Label. now apply bool_decide_eq_true. }
  assert (Hnew : __new__ h [VRef address] [] = (h, address)).
  { unfold __new__. now rewrite Hinst. }
  assert (Hinit : init_object h address (VRef address) = (h, Ok tt)).
  { unfold init_object. now rewrite Hinst. }
  split; [exact Hnew|]. split; [exact Hinit|].
  unfold call. rewrite Hnew. cbn [bind_label]. now rewrite Hinit.
Qed.

(** The object made by [Label('1W')] on an empty heap, then the class
    called on it. *)
Lemma call_on_Label_witness :
  let h := fst (call [] [VStr "1W"] []) in
  call h [VRef 0%nat] [] = (h, Ok 0%nat).
Proof.
  cbv zeta.
  apply (call_on_Label_returns_it (fst (call [] [VStr "1W"] [])) 0%nat).
  vm_compute. eauto.
Defined.

(** The inputs of tests/test_label.py. *)
Definition valid_inputs : list string :=
  [
    "3M"; "1D"; "1Y1M1W1D"; "5Y"; "1004Y90M"; "80M"; "365W1D"; "700D";
    "999999Y1M3D"; "90Y7W2D"; "1M600W10D"; "7W4D"; "5Y3W"; "333333Y1D";
    "8W"; "9000W"; "1M8000D"; "9Y10M11W12D"; "9Y9W"; "54D"; "8Y1M"; "999D";
    "7W9D"; "0Y"; "0M"; "0W"; "0D"; "9Y0D"
  ].

Definition invalid_inputs : list string :=
  [
    "-7W0D"; "1D2W"; "2W400M"; "-1Y"; "-999D"; "90D1Y"; "BAY"; "1D0W";
    "AY"; "1W6Y"; "1M1M1M1M1M1M"; "5Y6Y"; "4D3D"; "40M40M"; "7W7W7W";
    "0D0D"; "ALFABET"; "NOMATCH"; "INVALID"; "VALID"; "Y"; "M"; "W"; "D";
    "YYYY"; "Y6M"; "M5D"; "6y7y"; EmptyString; "6.7Y"; "8.9M3.8D"; "  9Y";
    "9Y  "; " 4M 3D"; "9M    1W 1D"; "   1"; "32"; "0.6"; "0.0D"; "1d";
    "-1D"; "-0Y"; "+2W"; "10 D"; "9 Y"
  ].

(** Label text, expected day count, expected letter map as (Y, M, W, D). *)
Definition day_count_table : list (string * Z * (Z * Z * Z * Z)) :=
  [
    ("1D", 1, (0, 0, 0, 1)); ("1W", 7, (0, 0, 1, 0));
    ("1M", 30, (0, 1, 0, 0)); ("1Y", 360, (1, 0, 0, 0));
    ("1Y1M", 390, (1, 1, 0, 0)); ("1Y1D", 361, (1, 0, 0, 1));
    ("10Y", 3600, (10, 0, 0, 0)); ("1032D", 1032, (0, 0, 0, 1032));
    ("7W", 49, (0, 0, 7, 0)); ("10M", 300, (0, 10, 0, 0));
    ("1M2W", 44, (0, 1, 2, 0)); ("10Y2W", 3614, (10, 0, 2, 0));
    ("1Y1W1D", 368, (1, 0, 1, 1)); ("2Y1M1W1D", 758, (2, 1, 1, 1))
  ].

Definition raises_ValueError {B : Type} (r : res B) : bool :=
  match r with
  | Error e => is_ValueError e
  | Ok _ => false
  end.

Definition has_day_count (row : string * Z * (Z * Z * Z * Z)) : bool :=
  match row, new (PyStr (fst (fst row))) with
  | (_, dc, (y, m, w, d)), Ok l =>
      (dc_count l =? dc)
      && bool_decide (letter_map l
                      = <["Y" := y]> (<["M" := m]> (<["W" := w]> (<["D" := d]> ∅))))
  | _, Error _ => false
  end.


End LabelFacts.

(** ** Buckets *)

Module BucketFacts.
Import Bucket.

Local Open Scope float_scope.

Definition strs (labels : list string) : list Label.pyobj := map Label.PyStr labels.

Lemma map_res_length {B C : Type} (f : B -> res C) (l : list B) (l' : list C) :
  map_res f l = Ok l' -> length l' = length l.
Proof.
  revert l'. induction l as [|b l IH]; intros l' H; cbn in H.
  - now injection H as <-.
  - destruct (f b); [|discriminate]. cbn in H.
    destruct (map_res f l) as [cs|]; [|discriminate]. cbn in H.
    injection H as <-. simpl. now rewrite (IH cs).
Qed.

Lemma zip_with_same_length {B C D : Type} (f : B -> C -> D) (l : list B) (k : list C) :
  length l = length k -> length (zip_with_same f l k) = length l.
Proof.
  revert k. induction l as [|b l IH]; intros [|c k] H; try discriminate; [reflexivity|].
  simpl in *. now rewrite IH by lia.
Qed.

Lemma zip_repeat_snd {B C : Type} (l : list B) (c : C) :
  map snd (zip_with_same pair l (repeat c (length l))) = repeat c (length l).
Proof. induction l as [|b l IH]; simpl; [reflexivity|]. now rewrite IH. Qed.

Lemma insert_entry_values (P : float -> Prop) x l :
  P (snd x) -> Forall P (map snd l) -> Forall P (map snd (insert_entry x l)).
Proof.
  intros Hx. induction l as [|y l IH]; simpl; intros Hl.
  - constructor; [assumption|constructor].
  - destruct (Label._dc_count (fst x) <=? Label._dc_count (fst y))%Z; simpl.
    + constructor; assumption.
    + apply Forall_cons in Hl as [Hy Hl]. constructor; auto.
Qed.

Lemma insert_entry_length x l : length (insert_entry x l) = S (length l).
Proof.
  induction l as [|y l IH]; simpl; [reflexivity|].
  destruct (Label._dc_count (fst x) <=? Label._dc_count (fst y))%Z; simpl; lia.
Qed.

Lemma sort_index_values (P : float -> Prop) l :
  Forall P (map snd l) -> Forall P (map snd (sort_index l)).
Proof.
  unfold sort_index. induction l as [|x l IH]; simpl; intros Hl; [constructor|].
  apply Forall_cons in Hl as [Hx Hl]. apply insert_entry_values; auto.
Qed.

Lemma sort_index_length l : length (sort_index l) = length l.
Proof.
  unfold sort_index. induction l as [|x l IH]; simpl; [reflexivity|].
  now rewrite insert_entry_length, IH.
Qed.

Lemma existsb_all (P : float -> bool) (l : list float) :
  l <> [] -> Forall (fun v => P v = true) l -> existsb P l = true.
Proof.
  intros Hne Hall. destruct l as [|v l]; [congruence|].
  apply Forall_cons in Hall as [Hv _]. simpl. now rewrite Hv.
Qed.

(** C10 (as amended).  A Bucket built without values holds NaN for every
    label; if it has at least one label, [distribute_values] fails on it
    with the ValueError of the NaN guard, whatever the target labels and
    [return_bucket] are. *)
Theorem no_values_all_NaN (labels : list Label.pyobj) (b : Bucket) :
  __init__ labels None = Ok b ->
  Forall (fun v => PrimFloat.is_nan v = true) (values b)
  /\ length (values b) = length labels
  /\ (labels <> [] ->
      forall verts return_bucket,
        distribute_values b verts return_bucket
        = Error (ValueError "Can't distribute NaN values")).
Proof.
  unfold __init__. destruct (map_res Label.new labels) as [ix|] eqn:Hix; [|discriminate].
  cbn [bindR]. destruct (negb (equals ix (unique ix))); [discriminate|].
  cbn [bindR]. intros [= <-]. cbn [values].
  apply map_res_length in Hix.
  assert (Hall : Forall (fun v => PrimFloat.is_nan v = true)
                   (map snd (sort_index (zip_with_same pair ix
                                           (repeat PrimFloat.nan (length ix)))))).
  { apply sort_index_values. rewrite zip_repeat_snd.
    apply Forall_forall. intros v Hv%list_elem_of_In%repeat_spec. now subst v. }
  assert (Hlen : length (map snd (sort_index (zip_with_same pair ix
                                                (repeat PrimFloat.nan (length ix)))))
                 = length labels).
  { rewrite length_map, sort_index_length, zip_with_same_length;
      [assumption|now rewrite repeat_length]. }
  split; [exact Hall|]. split; [exact Hlen|].
  intros Hne verts return_bucket. unfold distribute_values. cbn [values].
  rewrite existsb_all; [reflexivity| |exact Hall].
  intros Hnil. rewrite Hnil in Hlen. destruct labels; [congruence|discriminate].
Qed.

Lemma no_values_witness :
  exists b,
    __init__ (strs ["1Y"; "3Y"]) None = Ok b
    /\ distribute_values b (strs ["2Y"]) false
       = Error (ValueError "Can't distribute NaN values").
Proof.
  destruct (__init__ (strs ["1Y"; "3Y"]) None) as [b|] eqn:Hb;
    [|vm_compute in Hb; discriminate].
  exists b. split; [reflexivity|].
  apply (no_values_all_NaN (strs ["1Y"; "3Y"]) b Hb). discriminate.
Defined.

(** A Bucket of no labels at all has no NaN to find: the guard passes and
    [distribute_values] returns zeros. *)
Lemma empty_bucket_distributes :
  exists b,
    __init__ [] None = Ok b
    /\ distribute_values b (strs ["1Y"]) false = Ok (AsArray [0]).
Proof.
  eexists. split; [vm_compute; reflexivity|]. vm_compute. reflexivity.
Qed.


(** C4, on target grids that are not in ascending order.  The search
    takes the last target not above the key and the first target not
    below it, in the order given: the key 390 ('1Y1M') on the grid
    ['3Y','2Y'] goes entirely to '3Y' although '2Y' is nearer, and the
    key 360 ('1Y') on the grid ['2Y','1Y'] fails the assertion on the
    left share. *)
Theorem distribute_values_unsorted_grid :
  (exists b,
      __init__ (strs ["1Y1M"]) (Some [100]) = Ok b
      /\ find_closest [1080; 720]%Z 390 = Ok (None, Some 1080%Z)
      /\ distribute_values b (strs ["3Y"; "2Y"]) false = Ok (AsArray [100; 0]))
  /\ (exists b,
        __init__ (strs ["1Y"]) (Some [100]) = Ok b
        /\ find_closest [720; 360]%Z 360 = Ok (Some 360%Z, Some 720%Z)
        /\ distribute_values b (strs ["2Y"; "1Y"]) false = Error (AssertionError "")).
Proof.
  split; eexists; (split; [vm_compute; reflexivity|]);
    split; vm_compute; reflexivity.
Qed.

(** [next(dropwhile(pred, it))] is the first element that fails [pred]. *)
Lemma next_dropwhile_spec (pred : Z -> bool) (it : list Z) :
  match next_dropwhile pred it with
  | Some x => exists l1 l2, it = (l1 ++ x :: l2)%list
                            /\ Forall (fun y => pred y = true) l1 /\ pred x = false
  | None => Forall (fun y => pred y = true) it
  end.
Proof.
  induction it as [|y it IH]; cbn [next_dropwhile]; [constructor|].
  destruct (pred y) eqn:Hy.
  - destruct (next_dropwhile pred it) as [x|].
    + destruct IH as (l1 & l2 & -> & Hall & Hx).
      exists (y :: l1), l2. split; [reflexivity|]. split; [now constructor|exact Hx].
    + now constructor.
  - exists [], it. split; [reflexivity|]. split; [constructor|exact Hy].
Qed.

Lemma sorted_middle (l1 l2 : list Z) (x : Z) :
  StronglySorted Z.lt (l1 ++ x :: l2) ->
  Forall (fun y => y < x)%Z l1 /\ Forall (fun y => x < y)%Z l2.
Proof.
  induction l1 as [|a l1 IH]; cbn [app]; intros Hs.
  - split; [constructor|]. now apply StronglySorted_inv in Hs.
  - apply StronglySorted_inv in Hs. destruct Hs as [Hs Ha].
    destruct (IH Hs) as [H1 H2]. split; [|exact H2].
    constructor; [|exact H1].
    rewrite List.Forall_forall in Ha. apply Ha. apply in_elt.
Qed.

Lemma right_neighbour (to_ndays : list Z) (nd : Z) :
  StronglySorted Z.lt to_ndays ->
  match next_dropwhile (fun to_nd => (to_nd <? nd)%Z) to_ndays with
  | Some x => In x to_ndays /\ (nd <= x)%Z
              /\ forall y, In y to_ndays -> (nd <= y)%Z -> (x <= y)%Z
  | None => forall y, In y to_ndays -> (y < nd)%Z
  end.
Proof.
  intros Hs.
  pose proof (next_dropwhile_spec (fun to_nd => (to_nd <? nd)%Z) to_ndays) as Hr.
  destruct (next_dropwhile _ to_ndays) as [x|].
  - destruct Hr as (l1 & l2 & Heq & Hall & Hx).
    rewrite Heq in Hs. destruct (sorted_middle _ _ _ Hs) as [Hlo Hhi].
    rewrite List.Forall_forall in Hall, Hlo, Hhi.
    split; [rewrite Heq; apply in_elt|]. split; [lia|].
    intros y Hy Hle. rewrite Heq in Hy.
    apply in_app_or in Hy. destruct Hy as [Hy|[<-|Hy]].
    + specialize (Hall y Hy). cbn beta in Hall. lia.
    + lia.
    + specialize (Hhi y Hy). lia.
  - rewrite List.Forall_forall in Hr. intros y Hy.
    specialize (Hr y Hy). cbn beta in Hr. lia.
Qed.

Lemma left_neighbour (to_ndays : list Z) (nd : Z) :
  StronglySorted Z.lt to_ndays ->
  match next_dropwhile (fun to_nd => (nd <? to_nd)%Z) (rev to_ndays) with
  | Some x => In x to_ndays /\ (x <= nd)%Z
              /\ forall y, In y to_ndays -> (y <= nd)%Z -> (y <= x)%Z
  | None => forall y, In y to_ndays -> (nd < y)%Z
  end.
Proof.
  intros Hs.
  pose proof (next_dropwhile_spec (fun to_nd => (nd <? to_nd)%Z) (rev to_ndays)) as Hl.
  destruct (next_dropwhile _ (rev to_ndays)) as [x|].
  - destruct Hl as (l1 & l2 & Hrev & Hall & Hx).
    apply (f_equal (@rev Z)) in Hrev.
    rewrite rev_involutive, rev_app_distr in Hrev. cbn [rev] in Hrev.
    rewrite <- app_assoc in Hrev. cbn [app] in Hrev.
    rewrite Hrev in Hs. destruct (sorted_middle _ _ _ Hs) as [Hlo Hhi].
    rewrite List.Forall_forall in Hall, Hlo, Hhi.
    split; [rewrite Hrev; apply in_elt|]. split; [lia|].
    intros y Hy Hle. rewrite Hrev in Hy.
    apply in_app_or in Hy. destruct Hy as [Hy|[<-|Hy]].
    + specialize (Hlo y Hy). lia.
    + lia.
    + apply in_rev in Hy. specialize (Hall y Hy). cbn beta in Hall. lia.
  - rewrite List.Forall_forall in Hl. intros y Hy. apply in_rev in Hy.
    specialize (Hl y Hy). cbn beta in Hl. lia.
Qed.

(** On a grid in strictly ascending order, [find_closest] returns the
    nearest grid points on either side of [nd]: the greatest one at or
    below it and the least one at or above it, and [None] on a side where
    the grid has no point. *)
Theorem find_closest_ascending (to_ndays : list Z) (nd : Z) :
  StronglySorted Z.lt to_ndays -> to_ndays <> [] ->
  exists left right,
    find_closest to_ndays nd = Ok (left, right)
    /\ match left with
       | Some x => In x to_ndays /\ (x <= nd)%Z
                   /\ forall y, In y to_ndays -> (y <= nd)%Z -> (y <= x)%Z
       | None => forall y, In y to_ndays -> (nd < y)%Z
       end
    /\ match right with
       | Some x => In x to_ndays /\ (nd <= x)%Z
                   /\ forall y, In y to_ndays -> (nd <= y)%Z -> (x <= y)%Z
       | None => forall y, In y to_ndays -> (y < nd)%Z
       end.
Proof.
  intros Hs Hne. unfold find_closest.
  pose proof (left_neighbour to_ndays nd Hs) as Hl.
  pose proof (right_neighbour to_ndays nd Hs) as Hr.
  destruct (next_dropwhile _ (rev to_ndays)) as [xl|];
    destruct (next_dropwhile _ to_ndays) as [xr|].
  1-3: eexists _, _; split; [reflexivity|]; split; assumption.
  exfalso. destruct to_ndays as [|y l]; [congruence|].
  specialize (Hl y (or_introl eq_refl)). specialize (Hr y (or_introl eq_refl)). lia.
Qed.

(** The grid 1Y, 2Y, 3Y and the key of 1Y1M. *)
Lemma find_closest_ascending_witness :
  exists left right,
    find_closest [360; 720; 1080]%Z 390 = Ok (left, right)
    /\ match left with
       | Some x => In x [360; 720; 1080]%Z /\ (x <= 390)%Z
                   /\ forall y, In y [360; 720; 1080]%Z -> (y <= 390)%Z -> (y <= x)%Z
       | None => forall y, In y [360; 720; 1080]%Z -> (390 < y)%Z
       end
    /\ match right with
       | Some x => In x [360; 720; 1080]%Z /\ (390 <= x)%Z
                   /\ forall y, In y [360; 720; 1080]%Z -> (390 <= y)%Z -> (x <= y)%Z
       | None => forall y, In y [360; 720; 1080]%Z -> (y < 390)%Z
       end.
Proof.
  apply (find_closest_ascending [360; 720; 1080]%Z 390%Z).
  - repeat constructor.
  - discriminate.
Defined.

End BucketFacts.

(** ** Words of a string *)

Module SplitFacts.

(** Words of [str.split()]. *)
Definition no_space (c : ascii) : Prop := is_space c = false.

Lemma split_from_no_space (cs cur : list ascii) :
  Forall no_space cs ->
  split_from cs cur
  = match (rev cur ++ cs)%list with
    | [] => []
    | w => [string_of_list_ascii w]
    end.
Proof.
  revert cur. induction cs as [|c cs IH]; intros cur Hall.
  - cbn [split_from]. rewrite app_nil_r.
    destruct cur as [|a cur]; [reflexivity|].
    destruct (rev (a :: cur)) eqn:Hrev; [|reflexivity].
    apply (f_equal (@length ascii)) in Hrev. rewrite length_rev in Hrev. discriminate.
  - apply Forall_cons in Hall as [Hc Hall]. cbn [split_from].
    unfold no_space in Hc. rewrite Hc. rewrite IH by assumption.
    cbn [rev]. rewrite <- app_assoc. reflexivity.
Qed.

Lemma split_word (w : string) :
  w <> EmptyString -> Forall no_space (list_ascii_of_string w) -> split w = [w].
Proof.
  intros Hne Hall. unfold split. rewrite split_from_no_space by assumption.
  cbn [rev app]. destruct (list_ascii_of_string w) eqn:Hw.
  - destruct w; [congruence|discriminate].
  - rewrite <- Hw, string_of_list_ascii_of_string. reflexivity.
Qed.

Lemma split_from_blank (cs : list ascii) :
  forallb is_space cs = true -> split_from cs [] = [].
Proof.
  induction cs as [|c cs IH]; [reflexivity|].
  cbn [forallb split_from]. intros [Hc Hcs]%andb_prop. rewrite Hc. auto.
Qed.

(** Each word has a character, none of them blank, and every character
    of a word is one of the text. *)
Lemma split_from_words (P : ascii -> Prop) (cs cur : list ascii) :
  Forall P cs -> Forall P cur -> Forall no_space cur ->
  Forall (fun w => w <> EmptyString
                   /\ Forall no_space (list_ascii_of_string w)
                   /\ Forall P (list_ascii_of_string w))
    (split_from cs cur).
Proof.
  assert (Hword : forall cur, cur <> [] -> Forall P cur -> Forall no_space cur ->
            string_of_list_ascii (rev cur) <> EmptyString
            /\ Forall no_space (list_ascii_of_string (string_of_list_ascii (rev cur)))
            /\ Forall P (list_ascii_of_string (string_of_list_ascii (rev cur)))).
  { clear cur. intros cur Hne HP Hns. rewrite list_ascii_of_string_of_list_ascii.
    split; [|split]; [|now apply Forall_rev|now apply Forall_rev].
    intros Heq. apply (f_equal list_ascii_of_string) in Heq.
    rewrite list_ascii_of_string_of_list_ascii in Heq. cbn in Heq.
    apply (f_equal (@length ascii)) in Heq. rewrite length_rev in Heq.
    destruct cur; [congruence|discriminate]. }
  intros Hcs. revert cur. induction cs as [|c cs IH]; intros cur HP Hns; cbn [split_from].
  - destruct cur as [|a cur]; [constructor|].
    constructor; [|constructor]. now apply Hword.
  - apply Forall_cons in Hcs as [Hc Hcs].
    destruct (is_space c) eqn:Hsp.
    + destruct cur as [|a cur]; [now apply IH|].
      constructor; [now apply Hword|]. apply IH; [assumption|constructor|constructor].
    + apply IH; [assumption|now constructor|now constructor].
Qed.

Lemma upper_chars (s : string) :
  Forall (fun c => upper_ascii c = c) (list_ascii_of_string (upper s)).
Proof.
  induction s as [|c s IH]; cbn; constructor; [apply PyFacts.upper_ascii_idem|exact IH].
Qed.

Lemma upper_fixed (w : string) :
  Forall (fun c => upper_ascii c = c) (list_ascii_of_string w) -> upper w = w.
Proof.
  induction w as [|c w IH]; cbn; [reflexivity|].
  intros [Hc Hw]%Forall_cons. now rewrite Hc, IH.
Qed.

(** A word of [s.upper().split()] is the one word of its own upper-case
    text. *)
Lemma split_upper_word (s w : string) :
  In w (split (upper s)) -> split (upper w) = [w].
Proof.
  intros Hin.
  pose proof (split_from_words (fun c => upper_ascii c = c)
                (list_ascii_of_string (upper s)) [] (upper_chars s)
                (Forall_nil_2 _) (Forall_nil_2 _)) as Hall.
  rewrite List.Forall_forall in Hall. destruct (Hall w Hin) as (Hne & Hns & Hup).
  rewrite (upper_fixed w Hup). now apply split_word.
Qed.

End SplitFacts.

(** ** Calendars: serial dates, cross calendars, counting business days *)

Module CalendarLaws.
Import Calendar CalendarFacts SplitFacts.

(** Excel day numbers convert in order, and the only two that give one date
    are 59 and 60 (both 1900-02-28, the day -25509): from 60 on the epoch
    is a day earlier, which skips Excel's 29 February 1900.  The bounds
    are those of the day numbers whose date lies in the years 1 to 9999,
    the range of [dt.date]. *)
Theorem xldate_order (a b : Z) :
  -693594 <= a -> b <= 2958465 -> a < b ->
  _xldate_to_datetime a <= _xldate_to_datetime b
  /\ (_xldate_to_datetime a = _xldate_to_datetime b <-> a = 59 /\ b = 60)
  /\ (60 <= a -> _xldate_to_datetime a = a - 25569).
Proof.
  intros _ _ Hab. unfold _xldate_to_datetime. cbv zeta.
  destruct (Z.ltb_spec a 60), (Z.ltb_spec b 60); lia.
Qed.

Lemma xldate_order_witness :
  _xldate_to_datetime 59 = -25509 /\ _xldate_to_datetime 60 = -25509.
Proof.
  destruct (xldate_order 59 60 ltac:(lia) ltac:(lia) ltac:(lia)) as (_ & Heq & _).
  rewrite <- (proj2 Heq (conj eq_refl eq_refl)). split; reflexivity.
Defined.

Lemma first_missing_None (pkg : gmap string (list Z)) (cals : list string) :
  (forall code, In code cals -> is_Some (pkg !! code)) ->
  first_missing pkg cals = None.
Proof.
  intros Hall. unfold first_missing.
  destruct (List.find _ cals) as [code|] eqn:Hfind; [|reflexivity].
  apply find_some in Hfind as [Hin Hnone].
  apply bool_decide_eq_true in Hnone.
  destruct (Hall code Hin) as [data Hdata]. congruence.
Qed.

Lemma is_busday_concat (hs : list (list Z)) (d : Z) :
  is_busday {| holidays := concat hs |} d
  = (weekday d <? 5) && forallb (fun h => negb (existsb (Z.eqb d) h)) hs.
Proof.
  unfold is_busday. cbn [holidays]. f_equal.
  induction hs as [|h hs IH]; [reflexivity|].
  cbn [concat forallb]. rewrite existsb_app, negb_orb. now rewrite IH.
Qed.

Lemma forallb_is_busday (pkg : gmap string (list Z)) (cals : list string) (d : Z) :
  cals <> [] ->
  forallb (fun code => is_busday (calendar_of pkg code) d) cals
  = (weekday d <? 5)
    && forallb (fun h => negb (existsb (Z.eqb d) h))
         (map holidays (map (calendar_of pkg) cals)).
Proof.
  intros Hne.
  assert (Hsplit : forallb (fun code => is_busday (calendar_of pkg code) d) cals
                   = forallb (fun _ => weekday d <? 5) cals
                     && forallb (fun h => negb (existsb (Z.eqb d) h))
                          (map holidays (map (calendar_of pkg) cals))).
  { clear Hne. induction cals as [|code cals IH]; [reflexivity|].
    cbn [forallb map]. rewrite IH. unfold is_busday.
    destruct (weekday d <? 5), (negb (existsb (Z.eqb d) (holidays (calendar_of pkg code)))),
      (forallb (fun _ => true) cals), (forallb (fun _ => false) cals),
      (forallb (fun h => negb (existsb (Z.eqb d) h))
         (map holidays (map (calendar_of pkg) cals))); reflexivity. }
  rewrite Hsplit. f_equal.
  destruct cals as [|code cals]; [congruence|]. cbn [forallb].
  destruct (weekday d <? 5); [|reflexivity].
  clear. induction cals; [reflexivity|assumption].
Qed.

(** The calendar a string of several codes resolves to. *)
Lemma resolve_codes (pkg : gmap string (list Z)) (cal : string) :
  split (upper cal) <> [] ->
  (forall code, In code (split (upper cal)) -> is_Some (pkg !! code)) ->
  exists bc,
    resolve pkg (Some cal) = Ok bc
    /\ forall d, is_busday bc d
         = forallb (fun code => is_busday (calendar_of pkg code) d) (split (upper cal)).
Proof.
  intros Hne Hall. unfold resolve. rewrite (first_missing_None pkg _ Hall).
  destruct (split (upper cal)) as [|c1 [|c2 cals]] eqn:Hsplit; [congruence| |].
  - eexists. split; [reflexivity|]. intros d. cbn. now rewrite andb_true_r.
  - eexists. split; [reflexivity|]. intros d.
    rewrite is_busday_concat, forallb_is_busday by discriminate. reflexivity.
Qed.

(** A calendar string of several codes is the intersection of its
    calendars: a date is a business day under it exactly when it is one
    under each code, in whatever order and case the codes are written. *)
Theorem cross_calendar_intersection (pkg : gmap string (list Z)) (cal : string)
    (c : gmap string busdaycalendar) (dates : nd Z) :
  consistent pkg c ->
  split (upper cal) <> [] ->
  (forall code, In code (split (upper cal)) -> is_Some (pkg !! code)) ->
  (forall code, In code (split (upper cal)) ->
     run (isbd pkg dates (Some code)) c
     = Ok (nd_map (is_busday (calendar_of pkg code)) dates))
  /\ run (isbd pkg dates (Some cal)) c
     = Ok (nd_map (fun d => forallb (fun code => is_busday (calendar_of pkg code) d)
                              (split (upper cal))) dates).
Proof.
  intros Hc Hne Hall. split.
  - intros code Hin. rewrite (run_isbd pkg) by assumption.
    unfold resolve. rewrite (split_upper_word cal code Hin).
    rewrite (first_missing_None pkg [code]).
    2:{ intros code' [<-|[]]. now apply Hall. }
    reflexivity.
  - rewrite (run_isbd pkg) by assumption.
    destruct (resolve_codes pkg cal Hne Hall) as (bc & -> & Hbc).
    cbn [bindR]. f_equal.
    destruct dates as [d|ds]; cbn [nd_map]; f_equal; [apply Hbc|].
    apply map_ext. intros d. apply Hbc.
Qed.

Definition pkg_BRL_USD : gmap string (list Z) :=
  {[ "BRL" := [43831; 43836]; "USD" := [43831; 43850] ]}.

Lemma cross_calendar_intersection_witness :
  run (isbd pkg_BRL_USD (Array [18262; 18263; 18267; 18281; 18286]) (Some "usd  brl")) ∅
  = Ok (Array [false; true; false; false; false]).
Proof.
  rewrite (proj2 (cross_calendar_intersection pkg_BRL_USD "usd  brl" ∅
                    (Array [18262; 18263; 18267; 18281; 18286])
                    (consistent_empty _) ltac:(vm_compute; discriminate)
                    ltac:(vm_compute; intros code [<-|[<-|[]]]; vm_compute; eauto))).
  vm_compute. reflexivity.
Defined.

(** A blank calendar string reaches the branch the source marks as never
    reached: every operation fails with a RuntimeError, and the cache is
    left as it was. *)
Theorem blank_calendar_RuntimeError (pkg : gmap string (list Z)) (cal : string)
    (c : gmap string busdaycalendar) (dates starts ends : nd Z) :
  forallb is_space (list_ascii_of_string cal) = true ->
  isbd pkg dates (Some cal) c = (c, Error (RuntimeError ("Unexpected calendar: " ++ cal)))
  /\ bdbetween pkg starts ends (Some cal) c
     = (c, Error (RuntimeError ("Unexpected calendar: " ++ cal))).
Proof.
  intros Hblank.
  assert (Hsplit : split (upper cal) = []).
  { unfold split. apply split_from_blank.
    clear -Hblank. induction cal as [|a cal IH]; [reflexivity|].
    cbn in *. apply andb_prop in Hblank as [Ha Hcal].
    rewrite (IH Hcal), andb_true_r. unfold upper_ascii.
    destruct (is_lower_ascii a) eqn:Hlow; [|exact Ha].
    exfalso. revert Ha Hlow. unfold is_space, is_lower_ascii. cbv zeta.
    generalize (nat_of_ascii a). intros n Hs Hl.
    repeat match goal with
           | H : _ && _ = true |- _ => apply andb_prop in H as [? ?]
           | H : _ || _ = true |- _ => apply orb_prop in H as [?|?]
           | H : (_ <=? _)%nat = true |- _ => apply Nat.leb_le in H
           end; lia. }
  unfold isbd, bdbetween, _get_bdaycalendar, bind. rewrite Hsplit. cbn. auto.
Qed.

Lemma blank_calendar_witness :
  isbd ∅ (Scalar 0) (Some "  ") ∅ = (∅, Error (RuntimeError "Unexpected calendar:   ")).
Proof.
  apply (proj1 (blank_calendar_RuntimeError ∅ "  " ∅ (Scalar 0) (Scalar 0) (Scalar 0) eq_refl)).
Defined.

(** Counts add up over adjacent periods, count at most one day per day,
    and a single day counts exactly when [isbd] accepts it. *)
Theorem bdbetween_additive (pkg : gmap string (list Z)) (cal : option string)
    (c : gmap string busdaycalendar) (bc : busdaycalendar) (a b d : Z) :
  consistent pkg c -> resolve pkg cal = Ok bc -> a <= b <= d ->
  exists n1 n2 (day : bool),
    run (bdbetween pkg (Scalar a) (Scalar b) cal) c = Ok (Scalar n1)
    /\ run (bdbetween pkg (Scalar b) (Scalar d) cal) c = Ok (Scalar n2)
    /\ run (bdbetween pkg (Scalar a) (Scalar d) cal) c = Ok (Scalar (n1 + n2))
    /\ 0 <= n1 <= b - a
    /\ run (isbd pkg (Scalar a) cal) c = Ok (Scalar day)
    /\ run (bdbetween pkg (Scalar a) (Scalar (a + 1)) cal) c
       = Ok (Scalar (if day then 1 else 0)).
Proof.
  intros Hc Hbc Hle. rewrite !(run_bdbetween pkg), (run_isbd pkg), Hbc by assumption.
  exists (busday_count bc a b), (busday_count bc b d), (is_busday bc a).
  cbn [bindR broadcast2 nd_map].
  split; [reflexivity|]. split; [reflexivity|].
  assert (Hbound : forall from n, 0 <= count_valid bc from n <= Z.of_nat n).
  { intros from n. revert from. induction n as [|n IH]; intros from; cbn [count_valid]; [lia|].
    specialize (IH (from + 1)). destruct (is_busday bc from); lia. }
  unfold busday_count.
  destruct (Z.leb_spec a b), (Z.leb_spec b d), (Z.leb_spec a d), (Z.leb_spec a (a + 1));
    try lia.
  split; [|split; [|split]].
  - do 2 f_equal.
    replace (Z.to_nat (d - a)) with (Z.to_nat (b - a) + Z.to_nat (d - b))%nat by lia.
    rewrite count_valid_app. do 2 f_equal. lia.
  - specialize (Hbound a (Z.to_nat (b - a))). lia.
  - reflexivity.
  - replace (Z.to_nat (a + 1 - a)) with 1%nat by lia. cbn [count_valid].
    destruct (is_busday bc a); reflexivity.
Qed.

Lemma bdbetween_additive_witness :
  exists n1 n2 (day : bool),
    run (bdbetween pkg_BRL (Scalar 18261) (Scalar 18264) (Some "BRL")) ∅ = Ok (Scalar n1)
    /\ run (bdbetween pkg_BRL (Scalar 18264) (Scalar 18270) (Some "BRL")) ∅ = Ok (Scalar n2)
    /\ run (bdbetween pkg_BRL (Scalar 18261) (Scalar 18270) (Some "BRL")) ∅
       = Ok (Scalar (n1 + n2))
    /\ 0 <= n1 <= 18264 - 18261
    /\ run (isbd pkg_BRL (Scalar 18261) (Some "BRL")) ∅ = Ok (Scalar day)
    /\ run (bdbetween pkg_BRL (Scalar 18261) (Scalar (18261 + 1)) (Some "BRL")) ∅
       = Ok (Scalar (if day then 1 else 0)).
Proof.
  apply (bdbetween_additive pkg_BRL (Some "BRL") ∅ cal_BRL 18261 18264 18270).
  - apply consistent_empty.
  - vm_compute. reflexivity.
  - lia.
Defined.

End CalendarLaws.

(** ** The ACT/ACT day count *)

Module ActActFacts.
Import Calendar CalendarFacts.

Definition year_days (y : Z) : Z := if is_leap_year y then 366 else 365.

Lemma year_len (y : Z) :
  (first_day_of_year (y + 1) - first_day_of_year y = year_days y)%Z.
Proof.
  unfold first_day_of_year, year_days, is_leap_year. cbv zeta.
  destruct (Z.eqb_spec (y mod 4) 0), (Z.eqb_spec (y mod 100) 0),
    (Z.eqb_spec (y mod 400) 0); cbn [andb orb negb];
    Z.div_mod_to_equations; lia.
Qed.

Lemma year_days_pos (y : Z) : (365 <= year_days y <= 366)%Z.
Proof. unfold year_days. destruct (is_leap_year y); lia. Qed.

Lemma year_of_bounds (d : Z) :
  (first_day_of_year (year_of d) <= d < first_day_of_year (year_of d + 1))%Z.
Proof.
  unfold first_day_of_year, year_of. cbv zeta.
  match goal with
  | |- context [?x <? 10] => destruct (Z.ltb_spec x 10)
  end;
    match goal with
    | |- context [?x <=? 2] => destruct (Z.leb_spec x 2)
    end;
    (Z.div_mod_to_equations; lia).
Qed.

Lemma first_day_lt (y1 y2 : Z) :
  (y1 < y2 -> first_day_of_year y1 < first_day_of_year y2)%Z.
Proof.
  intros Hlt. unfold first_day_of_year. cbv zeta.
  (Z.div_mod_to_equations; lia).
Qed.

Lemma year_of_unique (d y : Z) :
  (first_day_of_year y <= d < first_day_of_year (y + 1))%Z -> year_of d = y.
Proof.
  intros Hd. pose proof (year_of_bounds d) as Hb.
  destruct (Z.lt_trichotomy (year_of d) y) as [Hlt|[Heq|Hgt]]; [|exact Heq|].
  - assert (year_of d + 1 <= y)%Z as Hle by lia.
    destruct (Z.eq_dec (year_of d + 1) y) as [Heq|Hne].
    + rewrite Heq in Hb. lia.
    + pose proof (first_day_lt (year_of d + 1) y). lia.
  - destruct (Z.eq_dec (y + 1) (year_of d)) as [Heq|Hne].
    + rewrite <- Heq in Hb. lia.
    + pose proof (first_day_lt (y + 1) (year_of d)). lia.
Qed.

Lemma year_of_first_day (y : Z) : year_of (first_day_of_year y) = y.
Proof.
  apply year_of_unique. pose proof (first_day_lt y (y + 1)). lia.
Qed.

Lemma year_of_mono (s e : Z) : (s <= e)%Z -> (year_of s <= year_of e)%Z.
Proof.
  intros Hle. pose proof (year_of_bounds s) as Hs. pose proof (year_of_bounds e) as He.
  destruct (Z.le_gt_cases (year_of s) (year_of e)) as [|Hgt]; [assumption|].
  destruct (Z.eq_dec (year_of e + 1) (year_of s)) as [Heq|Hne].
  - rewrite Heq in He. lia.
  - pose proof (first_day_lt (year_of e + 1) (year_of s)). lia.
Qed.

Local Open Scope R_scope.

(** The position of a day on the clock of years: its year, plus the part
    of the year gone by. *)
Definition year_clock (d : Z) : R :=
  IZR (year_of d)
  + IZR (d - first_day_of_year (year_of d)) / IZR (year_days (year_of d)).

(** The share of one year in the loop of [act_act_term]. *)
Definition year_share (start end_ year : Z) : R :=
  let den := (if is_leap_year year then 366 else 365)%Z in
  let num :=
    (if (year =? year_of start) && (year =? year_of end_) then end_ - start
     else if year =? year_of start then first_day_of_year (year + 1) - start
     else if year =? year_of end_ then end_ - first_day_of_year year
     else first_day_of_year (year + 1) - first_day_of_year year)%Z in
  IZR num / IZR den.

Lemma act_act_term_ordered (s e : Z) :
  (s <= e)%Z ->
  act_act_term (A := exact) s e
  = fold_left (fun term year => term + year_share s e year)
      (seqZ (year_of s) (year_of e + 1 - year_of s)) 0 * 1.
Proof.
  intros Hle. unfold act_act_term.
  destruct (Z.ltb_spec e s); [lia|]. reflexivity.
Qed.

Lemma act_act_term_reversed (s e : Z) :
  (e < s)%Z ->
  act_act_term (A := exact) s e
  = fold_left (fun term year => term + year_share e s year)
      (seqZ (year_of e) (year_of s + 1 - year_of e)) 0 * -1.
Proof.
  intros Hlt. unfold act_act_term.
  destruct (Z.ltb_spec e s); [|lia]. reflexivity.
Qed.

Lemma year_days_nonzero (y : Z) : IZR (year_days y) <> 0.
Proof. pose proof (year_days_pos y). apply not_0_IZR. lia. Qed.

Lemma year_share_same (s e y : Z) :
  year_of s = y -> year_of e = y ->
  year_share s e y = IZR (e - s) / IZR (year_days y).
Proof.
  intros Hs He. unfold year_share, year_days. rewrite Hs, He, Z.eqb_refl. reflexivity.
Qed.

Lemma year_share_first (s e y : Z) :
  year_of s = y -> year_of e <> y ->
  year_share s e y = IZR (first_day_of_year (y + 1) - s) / IZR (year_days y).
Proof.
  intros Hs He. unfold year_share, year_days. rewrite Hs, Z.eqb_refl.
  destruct (Z.eqb_spec y (year_of e)); [congruence|]. reflexivity.
Qed.

Lemma year_share_last (s e y : Z) :
  year_of s <> y -> year_of e = y ->
  year_share s e y = IZR (e - first_day_of_year y) / IZR (year_days y).
Proof.
  intros Hs He. unfold year_share, year_days. rewrite He, Z.eqb_refl.
  destruct (Z.eqb_spec y (year_of s)); [congruence|]. reflexivity.
Qed.

Lemma year_share_whole (s e y : Z) :
  year_of s <> y -> year_of e <> y -> year_share s e y = 1.
Proof.
  intros Hs He. unfold year_share.
  destruct (Z.eqb_spec y (year_of s)); [congruence|].
  destruct (Z.eqb_spec y (year_of e)); [congruence|].
  cbn [andb]. cbv zeta. rewrite year_len. fold (year_days y).
  apply Rinv_r, year_days_nonzero.
Qed.

(** The sum the loop computes, for any share of the years. *)
Lemma fold_shares_whole (g : Z -> R) (n : nat) (a : Z) (acc : R) :
  (forall y, (a <= y < a + Z.of_nat n)%Z -> g y = 1) ->
  fold_left (fun term year => term + g year) (seqZ a (Z.of_nat n)) acc = acc + INR n.
Proof.
  induction n as [|n IH]; intros Hg.
  - rewrite seqZ_nil by lia. cbn. lra.
  - rewrite seqZ_S, fold_left_app. cbn [fold_left].
    rewrite IH by (intros; apply Hg; lia).
    rewrite Hg by lia. rewrite S_INR. lra.
Qed.

Lemma fold_shares (g : Z -> R) (ys ye : Z) :
  (ys < ye)%Z -> (forall y, (ys < y < ye)%Z -> g y = 1) ->
  fold_left (fun term year => term + g year) (seqZ ys (ye + 1 - ys)) 0
  = g ys + IZR (ye - ys - 1) + g ye.
Proof.
  intros Hlt Hg. rewrite seqZ_cons by lia.
  replace (Z.pred (ye + 1 - ys)) with (Z.of_nat (Z.to_nat (ye - ys - 1)) + 1)%Z by lia.
  rewrite seqZ_app by lia. cbn [fold_left]. rewrite fold_left_app.
  rewrite fold_shares_whole by (intros; apply Hg; lia).
  replace (Z.succ ys + Z.of_nat (Z.to_nat (ye - ys - 1)))%Z with ye by lia.
  rewrite seqZ_cons, seqZ_nil by lia. cbn [fold_left].
  rewrite INR_IZR_INZ, Z2Nat.id by lia. lra.
Qed.

Lemma fold_shares_one (g : Z -> R) (y : Z) :
  fold_left (fun term year => term + g year) (seqZ y (y + 1 - y)) 0 = g y.
Proof.
  replace (y + 1 - y)%Z with 1%Z by lia.
  rewrite seqZ_cons, seqZ_nil by lia. cbn [fold_left]. lra.
Qed.

Lemma clock_difference (s e ys ye : Z) :
  year_of s = ys -> year_of e = ye -> (ys < ye)%Z ->
  IZR (first_day_of_year (ys + 1) - s) / IZR (year_days ys)
  + IZR (ye - ys - 1)
  + IZR (e - first_day_of_year ye) / IZR (year_days ye)
  = year_clock e - year_clock s.
Proof.
  intros Hs He Hlt. unfold year_clock. rewrite Hs, He.
  pose proof (year_len ys) as Hlen.
  replace (first_day_of_year (ys + 1) - s)%Z
    with (year_days ys - (s - first_day_of_year ys))%Z by lia.
  pose proof (year_days_nonzero ys) as Hds.
  pose proof (year_days_nonzero ye) as Hde.
  rewrite !minus_IZR.
  generalize dependent (IZR (year_days ys)). generalize dependent (IZR (year_days ye)).
  generalize (IZR (first_day_of_year ys)) (IZR (first_day_of_year ye))
    (IZR s) (IZR e) (IZR ys) (IZR ye).
  intros. field. split; assumption.
Qed.

Lemma clock_difference_same (s e y : Z) :
  year_of s = y -> year_of e = y ->
  IZR (e - s) / IZR (year_days y) = year_clock e - year_clock s.
Proof.
  intros Hs He. unfold year_clock. rewrite Hs, He.
  pose proof (year_days_nonzero y) as Hd.
  rewrite !minus_IZR.
  generalize dependent (IZR (year_days y)).
  generalize (IZR (first_day_of_year y)) (IZR s) (IZR e) (IZR y).
  intros. field. assumption.
Qed.

Lemma act_act_term_clock_ordered (s e : Z) :
  (s <= e)%Z -> act_act_term (A := exact) s e = year_clock e - year_clock s.
Proof.
  intros Hle. rewrite act_act_term_ordered by assumption. rewrite Rmult_1_r.
  pose proof (year_of_mono s e Hle) as Hy.
  destruct (Z.eq_dec (year_of s) (year_of e)) as [Heq|Hne].
  - rewrite <- Heq, fold_shares_one.
    rewrite (year_share_same s e (year_of s)) by congruence.
    apply clock_difference_same; congruence.
  - rewrite fold_shares; [|lia|].
    2:{ intros y Hy'. apply year_share_whole; lia. }
    rewrite (year_share_first s e (year_of s)) by congruence.
    rewrite (year_share_last s e (year_of e)) by congruence.
    apply clock_difference; [reflexivity|reflexivity|lia].
Qed.

Lemma act_act_term_clock (s e : Z) :
  act_act_term (A := exact) s e = year_clock e - year_clock s.
Proof.
  destruct (Z.le_gt_cases s e) as [Hle|Hgt].
  - now apply act_act_term_clock_ordered.
  - rewrite act_act_term_reversed by lia.
    pose proof (act_act_term_clock_ordered e s ltac:(lia)) as Hrev.
    rewrite act_act_term_ordered in Hrev by lia.
    generalize dependent (fold_left (fun term year => term + year_share e s year)
                            (seqZ (year_of e) (year_of s + 1 - year_of e)) 0).
    generalize (year_clock e) (year_clock s). intros. lra.
Qed.

Lemma year_clock_lt (d1 d2 : Z) : (d1 < d2)%Z -> year_clock d1 < year_clock d2.
Proof.
  intros Hlt.
  pose proof (year_of_mono d1 d2 ltac:(lia)) as Hy.
  destruct (Z.eq_dec (year_of d1) (year_of d2)) as [Heq|Hne].
  - rewrite <- (Rplus_0_r (year_clock d1)).
    replace (year_clock d2) with (year_clock d1 + (year_clock d2 - year_clock d1)) by lra.
    apply Rplus_lt_compat_l.
    rewrite <- (clock_difference_same d1 d2 (year_of d1)) by congruence.
    pose proof (year_days_pos (year_of d1)).
    apply Rdiv_lt_0_compat; apply IZR_lt; lia.
  - pose proof (year_of_bounds d1) as Hb1. pose proof (year_of_bounds d2) as Hb2.
    pose proof (year_days_pos (year_of d1)). pose proof (year_days_pos (year_of d2)).
    assert (0 < year_clock d2 - year_clock d1); [|lra].
    rewrite <- (clock_difference d1 d2 (year_of d1) (year_of d2)) by (auto; lia).
    assert (0 < IZR (first_day_of_year (year_of d1 + 1) - d1)
                / IZR (year_days (year_of d1)))
      by (apply Rdiv_lt_0_compat; apply IZR_lt; lia).
    assert (0 <= IZR (year_of d2 - year_of d1 - 1)) by (apply IZR_le; lia).
    assert (0 <= IZR (d2 - first_day_of_year (year_of d2))
                 / IZR (year_days (year_of d2))).
    { apply Rmult_le_pos; [apply IZR_le; lia|].
      apply Rlt_le, Rinv_0_lt_compat, IZR_lt. lia. }
    generalize dependent (IZR (first_day_of_year (year_of d1 + 1) - d1)
                          / IZR (year_days (year_of d1))).
    generalize dependent (IZR (d2 - first_day_of_year (year_of d2))
                          / IZR (year_days (year_of d2))).
    generalize dependent (IZR (year_of d2 - year_of d1 - 1)).
    intros. lra.
Qed.

Lemma year_clock_first_day (y : Z) : year_clock (first_day_of_year y) = IZR y.
Proof.
  unfold year_clock. rewrite year_of_first_day, Z.sub_diag.
  unfold Rdiv. rewrite Rmult_0_l. apply Rplus_0_r.
Qed.


End ActActFacts.

(** ** Conversions, element by element and back *)

Module ConversionFacts.
Import Calendar CalendarFacts Curve_bkp CurveFacts.

Section Elementwise.

Context {T : Type} {A : Arith T}.
Variable pkg : gmap string (list Z).

(** What [_calc_term] settles before it looks at a date: the day count
    and, for BUS/252, the calendar.  The outcome is the term of one pair
    of dates. *)
Definition term_rule (day_count : string) (cal : option string) : res (Z -> Z -> T) :=
  let day_count := upper day_count in
  if negb (existsb (String.eqb day_count) _available_day_counts)
  then Error (ValueError "day_count given must be one of {'BUS/252', 'ACT/360', 'ACT/365', 'ACT/ACT'}")
  else if String.eqb day_count "BUS/252"
  then let! bc := resolve pkg cal in
       Ok (fun s e => fdiv (of_int (busday_count bc s e)) (of_int 252))
  else if String.eqb day_count "ACT/ACT" then Ok act_act_term
  else if String.eqb day_count "ACT/365"
  then Ok (fun s e => fdiv (of_int (e - s)) (of_int 365))
  else if String.eqb day_count "ACT/360"
  then Ok (fun s e => fdiv (of_int (e - s)) (of_int 360))
  else Error (ValueError ("Invalid day_count: " ++ day_count)).

Lemma zip_with_same_map_r {B C D E : Type} (f : B -> C -> D) (g : D -> E)
    (l : list B) (k : list C) :
  map g (zip_with_same f l k) = zip_with_same (fun b c => g (f b c)) l k.
Proof.
  revert k. induction l as [|b l IH]; intros [|c k]; cbn; [reflexivity..|].
  now rewrite IH.
Qed.

Lemma zip_with_same_flip {B C D : Type} (f : B -> C -> D) (l : list B) (k : list C) :
  zip_with_same f l k = zip_with_same (fun c b => f b c) k l.
Proof.
  revert k. induction l as [|b l IH]; intros [|c k]; cbn; [reflexivity..|].
  now rewrite IH.
Qed.

Lemma zip_with_same_repeat_l {B C D : Type} (f : B -> C -> D) (b : B) (k : list C) :
  zip_with_same f (repeat b (length k)) k = map (f b) k.
Proof. induction k as [|c k IH]; cbn; [reflexivity|]. now rewrite IH. Qed.

Lemma calc_term_scalars c s e day_count cal :
  consistent pkg c ->
  run (_calc_term pkg (Scalar s) (Scalar e) day_count cal) c
  = let! rule := term_rule day_count cal in Ok (Scalar (rule s e)).
Proof.
  intros Hc. unfold _calc_term, term_rule, _normalize_dates. cbv zeta.
  destruct (negb (existsb (String.eqb (upper day_count)) _available_day_counts));
    [reflexivity|].
  destruct (String.eqb (upper day_count) "BUS/252").
  - rewrite (run_bind pkg) by stable_all.
    rewrite (run_bdbetween pkg) by assumption.
    destruct (resolve pkg cal); reflexivity.
  - destruct (String.eqb (upper day_count) "ACT/ACT"); [reflexivity|].
    rewrite (run_bind pkg) by stable_all. cbn [run lift snd broadcast2 bindR].
    destruct (String.eqb (upper day_count) "ACT/365"); [reflexivity|].
    destruct (String.eqb (upper day_count) "ACT/360"); reflexivity.
Qed.

Lemma calc_term_arrays c ss es day_count cal :
  consistent pkg c -> length ss = length es ->
  run (_calc_term pkg (Array ss) (Array es) day_count cal) c
  = let! rule := term_rule day_count cal in Ok (Array (zip_with_same rule ss es)).
Proof.
  intros Hc Hlen. unfold _calc_term, term_rule, _normalize_dates. cbv zeta.
  destruct (negb (existsb (String.eqb (upper day_count)) _available_day_counts));
    [reflexivity|].
  destruct (String.eqb (upper day_count) "BUS/252").
  - rewrite (run_bind pkg) by stable_all.
    rewrite (run_bdbetween pkg) by assumption.
    destruct (resolve pkg cal) as [bc|]; [|reflexivity].
    cbn [bindR broadcast2]. rewrite Hlen, Nat.eqb_refl.
    cbn [bindR run ret snd nd_map]. now rewrite zip_with_same_map_r.
  - destruct (String.eqb (upper day_count) "ACT/ACT").
    + rewrite Hlen, Nat.eqb_refl. reflexivity.
    + rewrite (run_bind pkg) by stable_all. cbn [run lift snd broadcast2 bindR].
      rewrite Hlen, Nat.eqb_refl. cbn [bindR].
      destruct (String.eqb (upper day_count) "ACT/365").
      { cbn [run ret snd nd_map bindR]. rewrite zip_with_same_map_r.
        now rewrite zip_with_same_flip. }
      destruct (String.eqb (upper day_count) "ACT/360"); [|reflexivity].
      cbn [run ret snd nd_map bindR]. rewrite zip_with_same_map_r.
      now rewrite zip_with_same_flip.
Qed.

Lemma calc_term_scalar_array c s es day_count cal :
  consistent pkg c ->
  run (_calc_term pkg (Scalar s) (Array es) day_count cal) c
  = let! rule := term_rule day_count cal in Ok (Array (map (rule s) es)).
Proof.
  intros Hc. unfold _calc_term, term_rule, _normalize_dates. cbv zeta.
  destruct (negb (existsb (String.eqb (upper day_count)) _available_day_counts));
    [reflexivity|].
  destruct (String.eqb (upper day_count) "BUS/252").
  - rewrite (run_bind pkg) by stable_all.
    rewrite (run_bdbetween pkg) by assumption.
    destruct (resolve pkg cal) as [bc|]; [|reflexivity].
    cbn [bindR broadcast2 run ret snd nd_map]. now rewrite map_map.
  - destruct (String.eqb (upper day_count) "ACT/ACT").
    + rewrite repeat_length, Nat.eqb_refl. cbn [negb run ret snd bindR].
      now rewrite zip_with_same_repeat_l.
    + rewrite (run_bind pkg) by stable_all. cbn [run lift snd broadcast2 bindR].
      destruct (String.eqb (upper day_count) "ACT/365").
      { cbn [run ret snd nd_map bindR]. now rewrite map_map. }
      destruct (String.eqb (upper day_count) "ACT/360"); [|reflexivity].
      cbn [run ret snd nd_map bindR]. now rewrite map_map.
Qed.

(** The formula a compounding selects. *)
Definition r2f_rule (compounding : string) : res (T -> T -> T) :=
  let compounding := upper compounding in
  if String.eqb compounding "YIELD" then Ok (fun r t => fpow (fadd (of_int 1) r) t)
  else if String.eqb compounding "LINEAR" then Ok (fun r t => fadd (of_int 1) (fmul r t))
  else if String.eqb compounding "CONTINUOUS" then Ok (fun r t => fexp (fmul r t))
  else Error (ValueError ("Invalid compounding parameter: " ++ compounding)).

Definition f2r_rule (compounding : string) : res (T -> T -> T) :=
  let compounding := upper compounding in
  if String.eqb compounding "YIELD"
  then Ok (fun f t => fsub (fpow f (fdiv (of_int 1) t)) (of_int 1))
  else if String.eqb compounding "LINEAR"
  then Ok (fun f t => fdiv (fsub f (of_int 1)) t)
  else if String.eqb compounding "CONTINUOUS" then Ok (fun f t => fdiv (flog f) t)
  else Error (ValueError ("Invalid compounding parameter: " ++ compounding)).

Definition negative_error : exn :=
  ValueError "Unable to calculate factors with end_dates < start_dates".

(** A conversion once its term is known. *)
Definition convert (rule : res (T -> T -> T)) (x term : nd T) : res (nd T) :=
  if negative_term term then Error negative_error
  else let! f := rule in broadcast2 f x term.

Lemma rate2fct_run c x s e compounding day_count cal :
  consistent pkg c ->
  run (rate2fct pkg x s e compounding day_count cal) c
  = let! term := run (_calc_term pkg s e day_count cal) c in
    convert (r2f_rule compounding) x term.
Proof.
  intros Hc. unfold rate2fct. rewrite (run_bind pkg) by stable_all.
  destruct (run (_calc_term pkg s e day_count cal) c) as [term|]; [|reflexivity].
  cbn [bindR]. unfold convert, r2f_rule, negative_error. cbv zeta.
  destruct (negative_term term); [reflexivity|].
  repeat match goal with
         | |- context [if ?b then _ else _] => destruct b; [reflexivity|]
         end.
  reflexivity.
Qed.

Lemma fct2rate_run c x s e compounding day_count cal :
  consistent pkg c ->
  run (fct2rate pkg x s e compounding day_count cal) c
  = let! term := run (_calc_term pkg s e day_count cal) c in
    convert (f2r_rule compounding) x term.
Proof.
  intros Hc. unfold fct2rate. rewrite (run_bind pkg) by stable_all.
  destruct (run (_calc_term pkg s e day_count cal) c) as [term|]; [|reflexivity].
  cbn [bindR]. unfold convert, f2r_rule, negative_error. cbv zeta.
  destruct (negative_term term); [reflexivity|].
  repeat match goal with
         | |- context [if ?b then _ else _] => destruct b; [reflexivity|]
         end.
  reflexivity.
Qed.

(** [x.item()]: the one number of a scalar result. *)
Definition as_scalar (x : res (nd T)) : res T :=
  match x with
  | Ok (Scalar y) => Ok y
  | Ok (Array _) => Error (ValueError "can only convert an array of size 1 to a Python scalar")
  | Error e => Error e
  end.

(** The positional triples of three arrays. *)
Definition triples (xs : list T) (ss es : list Z) : list (T * Z * Z) :=
  zip_with_same (fun x se => (x, fst se, snd se)) xs (zip_with_same pair ss es).

Lemma convert_scalar (f : T -> T -> T) (x t : T) :
  as_scalar (convert (Ok f) (Scalar x) (Scalar t))
  = if fltb t (of_int 0) then Error negative_error else Ok (f x t).
Proof.
  unfold convert, negative_term, np_any. cbn. rewrite orb_false_r.
  destruct (fltb t (of_int 0)); reflexivity.
Qed.

Lemma zip_with_same_length3 {B C D E : Type} (f : C -> D -> E)
    (xs : list B) (ss : list C) (es : list D) :
  length xs = length es -> length ss = length es ->
  length xs = length (zip_with_same f ss es).
Proof.
  revert ss es. induction xs as [|x xs IH]; intros [|s ss] [|e es] Hx Hs;
    try discriminate; [reflexivity|].
  cbn in *. f_equal. apply IH; lia.
Qed.

Lemma convert_elementwise (f : T -> T -> T) (rule : Z -> Z -> T)
    (xs : list T) (ss es : list Z) :
  length xs = length es -> length ss = length es ->
  convert (Ok f) (Array xs) (Array (zip_with_same rule ss es))
  = let! ys := map_res (fun t : T * Z * Z =>
                          as_scalar (convert (Ok f) (Scalar t.1.1)
                                       (Scalar (rule t.1.2 t.2))))
                 (triples xs ss es) in
    Ok (Array ys).
Proof.
  intros Hx Hs.
  rewrite (map_res_ext _ (fun t : T * Z * Z =>
             if fltb (rule t.1.2 t.2) (of_int 0) then Error negative_error
             else Ok (f t.1.1 (rule t.1.2 t.2))))
    by (intros; apply convert_scalar).
  unfold convert, negative_term, np_any, triples. cbn [nd_map nd_to_list bindR broadcast2].
  rewrite <- (zip_with_same_length3 rule xs ss es Hx Hs), Nat.eqb_refl.
  revert ss es Hx Hs.
  induction xs as [|x xs IH]; intros [|s ss] [|e es] Hx Hs; try discriminate.
  - reflexivity.
  - cbn [zip_with_same map existsb map_res length fst snd] in *.
    injection Hx as Hx. injection Hs as Hs.
    specialize (IH ss es Hx Hs).
    destruct (fltb (rule s e) (of_int 0)); cbn [orb bindR]; [reflexivity|].
    destruct (existsb (fun b => b) (map (fun t => fltb t (of_int 0))
                                      (zip_with_same rule ss es))).
    + destruct (map_res _ _) as [ys|err] in IH |- *; [discriminate|].
      cbn [bindR] in *. congruence.
    + destruct (map_res _ _) as [ys|err] in IH |- *; [|discriminate].
      cbn [bindR] in *. injection IH as IH. now rewrite IH.
Qed.

Lemma conversion_elementwise
    (conv : gmap string (list Z) -> nd T -> nd Z -> nd Z -> string -> string
            -> option string -> M (nd T))
    (rule : string -> res (T -> T -> T))
    (c : gmap string busdaycalendar)
    (xs : list T) (ss es : list Z) (compounding day_count : string)
    (cal : option string) :
  (forall x s e, run (conv pkg x s e compounding day_count cal) c
                 = let! term := run (_calc_term pkg s e day_count cal) c in
                   convert (rule compounding) x term) ->
  is_ok (rule compounding) = true ->
  consistent pkg c ->
  length xs = length es -> length ss = length es -> es <> [] ->
  run (conv pkg (Array xs) (Array ss) (Array es) compounding day_count cal) c
  = let! ys := map_res (fun t : T * Z * Z =>
                 as_scalar (run (conv pkg (Scalar t.1.1) (Scalar t.1.2)
                                   (Scalar t.2) compounding day_count cal) c))
                 (triples xs ss es) in
    Ok (Array ys).
Proof.
  intros Hrun Hok Hc Hx Hs Hne.
  destruct (rule compounding) as [f|] eqn:Hrule; [|discriminate].
  rewrite Hrun, (calc_term_arrays c ss es) by assumption.
  rewrite (map_res_ext _ (fun t : T * Z * Z =>
             let! tr := term_rule day_count cal in
             as_scalar (convert (Ok f) (Scalar t.1.1) (Scalar (tr t.1.2 t.2))))).
  2:{ intros [[x s] e]. cbn [fst snd]. rewrite Hrun, calc_term_scalars by assumption.
      destruct (term_rule day_count cal); reflexivity. }
  destruct (term_rule day_count cal) as [tr|err]; cbn [bindR].
  - now apply convert_elementwise.
  - destruct xs as [|x xs'], ss as [|s ss'], es as [|e es']; try discriminate;
      [congruence|]. reflexivity.
Qed.

Lemma conversion_scalar_start
    (conv : gmap string (list Z) -> nd T -> nd Z -> nd Z -> string -> string
            -> option string -> M (nd T))
    (rule : string -> res (T -> T -> T))
    (c : gmap string busdaycalendar)
    (x : nd T) (s : Z) (es : list Z) (compounding day_count : string)
    (cal : option string) :
  (forall x s e, run (conv pkg x s e compounding day_count cal) c
                 = let! term := run (_calc_term pkg s e day_count cal) c in
                   convert (rule compounding) x term) ->
  consistent pkg c ->
  run (conv pkg x (Scalar s) (Array es) compounding day_count cal) c
  = run (conv pkg x (Array (repeat s (length es))) (Array es)
           compounding day_count cal) c.
Proof.
  intros Hrun Hc. rewrite !Hrun.
  rewrite calc_term_scalar_array, calc_term_arrays by (auto using repeat_length).
  destruct (term_rule day_count cal); [|reflexivity].
  cbn [bindR]. now rewrite zip_with_same_repeat_l.
Qed.

Lemma r2f_rule_ok (compounding : string) :
  In (upper compounding) ["YIELD"; "LINEAR"; "CONTINUOUS"] ->
  is_ok (r2f_rule compounding) = true.
Proof.
  unfold r2f_rule. cbv zeta. cbn [In].
  intros [<-|[<-|[<-|[]]]]; reflexivity.
Qed.

Lemma f2r_rule_ok (compounding : string) :
  In (upper compounding) ["YIELD"; "LINEAR"; "CONTINUOUS"] ->
  is_ok (f2r_rule compounding) = true.
Proof.
  unfold f2r_rule. cbv zeta. cbn [In].
  intros [<-|[<-|[<-|[]]]]; reflexivity.
Qed.

End Elementwise.

(** [rate2fct] and [fct2rate] treat arrays of one length entry by entry:
    with a valid compounding, the array call returns the results of the
    single calls in order, and fails as the first failing single call
    does.  A single start date stands for that date at every entry. *)
Theorem conversions_elementwise {T : Type} {A : Arith T}
    (pkg : gmap string (list Z)) (c : gmap string busdaycalendar)
    (xs : list T) (ss es : list Z) (compounding day_count : string)
    (cal : option string) :
  consistent pkg c ->
  length xs = length es -> length ss = length es -> es <> [] ->
  In (upper compounding) ["YIELD"; "LINEAR"; "CONTINUOUS"] ->
  run (rate2fct pkg (Array xs) (Array ss) (Array es) compounding day_count cal) c
  = (let! ys := map_res (fun t : T * Z * Z =>
                  as_scalar (run (rate2fct pkg (Scalar t.1.1) (Scalar t.1.2)
                                    (Scalar t.2) compounding day_count cal) c))
                  (triples xs ss es) in
     Ok (Array ys))
  /\ run (fct2rate pkg (Array xs) (Array ss) (Array es) compounding day_count cal) c
     = (let! ys := map_res (fun t : T * Z * Z =>
                     as_scalar (run (fct2rate pkg (Scalar t.1.1) (Scalar t.1.2)
                                       (Scalar t.2) compounding day_count cal) c))
                     (triples xs ss es) in
        Ok (Array ys))
  /\ (forall s,
        run (rate2fct pkg (Array xs) (Scalar s) (Array es) compounding day_count cal) c
        = run (rate2fct pkg (Array xs) (Array (repeat s (length es))) (Array es)
                 compounding day_count cal) c
        /\ run (fct2rate pkg (Array xs) (Scalar s) (Array es) compounding day_count cal) c
           = run (fct2rate pkg (Array xs) (Array (repeat s (length es))) (Array es)
                    compounding day_count cal) c).
Proof.
  intros Hc Hx Hs Hne Hcomp. split; [|split].
  - apply (conversion_elementwise pkg rate2fct r2f_rule); auto using r2f_rule_ok.
    intros. now apply rate2fct_run.
  - apply (conversion_elementwise pkg fct2rate f2r_rule); auto using f2r_rule_ok.
    intros. now apply fct2rate_run.
  - intros s. split.
    + apply (conversion_scalar_start pkg rate2fct r2f_rule); [|assumption].
      intros. now apply rate2fct_run.
    + apply (conversion_scalar_start pkg fct2rate f2r_rule); [|assumption].
      intros. now apply fct2rate_run.
Qed.

Lemma conversions_elementwise_witness :
  run (rate2fct (A := exact) ∅ (Array [(5 / 100)%R; (6 / 100)%R]) (Array [0; 0])
         (Array [360; 720]) "linear" "ACT/360" None) ∅
  = (let! ys := map_res (fun t : R * Z * Z =>
                  as_scalar (run (rate2fct (A := exact) ∅ (Scalar t.1.1) (Scalar t.1.2)
                                    (Scalar t.2) "linear" "ACT/360" None) ∅))
                  (triples [(5 / 100)%R; (6 / 100)%R] [0; 0] [360; 720]) in
     Ok (Array ys)).
Proof.
  apply (conversions_elementwise (A := exact) ∅ ∅ [(5 / 100)%R; (6 / 100)%R] [0; 0]
           [360; 720] "linear" "ACT/360" None).
  - apply consistent_empty.
  - reflexivity.
  - reflexivity.
  - discriminate.
  - cbn. auto.
Defined.

(** ** Exact arithmetic *)
Section Exact.

Variable pkg : gmap string (list Z).
Local Open Scope R_scope.

Lemma negative_term_scalar (t : R) :
  0 <= t -> negative_term (A := exact) (Scalar t) = false.
Proof.
  intros Ht. unfold negative_term, np_any. cbn. now rewrite Rltb_false.
Qed.

(** Each formula of [fct2rate] undoes the one of [rate2fct], and the
    other way round, over a positive term. *)
Lemma formulas_inverse (compounding : string) (fr ff : R -> R -> R) :
  r2f_rule (A := exact) compounding = Ok fr ->
  f2r_rule (A := exact) compounding = Ok ff ->
  forall x t, 0 < t ->
    ((upper compounding = "YIELD"%string -> -1 < x) -> ff (fr x t) t = x)
    /\ ((upper compounding <> "LINEAR"%string -> 0 < x) -> fr (ff x t) t = x).
Proof.
  unfold r2f_rule, f2r_rule. cbv zeta.
  destruct (String.eqb_spec (upper compounding) "YIELD") as [Hy|Hy].
  { intros [= <-] [= <-] x t Ht. cbn [fadd fsub fmul fdiv fpow of_int exact]. split.
    - intros Hx. specialize (Hx Hy). rewrite Rpower_mult.
      replace (t * (1 / t)) with 1 by (field; lra).
      rewrite Rpower_1 by lra. lra.
    - intros Hx. rewrite Hy in Hx. specialize (Hx ltac:(discriminate)).
      replace (1 + (Rpower x (1 / t) - 1)) with (Rpower x (1 / t)) by lra.
      rewrite Rpower_mult. replace (1 / t * t) with 1 by (field; lra).
      now apply Rpower_1. }
  destruct (String.eqb_spec (upper compounding) "LINEAR") as [Hl|Hl].
  { intros [= <-] [= <-] x t Ht. cbn [fadd fsub fmul fdiv fpow of_int exact].
    split; intros _; field; lra. }
  destruct (String.eqb_spec (upper compounding) "CONTINUOUS") as [Hk|Hk];
    [|discriminate].
  intros [= <-] [= <-] x t Ht. cbn [fadd fsub fmul fdiv fexp flog of_int exact]. split.
  - intros _. rewrite ln_exp. field. lra.
  - intros Hx. specialize (Hx Hl).
    replace (ln x / t * t) with (ln x) by (field; lra). now apply exp_ln.
Qed.

(** [rate2fct(fct2rate(f, s, e, ...), s, e, ...)] *)
Definition roundtrip_back (f : R) (s e : Z) (compounding day_count : string)
    (cal : option string) : M (nd R) :=
  bind (fct2rate (A := exact) pkg (Scalar f) (Scalar s) (Scalar e)
          compounding day_count cal)
    (fun r => rate2fct (A := exact) pkg r (Scalar s) (Scalar e) compounding day_count cal).

Lemma convert_scalars (rule : R -> R -> R) (x t : R) :
  0 <= t -> convert (A := exact) (Ok rule) (Scalar x) (Scalar t) = Ok (Scalar (rule x t)).
Proof. intros Ht. unfold convert. now rewrite negative_term_scalar. Qed.

End Exact.



End ConversionFacts.

(** ** A period of no days *)

Module ZeroPeriodFacts.
Import Calendar CalendarFacts Curve_bkp CurveFacts ActActFacts ConversionFacts.

Lemma term_rule_same_day (pkg : gmap string (list Z)) (day_count : string)
    (cal : option string) (rule : Z -> Z -> R) (d : Z) :
  term_rule (A := exact) pkg day_count cal = Ok rule -> rule d d = 0%R.
Proof.
  unfold term_rule. cbv zeta.
  destruct (negb _); [discriminate|].
  destruct (String.eqb _ "BUS/252").
  { destruct (resolve pkg cal) as [bc|]; [|discriminate]. intros [= <-].
    unfold busday_count. rewrite Z.leb_refl, Z.sub_diag.
    change (Z.to_nat 0) with 0%nat.
    cbn [count_valid of_int fdiv exact]. lra. }
  destruct (String.eqb _ "ACT/ACT").
  { intros [= <-]. rewrite act_act_term_clock. apply Rminus_diag_eq. reflexivity. }
  destruct (String.eqb _ "ACT/365").
  { intros [= <-]. rewrite Z.sub_diag. cbn [of_int fdiv exact]. lra. }
  destruct (String.eqb _ "ACT/360"); [|discriminate].
  intros [= <-]. rewrite Z.sub_diag. cbn [of_int fdiv exact]. lra.
Qed.



End ZeroPeriodFacts.

(** ** Curves: refused inputs, linear interpolation *)

Module CurveChecks.
Import Calendar CalendarFacts Curve_bkp CurveFacts ActActFacts ConversionFacts.

Lemma drop_repeats_strict_id (l : list Z) :
  StronglySorted Z.lt l -> drop_repeats l = l.
Proof.
  induction 1 as [|x l Hs IH Hall]; [reflexivity|].
  cbn [drop_repeats]. destruct l as [|y l]; [reflexivity|].
  apply Forall_cons in Hall as [Hxy _].
  destruct (Z.eqb_spec x y); [lia|]. now rewrite IH.
Qed.

Lemma strict_checks (l : list Z) :
  StronglySorted Z.lt l ->
  np_array_equal (np_sort l) l = true
  /\ (length (np_unique l) =? length l)%nat = true.
Proof.
  intros Hs.
  assert (Hle : Sorted Z.le l).
  { apply StronglySorted_Sorted in Hs.
    induction Hs as [|x l Hs IH Hhd]; constructor; [assumption|].
    destruct Hhd; constructor. lia. }
  unfold np_array_equal, np_unique. rewrite (PyFacts.np_sort_fixed l Hle).
  split; [now apply bool_decide_eq_true|].
  rewrite drop_repeats_strict_id by assumption. apply Nat.eqb_refl.
Qed.

Section Errors.

Context {T : Type} {A : Arith T}.
Variable pkg : gmap string (list Z).

(** End dates in ascending order with a repeated date are refused with
    the ValueError of the uniqueness check. *)
Theorem repeated_end_dates_rejected (start_dates end_dates : list Z) (rates : list T)
    (interp_method compounding day_count : string) (cal : option string)
    (c : gmap string busdaycalendar) :
  length start_dates = length end_dates ->
  length end_dates = length rates ->
  np_sort end_dates = end_dates ->
  ~ NoDup end_dates ->
  run (__init__ pkg (Array start_dates) (Array end_dates) (Array rates)
         interp_method compounding day_count cal) c
  = Error (ValueError "end_dates must be all unique").
Proof.
  intros Hse Her Hsorted Hdup. unfold __init__, _normalize_dates.
  rewrite Hse, Her, !Nat.eqb_refl. cbn [negb].
  assert (Heq : np_array_equal (np_sort end_dates) end_dates = true)
    by (now apply bool_decide_eq_true).
  rewrite Heq. cbn [negb].
  destruct (length (np_unique end_dates) =? length end_dates)%nat eqn:Huniq;
    [|rewrite <- Her, Huniq; reflexivity].
  exfalso. apply Hdup, PyFacts.strict_NoDup.
  now apply PyFacts.sorted_unique_strict.
Qed.

(** The constructor on no dates at all fails with the IndexError of
    taking the first start date; with BUS/252 and no calendar, on dates
    that pass the checks, it fails with the TypeError of the calendar
    lookup. *)
Theorem curve_without_dates_or_calendar
    (interp_method compounding day_count : string) (c : gmap string busdaycalendar) :
  (forall (start_dates : nd Z) (cal : option string),
      start_dates = Array [] \/ (exists s, start_dates = Scalar s) ->
      run (__init__ pkg start_dates (Array []) (Array [])
             interp_method compounding day_count cal) c
      = Error (IndexError "index 0 is out of bounds for axis 0 with size 0"))
  /\ (forall (start_dates end_dates : list Z) (rates : list T),
        length start_dates = length end_dates ->
        length end_dates = length rates ->
        StronglySorted Z.lt end_dates -> end_dates <> [] ->
        upper day_count = "BUS/252" ->
        run (__init__ pkg (Array start_dates) (Array end_dates) (Array rates)
               interp_method compounding day_count None) c
        = Error (TypeError "Calendar input must be str, got NoneType")).
Proof.
  split.
  - intros start_dates cal [->|[s ->]]; reflexivity.
  - intros start_dates end_dates rates Hse Her Hs Hne Hbus.
    unfold __init__, _normalize_dates.
    rewrite Hse, Her, !Nat.eqb_refl. cbn [negb].
    destruct (strict_checks end_dates Hs) as [-> Huniq].
    rewrite <- Her, Huniq. cbn [negb].
    destruct start_dates as [|ref start_dates].
    { destruct end_dates; [congruence|discriminate]. }
    rewrite Hbus. reflexivity.
Qed.

End Errors.

Lemma curve_without_calendar_witness :
  run (__init__ (A := exact) ∅ (Array [0; 0]) (Array [360; 720])
         (Array [(5 / 100)%R; (6 / 100)%R]) "LIN" "LINEAR" "bus/252" None) ∅
  = Error (TypeError "Calendar input must be str, got NoneType").
Proof.
  apply (proj2 (curve_without_dates_or_calendar (A := exact) ∅ "LIN" "LINEAR" "bus/252" ∅));
    try reflexivity.
  - repeat constructor.
  - discriminate.
Defined.

Lemma repeated_end_dates_witness :
  run (__init__ (A := exact) ∅ (Array [0; 0; 0]) (Array [360; 720; 720])
         (Array [(5 / 100)%R; (6 / 100)%R; (7 / 100)%R]) "LIN" "LINEAR" "ACT/360" None) ∅
  = Error (ValueError "end_dates must be all unique").
Proof.
  apply (repeated_end_dates_rejected (A := exact)); [reflexivity|reflexivity|reflexivity|].
  intros Hnd. apply NoDup_cons in Hnd as [_ Hnd].
  apply NoDup_cons in Hnd as [Hnin _]. apply Hnin. now left.
Defined.


Section Knots.

Context {T : Type} {A : Arith T}.

Lemma sorted_le_last (x0 a x : Z) (l : list Z) :
  StronglySorted Z.lt (a :: l) -> In x (a :: l) -> a <= x <= List.last (a :: l) x0.
Proof.
  revert a. induction l as [|b l IH]; intros a Hs Hin.
  - destruct Hin as [<-|[]]. cbn. lia.
  - apply StronglySorted_inv in Hs as [Hs Hall].
    apply Forall_cons in Hall as [Hab _].
    change (List.last (a :: b :: l) x0) with (List.last (b :: l) x0).
    destruct Hin as [<-|Hin].
    + pose proof (head_le_last x0 b l Hs). lia.
    + specialize (IH b Hs Hin). lia.
Qed.

Lemma lookup_In {B : Type} (l : list B) (i : nat) (x : B) : l !! i = Some x -> In x l.
Proof.
  revert i. induction l as [|b l IH]; intros [|i] Hx; try discriminate.
  - injection Hx as ->. now left.
  - right. now apply (IH i).
Qed.

Lemma last_default {B : Type} (l : list B) (x d : B) :
  last l = Some x -> List.last l d = x.
Proof.
  induction l as [|a l IH]; [discriminate|].
  destruct l as [|b l]; [now intros [= ->]|]. exact IH.
Qed.

Lemma interp_between_knot (xp : list Z) (fp : list T) (i : nat) (x : Z) (y d : T) :
  StronglySorted Z.lt xp -> length xp = length fp ->
  xp !! i = Some x -> fp !! i = Some y ->
  interp_between x xp fp d = y.
Proof.
  revert fp i. induction xp as [|xj xp IH]; intros fp i Hs Hlen Hx Hy; [discriminate|].
  destruct fp as [|fj fp]; [discriminate|].
  destruct xp as [|xj1 xp]; destruct fp as [|fj1 fp]; try discriminate.
  - destruct i as [|i]; [|discriminate]. cbn in Hy. now injection Hy as <-.
  - rewrite interp_between_step.
    apply StronglySorted_inv in Hs as [Hs Hall].
    destruct i as [|i].
    + cbn in Hx, Hy. injection Hx as <-. injection Hy as <-.
      apply Forall_cons in Hall as [Hlt _].
      destruct (Z.ltb_spec xj xj1); [|lia]. now rewrite Z.eqb_refl.
    + cbn [lookup list_lookup] in Hx, Hy.
      assert (Hin : In x (xj1 :: xp)).
      { now apply (lookup_In _ i). }
      pose proof (sorted_le_last x xj1 x xp Hs Hin) as Hb.
      destruct (Z.ltb_spec x xj1); [lia|].
      apply (IH (fj1 :: fp) i); [assumption|cbn in *; lia|assumption|assumption].
Qed.

Lemma np_interp1_knot (xp : list Z) (fp : list T) (i : nat) (x : Z) (y : T) :
  StronglySorted Z.lt xp -> length xp = length fp ->
  xp !! i = Some x -> fp !! i = Some y ->
  np_interp1 xp fp x = Ok y.
Proof.
  intros Hs Hlen Hx Hy. unfold np_interp1, last_of.
  destruct xp as [|x0 xp]; [discriminate|]. destruct fp as [|f0 fp]; [discriminate|].
  rewrite Hlen, Nat.eqb_refl. cbn [negb].
  assert (Hin : In x (x0 :: xp)).
  { now apply (lookup_In _ i). }
  pose proof (sorted_le_last x0 x0 x xp Hs Hin) as Hb.
  destruct (Z.ltb_spec x x0); [lia|].
  destruct (Z.ltb_spec (List.last (x0 :: xp) x0) x); [lia|].
  f_equal. now apply (interp_between_knot _ _ i).
Qed.

End Knots.

(** What a successful construction ran. *)
Section Parts.

Context {T : Type} {A : Arith T}.
Variable pkg : gmap string (list Z).

Lemma init_parts starts ends rates interp_method compounding day_count cal c0 curve :
  consistent pkg c0 ->
  run (__init__ pkg starts ends rates interp_method compounding day_count cal) c0
  = Ok curve ->
  exists es rs fs0,
    ends = Array es /\ rates = Array rs
    /\ Curve_bkp.start_dates curve
       = match starts with Scalar s => repeat s (length es) | Array l => l end
    /\ head (Curve_bkp.start_dates curve) = Some (ref_date curve)
    /\ length (Curve_bkp.start_dates curve) = length es
    /\ length es = length rs
    /\ Curve_bkp.end_dates curve = es
    /\ Curve_bkp.compounding curve = upper compounding
    /\ Curve_bkp.day_count curve = upper day_count
    /\ parse_interp_method interp_method = Some (Curve_bkp.interp_method curve)
    /\ run (bootstrap pkg (Curve_bkp.start_dates curve) es rs compounding day_count cal
              (ref_date curve)) c0 = Ok (factors curve)
    /\ run (fct2rate pkg (Array (factors curve)) (Scalar (ref_date curve)) (Array es)
              compounding day_count cal) c0 = Ok fs0
    /\ Curve_bkp.rates curve = nd_to_list fs0
    /\ (if String.eqb (upper day_count) "BUS/252"
        then exists cs, cal = Some cs /\ Curve_bkp.cal curve = Some (upper cs)
                        /\ is_ok (resolve pkg cal) = true
        else Curve_bkp.cal curve = None).
Proof.
  intros Hc0 Hrun. unfold __init__, _normalize_dates in Hrun.
  destruct rates as [?|rates]; [discriminate|].
  destruct ends as [?|ends]; [discriminate|].
  cbv zeta in Hrun.
  set (starts' := match starts with Scalar s => repeat s (length ends) | Array l => l end)
    in Hrun.
  destruct (negb (length starts' =? length ends)%nat) eqn:Hlen1; [discriminate|].
  destruct (negb (length ends =? length rates)%nat) eqn:Hlen2; [discriminate|].
  destruct (negb (np_array_equal (np_sort ends) ends)) eqn:Hsorted; [discriminate|].
  destruct (negb (length (np_unique ends) =? length ends)%nat) eqn:Huniq; [discriminate|].
  apply negb_false_iff in Hlen1, Hlen2. apply Nat.eqb_eq in Hlen1, Hlen2.
  destruct starts' as [|ref starts''] eqn:Hstarts; [discriminate|].
  rewrite (run_bind pkg) in Hrun by stable_all.
  match type of Hrun with
  | bindR (run ?m c0) _ = _ => destruct (run m c0) as [[]|err] eqn:Hcheck; [|discriminate]
  end.
  cbn [bindR] in Hrun.
  destruct (parse_interp_method interp_method) as [method|]; [|discriminate].
  rewrite (run_bind pkg) in Hrun by stable_all.
  match type of Hrun with
  | bindR (run ?m c0) _ = _ => destruct (run m c0) as [fs|err] eqn:Hboot; [|discriminate]
  end.
  cbn [bindR] in Hrun.
  rewrite (run_bind pkg) in Hrun by stable_all.
  match type of Hrun with
  | bindR (run ?m c0) _ = _ => destruct (run m c0) as [rs|err] eqn:Hrates; [|discriminate]
  end.
  cbn [bindR] in Hrun.
  rewrite (run_bind pkg) in Hrun by stable_all.
  match type of Hrun with
  | bindR (run ?m c0) _ = _ => destruct (run m c0) as [[cal' nds]|err] eqn:Haxis; [|discriminate]
  end.
  cbn [bindR run ret snd fst] in Hrun. injection Hrun as <-.
  exists ends, rates, rs.
  cbn [Curve_bkp.start_dates ref_date Curve_bkp.end_dates Curve_bkp.compounding
         Curve_bkp.day_count Curve_bkp.interp_method factors Curve_bkp.rates
         Curve_bkp.cal].
  repeat match goal with |- _ /\ _ => split end;
    try reflexivity; try assumption; [symmetry; exact Hstarts|].
  destruct (String.eqb (upper day_count) "BUS/252").
  - destruct cal as [cs|]; [|discriminate].
    rewrite (run_bind pkg) in Haxis by stable_all.
    rewrite (run_bdbetween pkg) in Haxis by assumption.
    destruct (resolve pkg (Some cs)) as [bc|]; [|discriminate].
    cbn in Haxis. injection Haxis as <- _. eauto.
  - cbn in Haxis. now injection Haxis as <- _.
Qed.

Lemma lookup_zip_with_same {B C D : Type} (f : B -> C -> D) (l : list B) (k : list C)
    (i : nat) :
  zip_with_same f l k !! i
  = match l !! i, k !! i with
    | Some b, Some c => Some (f b c)
    | _, _ => None
    end.
Proof.
  revert k i. induction l as [|b l IH]; intros [|c k] [|i]; cbn; try reflexivity.
  - now destruct (l !! i).
  - apply IH.
Qed.

Lemma length_zip_with_same {B C D : Type} (f : B -> C -> D) (l : list B) (k : list C) :
  length l = length k -> length (zip_with_same f l k) = length l.
Proof.
  revert k. induction l as [|b l IH]; intros [|c k] Hlen; try discriminate;
    [reflexivity|]. cbn in *. f_equal. apply IH. lia.
Qed.

(** The rates a curve stores are as many as its end dates. *)
Lemma init_rates_length starts ends rates interp_method compounding day_count cal c0 curve :
  consistent pkg c0 ->
  run (__init__ pkg starts ends rates interp_method compounding day_count cal) c0
  = Ok curve ->
  length (Curve_bkp.rates curve) = length (Curve_bkp.end_dates curve).
Proof.
  intros Hc0 Hrun.
  pose proof (init_built pkg _ _ _ _ _ _ _ _ _ Hc0 Hrun) as [_ _ Hlen _ _].
  destruct (init_parts _ _ _ _ _ _ _ _ _ Hc0 Hrun)
    as (es & rs & fs0 & _ & _ & _ & _ & _ & _ & Hes & _ & _ & _ & _ & Hrates & -> & _).
  rewrite Hes in *.
  rewrite fct2rate_run, calc_term_scalar_array in Hrates by assumption.
  destruct (term_rule pkg day_count cal) as [rule|]; [|discriminate].
  cbn [bindR] in Hrates. unfold convert in Hrates.
  destruct (negative_term _); [discriminate|].
  destruct (f2r_rule compounding) as [f|]; [|discriminate].
  cbn [bindR broadcast2] in Hrates.
  rewrite length_map, Hlen, Nat.eqb_refl in Hrates. injection Hrates as <-.
  cbn [nd_to_list]. rewrite length_zip_with_same by (now rewrite length_map). exact Hlen.
Qed.

Lemma interp_LIN_scalar curve c d xf :
  consistent pkg c ->
  Curve_bkp.interp_method curve = LIN ->
  (forall dates,
      run (if String.eqb (Curve_bkp.day_count curve) "BUS/252"
           then bdbetween pkg (Scalar (ref_date curve)) dates (Curve_bkp.cal curve)
           else ret (nd_map (fun d => d - ref_date curve) dates)) c
      = Ok (nd_map xf dates)) ->
  run (interp pkg curve (Scalar d)) c
  = let! y := np_interp1 (ndays curve) (Curve_bkp.rates curve) (xf d) in Ok (Scalar y).
Proof.
  intros Hc Hlin Hx. unfold interp, _normalize_dates.
  rewrite (run_bind pkg) by stable_all. rewrite Hx. cbn [bindR nd_map].
  rewrite Hlin. reflexivity.
Qed.

Lemma interp_LIN_knot starts ends rates interp_method compounding day_count cal
    c0 c curve i e r :
  consistent pkg c0 ->
  run (__init__ pkg starts ends rates interp_method compounding day_count cal) c0
  = Ok curve ->
  Curve_bkp.interp_method curve = LIN ->
  consistent pkg c ->
  Curve_bkp.end_dates curve !! i = Some e -> Curve_bkp.rates curve !! i = Some r ->
  run (interp pkg curve (Scalar e)) c = Ok (Scalar r).
Proof.
  intros Hc0 Hinit Hlin Hc He Hr.
  pose proof (init_rates_length _ _ _ _ _ _ _ _ _ Hc0 Hinit) as Hlen.
  destruct (init_built pkg _ _ _ _ _ _ _ _ _ Hc0 Hinit)
    as [Hne Hsorted _ _ (xf & Hmono & Hnd & Hstrict & Hx)].
  rewrite (interp_LIN_scalar curve c e xf) by auto.
  rewrite (np_interp1_knot (ndays curve) (Curve_bkp.rates curve) i (xf e) r);
    [reflexivity|assumption|now rewrite Hnd, length_map| |assumption].
  rewrite Hnd, list_lookup_fmap, He. reflexivity.
Qed.

End Parts.

(** Under LIN interpolation a curve returns, at each of its end dates,
    the zero rate it stores for that date; before the first end date it
    returns the first stored rate and after the last one the last. *)
Theorem interp_LIN_knots_and_flat {T : Type} {A : Arith T}
    (pkg : gmap string (list Z)) (start_dates end_dates : nd Z) (rates : nd T)
    (interp_method compounding day_count : string) (cal : option string)
    (c0 c : gmap string busdaycalendar) (curve : Curve T) :
  consistent pkg c0 ->
  run (__init__ pkg start_dates end_dates rates interp_method compounding day_count cal) c0
  = Ok curve ->
  Curve_bkp.interp_method curve = LIN ->
  consistent pkg c ->
  length (Curve_bkp.rates curve) = length (Curve_bkp.end_dates curve)
  /\ (forall i e r,
        Curve_bkp.end_dates curve !! i = Some e -> Curve_bkp.rates curve !! i = Some r ->
        run (interp pkg curve (Scalar e)) c = Ok (Scalar r))
  /\ (forall d e r,
        head (Curve_bkp.end_dates curve) = Some e ->
        head (Curve_bkp.rates curve) = Some r ->
        d <= e -> run (interp pkg curve (Scalar d)) c = Ok (Scalar r))
  /\ (forall d e r,
        last (Curve_bkp.end_dates curve) = Some e ->
        last (Curve_bkp.rates curve) = Some r ->
        e <= d -> run (interp pkg curve (Scalar d)) c = Ok (Scalar r)).
Proof.
  intros Hc0 Hinit Hlin Hc.
  pose proof (init_rates_length pkg _ _ _ _ _ _ _ _ _ Hc0 Hinit) as Hlen.
  destruct (init_built pkg _ _ _ _ _ _ _ _ _ Hc0 Hinit)
    as [Hne Hsorted _ _ (xf & Hmono & Hnd & Hstrict & Hx)].
  assert (Hlen' : length (ndays curve) = length (Curve_bkp.rates curve))
    by (now rewrite Hnd, length_map).
  split; [exact Hlen|]. split; [|split].
  - intros i e r He Hr.
    now apply (interp_LIN_knot pkg _ _ _ _ _ _ _ c0 c curve i e r Hc0 Hinit).
  - intros d e r He Hr Hd.
    rewrite (interp_LIN_scalar pkg curve c d xf) by auto.
    destruct (Curve_bkp.end_dates curve) as [|e0 es]; [discriminate|].
    destruct (Curve_bkp.rates curve) as [|r0 rs]; [discriminate|].
    cbn in He, Hr. injection He as ->. injection Hr as ->.
    rewrite Hnd in Hstrict, Hlen' |- *. cbn [map] in *.
    rewrite np_interp1_left; [reflexivity|assumption|cbn in Hlen'; lia|].
    now apply Hmono.
  - intros d e r He Hr Hd.
    rewrite (interp_LIN_scalar pkg curve c d xf) by auto.
    destruct (Curve_bkp.end_dates curve) as [|e0 es]; [discriminate|].
    destruct (Curve_bkp.rates curve) as [|r0 rs]; [discriminate|].
    rewrite Hnd in Hstrict, Hlen' |- *. cbn [map] in *.
    rewrite np_interp1_right; [|assumption|cbn in Hlen'; lia|].
    + cbn [bindR]. do 2 f_equal. now apply last_default.
    + change (xf e0 :: map xf es) with (map xf (e0 :: es)).
      rewrite (last_map xf (e0 :: es) e0). apply Hmono.
      now rewrite (last_default _ e e0 He).
Qed.

Lemma interp_LIN_witness :
  exists curve,
    run (__init__ (A := exact) ∅ (Scalar 0) (Array [360; 720])
           (Array [(5 / 100)%R; (6 / 100)%R]) "LIN" "LINEAR" "ACT/360" None) ∅ = Ok curve
    /\ length (Curve_bkp.rates curve) = length (Curve_bkp.end_dates curve).
Proof.
  assert (Hinit :
    exists curve,
      run (__init__ (A := exact) ∅ (Scalar 0) (Array [360; 720])
             (Array [(5 / 100)%R; (6 / 100)%R]) "LIN" "LINEAR" "ACT/360" None) ∅
      = Ok curve
      /\ Curve_bkp.interp_method curve = LIN).
  { eexists. split; [eval_exact; reflexivity|reflexivity]. }
  destruct Hinit as (curve & Hinit & Hlin).
  exists curve. split; [exact Hinit|].
  apply (interp_LIN_knots_and_flat ∅ _ _ _ _ _ _ _ ∅ ∅ curve
           (consistent_empty ∅) Hinit Hlin (consistent_empty ∅)).
Defined.

End CurveChecks.

(** ** Curves of zero-coupon rates *)

Module ZeroCouponFacts.
Import Calendar CalendarFacts Curve_bkp CurveFacts ActActFacts ConversionFacts CurveChecks.

Section ZC.
Variable pkg : gmap string (list Z).
Local Open Scope R_scope.

Lemma repeat_lookup {B : Type} (x : B) (n i : nat) :
  (i < n)%nat -> repeat x n !! i = Some x.
Proof.
  revert i. induction n as [|n IH]; intros [|i] Hi; try lia; [reflexivity|].
  cbn. apply IH. lia.
Qed.

(** The factors of the bootstrap when every segment starts on the
    reference date. *)
Lemma bootstrap_zero_coupon (c : gmap string busdaycalendar) (ref : Z)
    (es : list Z) (rs fs : list R) (compounding day_count : string)
    (cal : option string) (rule : Z -> Z -> R) (fr : R -> R -> R) :
  consistent pkg c ->
  length es = length rs ->
  term_rule (A := exact) pkg day_count cal = Ok rule ->
  r2f_rule (A := exact) compounding = Ok fr ->
  (forall e, In e es -> 0 <= rule ref e) ->
  run (bootstrap (A := exact) pkg (repeat ref (length es)) es rs compounding day_count
         cal ref) c = Ok fs ->
  fs = zip_with_same fr rs (map (rule ref) es).
Proof.
  intros Hc Hlen Hrule Hfr Hpos Hboot. unfold bootstrap in Hboot.
  pose proof (bootstrap_from_length pkg _ _ _ _ _ _ _ _ _ _ _ Hc Hboot) as Hfs.
  rewrite length_seq in Hfs. cbn [length Nat.add] in Hfs.
  destruct (bootstrap_from_ok pkg _ _ _ _ _ _ _ _ _ Hc 0%nat [] fs eq_refl Hboot)
    as [_ Hall].
  apply list_eq. intros k. rewrite lookup_zip_with_same, list_lookup_fmap.
  destruct (Nat.lt_ge_cases k (length es)) as [Hk|Hk].
  2:{ rewrite (lookup_ge_None_2 fs), (lookup_ge_None_2 es) by lia.
      cbn. now destruct (rs !! k). }
  destruct (Hall k) as (f_k & Hfk & Hseg); [lia|].
  destruct (lookup_lt_is_Some_2 es k Hk) as [e_k He].
  destruct (lookup_lt_is_Some_2 rs k ltac:(lia)) as [r_k Hr].
  rewrite (run_segment_factor pkg _ _ _ _ _ _ _ _ _ _ r_k ref e_k) in Hseg;
    [|assumption|assumption| |assumption].
  2:{ apply repeat_lookup. exact Hk. }
  rewrite rate2fct_run, calc_term_scalars, Hrule, Hfr in Hseg by assumption.
  cbn [bindR] in Hseg. rewrite convert_scalars in Hseg.
  2:{ apply Hpos. now apply (lookup_In _ k). }
  rewrite Z.eqb_refl in Hseg. injection Hseg as <-.
  rewrite Hfk, He, Hr. reflexivity.
Qed.

Lemma zip_roundtrip (fr ff : R -> R -> R) (rs ts : list R) :
  length rs = length ts ->
  (forall r t, In r rs -> In t ts -> ff (fr r t) t = r) ->
  zip_with_same ff (zip_with_same fr rs ts) ts = rs.
Proof.
  revert ts. induction rs as [|r rs IH]; intros [|t ts] Hlen Hinv; try discriminate;
    [reflexivity|].
  cbn. rewrite Hinv by (now left). f_equal.
  apply IH; [cbn in Hlen; lia|]. intros r' t' Hr Ht. apply Hinv; now right.
Qed.

(** The curve's own day count and calendar select the rule the
    constructor's arguments selected. *)
Lemma term_rule_curve {T : Type} {A : Arith T} starts ends rates interp_method
    compounding day_count cal c0 (curve : Curve T) :
  consistent pkg c0 ->
  run (__init__ pkg starts ends rates interp_method compounding day_count cal) c0
  = Ok curve ->
  term_rule pkg (Curve_bkp.day_count curve) (Curve_bkp.cal curve)
  = term_rule pkg day_count cal
  /\ f2r_rule (Curve_bkp.compounding curve) = f2r_rule compounding.
Proof.
  intros Hc0 Hinit.
  destruct (init_parts pkg _ _ _ _ _ _ _ _ _ Hc0 Hinit)
    as (es' & rs' & fs0 & _ & _ & _ & _ & _ & _ & _ & Hcomp & Hdc & _ & _ & _ & _ & Hcal).
  split.
  - unfold term_rule. rewrite Hdc, PyFacts.upper_idem. cbv zeta.
    destruct (negb _); [reflexivity|].
    destruct (String.eqb (upper day_count) "BUS/252"); [|reflexivity].
    destruct Hcal as (cs & -> & -> & Hok).
    now rewrite (resolve_upper pkg cs Hok).
  - unfold f2r_rule. now rewrite Hcomp, PyFacts.upper_idem.
Qed.

End ZC.



End ZeroCouponFacts.

(** ** Forward rates *)

Module FraFacts.
Import Calendar CalendarFacts Curve_bkp CurveFacts ActActFacts ConversionFacts ZeroPeriodFacts CurveChecks.

Section Fra.
Variable pkg : gmap string (list Z).
Local Open Scope R_scope.

Lemma r2f_zero_term (compounding : string) (fr : R -> R -> R) (x : R) :
  r2f_rule (A := exact) compounding = Ok fr -> fr x 0 = 1.
Proof.
  unfold r2f_rule. cbv zeta.
  repeat match goal with
         | |- context [if ?b then _ else _] => destruct b
         end; intros [= <-]; cbn [fadd fmul fpow fexp of_int exact].
  - unfold Rpower. rewrite Rmult_0_l. apply exp_0.
  - lra.
  - rewrite Rmult_0_r. apply exp_0.
Qed.

(** [fra_interp] on two dates, from the rates [interp] returns there. *)
Lemma fra_interp_scalars (curve : Curve R) (c : gmap string busdaycalendar)
    (s e : Z) (r_s r_e : R) (rule : Z -> Z -> R) (fr ff : R -> R -> R) :
  consistent pkg c ->
  run (interp (A := exact) pkg curve (Scalar s)) c = Ok (Scalar r_s) ->
  run (interp (A := exact) pkg curve (Scalar e)) c = Ok (Scalar r_e) ->
  term_rule (A := exact) pkg (Curve_bkp.day_count curve) (Curve_bkp.cal curve) = Ok rule ->
  r2f_rule (A := exact) (Curve_bkp.compounding curve) = Ok fr ->
  f2r_rule (A := exact) (Curve_bkp.compounding curve) = Ok ff ->
  0 <= rule (ref_date curve) s -> 0 <= rule (ref_date curve) e -> 0 <= rule s e ->
  run (fra_interp (A := exact) pkg curve (Scalar s) (Scalar e)) c
  = Ok (Scalar (ff (fr r_e (rule (ref_date curve) e) / fr r_s (rule (ref_date curve) s))
                  (rule s e))).
Proof.
  intros Hc Hs He Hrule Hfr Hff Hts Hte Ht. unfold fra_interp, __zc_r2f.
  rewrite (run_bind pkg) by stable_all. rewrite Hs. cbn [bindR].
  rewrite (run_bind pkg) by stable_all.
  rewrite rate2fct_run, calc_term_scalars, Hrule, Hfr by assumption. cbn [bindR].
  rewrite convert_scalars by assumption. cbn [bindR].
  rewrite (run_bind pkg) by stable_all. rewrite He. cbn [bindR].
  rewrite (run_bind pkg) by stable_all.
  rewrite rate2fct_run, calc_term_scalars, Hrule, Hfr by assumption. cbn [bindR].
  rewrite convert_scalars by assumption. cbn [bindR].
  rewrite (run_bind pkg) by stable_all. cbn [run lift snd broadcast2 bindR].
  rewrite fct2rate_run, calc_term_scalars, Hrule, Hff by assumption. cbn [bindR].
  now rewrite convert_scalars by assumption.
Qed.

Lemma stable_fra_interp {T : Type} {A : Arith T} (curve : Curve T) (s e : nd Z) :
  stable pkg (fra_interp pkg curve s e).
Proof. unfold fra_interp, __zc_r2f. stable_all. Qed.

End Fra.





End FraFacts.

(** ** Labels as date shifts *)

Module ToDateFacts.
Import Calendar CalendarFacts Label LabelFacts.

Lemma fold_insert_keeps (k : string) (pairs : list (string * Z)) (m : gmap string Z) :
  is_Some (m !! k) ->
  is_Some (fold_left (fun m cn => <[cn.1 := cn.2]> m) pairs m !! k).
Proof.
  revert m. induction pairs as [|[c n] pairs IH]; intros m Hm; [exact Hm|].
  cbn [fold_left]. apply IH. cbn [fst snd].
  destruct (decide (c = k)) as [->|Hne].
  - rewrite lookup_insert. destruct (decide (k = k)); [eauto|congruence].
  - rewrite lookup_insert_ne by assumption. exact Hm.
Qed.

(** A constructed Label has an entry for each of the four units. *)
Lemma init_letter_map_shape (s : string) (l : Label) :
  __init__ s = Ok l ->
  exists pairs : list (string * Z),
    _letter_map l
    = fold_left (fun m cn => <[cn.1 := cn.2]> m) pairs
        (<["Y" := 0]> (<["M" := 0]> (<["W" := 0]> (<["D" := 0]> ∅)))).
Proof.
  unfold __init__. cbv zeta.
  repeat match goal with
         | |- (if ?b then _ else _) = _ -> _ => destruct b; [discriminate|]
         | |- match ?x with _ => _ end = _ -> _ => destruct x eqn:?; [discriminate|]
         end.
  intros [= <-]. cbn [_letter_map].
  match goal with
  | |- exists pairs, fold_left _ ?rest (<[?k := ?v]> _) = _ =>
      exists ((k, v) :: rest); reflexivity
  end.
Qed.

Lemma init_letter_map (s : string) (l : Label) :
  __init__ s = Ok l ->
  forall u, In u ["Y"; "M"; "W"; "D"] -> is_Some (_letter_map l !! u).
Proof.
  intros Hl u Hu. destruct (init_letter_map_shape s l Hl) as [pairs ->].
  apply fold_insert_keeps.
  cbn [In] in Hu. destruct Hu as [<-|[<-|[<-|[<-|[]]]]]; vm_compute; eauto.
Qed.

(** The months and the days a Label shifts by. *)
Definition months (l : Label) : Z := units l "M" + 12 * units l "Y".
Definition days (l : Label) : Z := units l "D" + 7 * units l "W".

Section Steps.

Variable pkg : gmap string (list Z).
Variable np_busday_offset :
  nd Z -> nd Z -> string -> busdaycalendar -> res (nd (option Z)).
Variable pd_add_months : Z -> Z -> Z.

(** The two steps of [to_date] on a constructed Label. *)
Definition shift_months (l : Label) (date_adjust : string) (cal : option string)
    (ref_date : Z) : M (option Z) :=
  if 0 <? months l
  then
    if String.eqb date_adjust "DU"
    then offset_zero pkg np_busday_offset (Some (pd_add_months ref_date (months l)))
           "modifiedfollowing" cal
    else ret (Some (pd_add_months ref_date (months l)))
  else ret (Some ref_date).

Definition shift_days (l : Label) (date_adjust : string) (cal : option string)
    (shifted : option Z) : M (option Z) :=
  if 0 <? days l
  then
    if String.eqb date_adjust "DU"
    then offset_zero pkg np_busday_offset (option_map (fun d => d + days l) shifted)
           "forward" cal
    else ret (option_map (fun d => d + days l) shifted)
  else ret shifted.

Lemma to_date_steps (s : string) (l : Label) (ref_date : Z) (date_adjust : string)
    (cal : option string) :
  __init__ s = Ok l ->
  In (upper date_adjust) ["DU"; "DC"] ->
  to_date pkg np_busday_offset pd_add_months l ref_date (PyStr date_adjust) cal
  = bind (shift_months l (upper date_adjust) cal ref_date)
      (fun shifted =>
         bind (shift_days l (upper date_adjust) cal shifted) (fun shifted => ret shifted)).
Proof.
  intros Hl Hda. unfold Label.to_date. cbv zeta.
  assert (Hin : existsb (String.eqb (upper date_adjust)) ["DU"; "DC"] = true).
  { cbn [In] in Hda. destruct Hda as [<-|[<-|[]]]; reflexivity. }
  rewrite Hin. cbn [negb].
  pose proof (init_letter_map s l Hl) as Hkeys.
  unfold letter_map, shift_months, shift_days, months, days, units.
  destruct (Hkeys "Y") as [ny ->]; [cbn; auto|].
  destruct (Hkeys "M") as [nm ->]; [cbn; auto|].
  destruct (Hkeys "W") as [nw ->]; [cbn; auto|].
  destruct (Hkeys "D") as [nd ->]; [cbn; auto|].
  reflexivity.
Qed.


Lemma shift_DC (l : Label) (cal : option string) (ref_date : Z)
    (c : gmap string busdaycalendar) :
  bind (shift_months l "DC" cal ref_date)
    (fun shifted => bind (shift_days l "DC" cal shifted) (fun shifted => ret shifted)) c
  = (c, Ok (Some (let d := if 0 <? months l then pd_add_months ref_date (months l)
                           else ref_date in
                  if 0 <? days l then d + days l else d))).
Proof.
  unfold shift_months, shift_days, bind, ret. cbn [String.eqb Ascii.eqb Bool.eqb].
  destruct (0 <? months l), (0 <? days l); reflexivity.
Qed.

End Steps.





(** The shift reads a Label only through its months (M + 12 Y) and its
    days (D + 7 W): two constructed Labels that agree on both give the
    same outcome for every reference date, adjustment, calendar and
    cache, as 1Y and 12M do, or 1W and 7D. *)
Theorem to_date_by_months_and_days (pkg : gmap string (list Z))
    (np_busday_offset : nd Z -> nd Z -> string -> busdaycalendar -> res (nd (option Z)))
    (pd_add_months : Z -> Z -> Z)
    (s1 s2 : string) (l1 l2 : Label) :
  __init__ s1 = Ok l1 -> __init__ s2 = Ok l2 ->
  months l1 = months l2 -> days l1 = days l2 ->
  forall ref_date date_adjust cal c,
    to_date pkg np_busday_offset pd_add_months l1 ref_date date_adjust cal c
    = to_date pkg np_busday_offset pd_add_months l2 ref_date date_adjust cal c.
Proof.
  intros Hl1 Hl2 Hm Hd ref_date date_adjust cal c.
  destruct date_adjust as [da|?|?]; [|reflexivity|reflexivity].
  destruct (existsb (String.eqb (upper da)) ["DU"; "DC"]) eqn:Hda.
  - assert (Hin : In (upper da) ["DU"; "DC"]).
    { cbn in Hda |- *. destruct (String.eqb_spec (upper da) "DU"); [auto|].
      destruct (String.eqb_spec (upper da) "DC"); [auto|discriminate]. }
    rewrite (to_date_steps pkg np_busday_offset pd_add_months s1 l1),
      (to_date_steps pkg np_busday_offset pd_add_months s2 l2) by assumption.
    unfold shift_months, shift_days. now rewrite Hm, Hd.
  - unfold to_date. cbv zeta. rewrite Hda. reflexivity.
Qed.

Lemma to_date_by_months_and_days_witness :
  exists l1 l2,
    __init__ "1Y1W" = Ok l1 /\ __init__ "12M7D" = Ok l2
    /\ forall ref_date date_adjust cal c,
         to_date ∅ (fun _ _ _ _ => Ok (Scalar None)) (fun d n => d + 30 * n)
           l1 ref_date date_adjust cal c
         = to_date ∅ (fun _ _ _ _ => Ok (Scalar None)) (fun d n => d + 30 * n)
             l2 ref_date date_adjust cal c.
Proof.
  destruct (__init__ "1Y1W") as [l1|] eqn:Hl1; [|vm_compute in Hl1; discriminate].
  destruct (__init__ "12M7D") as [l2|] eqn:Hl2; [|vm_compute in Hl2; discriminate].
  exists l1, l2. split; [reflexivity|]. split; [reflexivity|].
  apply (to_date_by_months_and_days ∅ _ _ "1Y1W" "12M7D" l1 l2 Hl1 Hl2).
  - vm_compute in Hl1, Hl2. injection Hl1 as <-. injection Hl2 as <-. reflexivity.
  - vm_compute in Hl1, Hl2. injection Hl1 as <-. injection Hl2 as <-. reflexivity.
Defined.

End ToDateFacts.

(** ** Buckets: order and duplicates *)

Module BucketConstruction.
Import Bucket BucketFacts.

(** *** Construction *)

Lemma insert_entry_perm x l : Permutation (insert_entry x l) (x :: l).
Proof.
  induction l as [|y l IH]; cbn [insert_entry]; [reflexivity|].
  destruct (Label._dc_count x.1 <=? Label._dc_count y.1); [reflexivity|].
  rewrite IH. apply perm_swap.
Qed.

Lemma sort_index_perm l : Permutation (sort_index l) l.
Proof.
  unfold sort_index. induction l as [|x l IH]; cbn [fold_right]; [reflexivity|].
  rewrite insert_entry_perm. now constructor.
Qed.

Definition by_key (a b : Label.Label * float) : Prop :=
  Label._dc_count a.1 <= Label._dc_count b.1.

Lemma insert_entry_sorted x l : Sorted by_key l -> Sorted by_key (insert_entry x l).
Proof.
  induction 1 as [|y l Hs IH Hhd]; cbn [insert_entry].
  - repeat constructor.
  - destruct (Z.leb_spec (Label._dc_count x.1) (Label._dc_count y.1)).
    + constructor; [now constructor|]. constructor. exact H.
    + constructor; [exact IH|].
      destruct l as [|z l]; cbn [insert_entry].
      * constructor. unfold by_key. lia.
      * destruct (Z.leb_spec (Label._dc_count x.1) (Label._dc_count z.1)).
        -- constructor. unfold by_key. lia.
        -- constructor. now inversion Hhd.
Qed.

Lemma sort_index_sorted l : Sorted by_key (sort_index l).
Proof.
  unfold sort_index. induction l as [|x l IH]; cbn [fold_right]; [constructor|].
  now apply insert_entry_sorted.
Qed.

Lemma zip_fst_snd {B C : Type} (l : list (B * C)) :
  zip_with_same pair (map fst l) (map snd l) = l.
Proof. induction l as [|[b c] l IH]; cbn; [reflexivity|]. now rewrite IH. Qed.

Lemma sorted_entries (ix : list Label.Label) (data : list float) :
  length data = length ix ->
  let entries := sort_index (zip_with_same pair ix data) in
  let b := {| index := map fst entries; values := map snd entries |} in
  Sorted by_key (iteritems b)
  /\ Permutation (iteritems b) (zip_with_same pair ix data)
  /\ length (Bucket.index b) = length ix
  /\ length (Bucket.values b) = length ix.
Proof.
  intros Hlen entries b. subst b entries.
  unfold iteritems. cbn [Bucket.index Bucket.values]. rewrite zip_fst_snd.
  split; [apply sort_index_sorted|]. split; [apply sort_index_perm|].
  rewrite !length_map, sort_index_length, zip_with_same_length by lia. auto.
Qed.

(** A Bucket that was constructed holds its labels in ascending order of
    day count, each with the value that was given for it (NaN when no
    values were given), and nothing else. *)
Theorem bucket_sorted_by_day_count (labels : list Label.pyobj)
    (values : option (list float)) (b : Bucket) :
  __init__ labels values = Ok b ->
  exists ix,
    map_res Label.new labels = Ok ix
    /\ Sorted by_key (iteritems b)
    /\ Permutation (iteritems b)
         (zip_with_same pair ix
            (match values with
             | Some data => data
             | None => repeat PrimFloat.nan (length ix)
             end))
    /\ length (Bucket.index b) = length labels
    /\ length (Bucket.values b) = length labels.
Proof.
  unfold __init__. destruct (map_res Label.new labels) as [ix|] eqn:Hix; [|discriminate].
  cbn [bindR]. destruct (negb (equals ix (unique ix))); [discriminate|].
  pose proof (map_res_length _ _ _ Hix) as Hlen. rewrite <- Hlen.
  destruct values as [data|].
  - destruct (Nat.eqb_spec (length data) (length ix)) as [Hd|]; [|discriminate].
    cbn [bindR]. intros [= <-]. exists ix. split; [reflexivity|].
    now apply sorted_entries.
  - cbn [bindR]. intros [= <-]. exists ix. split; [reflexivity|].
    apply sorted_entries, repeat_length.
Qed.

Lemma bucket_sorted_witness :
  exists b,
    __init__ (strs ["3Y"; "1M"; "1Y"]) (Some [3; 1; 2]%float) = Ok b
    /\ Sorted by_key (iteritems b).
Proof.
  destruct (__init__ (strs ["3Y"; "1M"; "1Y"]) (Some [3; 1; 2]%float)) as [b|] eqn:Hb;
    [|vm_compute in Hb; discriminate].
  exists b. split; [reflexivity|].
  destruct (bucket_sorted_by_day_count _ _ b Hb) as (ix & _ & Hs & _). exact Hs.
Defined.

(** *** Duplicate labels *)

Lemma init_label (s : string) (l : Label.Label) :
  Label.__init__ s = Ok l -> Label._label l = s.
Proof.
  unfold Label.__init__. cbv zeta.
  repeat match goal with
         | |- (if ?b then _ else _) = _ -> _ => destruct b; [discriminate|]
         | |- match ?x with _ => _ end = _ -> _ => destruct x; [discriminate|]
         end.
  now intros [= <-].
Qed.

Lemma map_res_Forall2 {B C : Type} (f : B -> res C) (l : list B) (l' : list C) :
  map_res f l = Ok l' -> Forall2 (fun b c => f b = Ok c) l l'.
Proof.
  revert l'. induction l as [|b l IH]; intros l' H; cbn in H.
  - injection H as <-. constructor.
  - destruct (f b) as [c|] eqn:Hb; [|discriminate]. cbn in H.
    destruct (map_res f l) as [cs|]; [|discriminate]. cbn in H.
    injection H as <-. constructor; auto.
Qed.

Lemma append_one_inj (s1 s2 t : string) :
  String.length t = 1%nat -> (s1 ++ t = s2 ++ t)%string -> s1 = s2.
Proof.
  intros Ht. destruct t as [|c [|? ?]]; try discriminate. clear Ht.
  revert s2. induction s1 as [|a s1 IH]; intros [|b s2] H; cbn in H.
  - reflexivity.
  - injection H as <- H. destruct s2; discriminate.
  - injection H as <- H. destruct s1; discriminate.
  - injection H as <- H. f_equal. now apply IH.
Qed.

(** Labels made from texts are one key exactly when their texts are
    equal. *)
Lemma same_key_texts (s1 s2 : string) (l1 l2 : Label.Label) :
  Label.__init__ s1 = Ok l1 -> Label.__init__ s2 = Ok l2 ->
  same_key l1 l2 = bool_decide (s1 = s2).
Proof.
  intros H1 H2. unfold same_key, Label.__repr__, Label.label.
  rewrite (init_label s1 l1 H1), (init_label s2 l2 H2).
  case_bool_decide as Heq.
  - subst s2. assert (l1 = l2) as -> by congruence.
    rewrite String.eqb_refl, Z.eqb_refl. reflexivity.
  - apply andb_false_iff. left. apply String.eqb_neq.
    intros Hrepr. apply Heq. cbn in Hrepr. injection Hrepr as Hrepr.
    now apply (append_one_inj s1 s2 ">").
Qed.

Definition made_from (ss : list string) (ix : list Label.Label) : Prop :=
  Forall2 (fun s l => Label.__init__ s = Ok l) ss ix.

Lemma made_from_new (ss : list string) (ix : list Label.Label) :
  map_res Label.new (strs ss) = Ok ix -> made_from ss ix.
Proof.
  intros H. apply map_res_Forall2 in H. unfold strs in H.
  apply Forall2_fmap_l in H. exact H.
Qed.

Lemma made_from_elem (ss : list string) (ix : list Label.Label) (b : Label.Label) :
  made_from ss ix -> b ∈ ix -> exists t, t ∈ ss /\ Label.__init__ t = Ok b.
Proof.
  induction 1 as [|s a ss ix Ha Hrest IH]; intros Hb.
  - now apply elem_of_nil in Hb.
  - apply elem_of_cons in Hb as [->|Hb].
    + exists s. split; [left|assumption].
    + destruct (IH Hb) as (t & Ht & Hinit). exists t. split; [now right|assumption].
Qed.

Lemma made_from_text (ss : list string) (ix : list Label.Label) (t : string) :
  made_from ss ix -> t ∈ ss -> exists b, b ∈ ix /\ Label.__init__ t = Ok b.
Proof.
  induction 1 as [|s a ss ix Ha Hrest IH]; intros Ht.
  - now apply elem_of_nil in Ht.
  - apply elem_of_cons in Ht as [->|Ht].
    + exists a. split; [left|assumption].
    + destruct (IH Ht) as (b & Hb & Hinit). exists b. split; [now right|assumption].
Qed.

Lemma filter_all {B : Type} (P : B -> Prop) `{!forall x, Decision (P x)} (l : list B) :
  Forall P l -> filter P l = l.
Proof.
  induction 1 as [|x l Hx Hl IH]; [reflexivity|].
  rewrite filter_cons_True by assumption. now rewrite IH.
Qed.

Lemma unique_length (ix : list Label.Label) : (length (unique ix) <= length ix)%nat.
Proof.
  induction ix as [|a ix IH]; [reflexivity|]. cbn [unique length].
  pose proof (length_filter (fun b => same_key a b = false) (unique ix)). lia.
Qed.

Lemma unique_distinct_texts (ss : list string) (ix : list Label.Label) :
  made_from ss ix -> NoDup ss -> unique ix = ix.
Proof.
  induction 1 as [|s a ss ix Ha Hrest IH]; intros Hnd; [reflexivity|].
  apply NoDup_cons in Hnd as [Hnin Hnd]. cbn [unique]. rewrite (IH Hnd). f_equal.
  apply filter_all. apply Forall_forall. intros b Hb.
  destruct (made_from_elem ss ix b Hrest Hb) as (t & Ht & Hinit).
  rewrite (same_key_texts s t a b Ha Hinit).
  apply bool_decide_eq_false. intros ->. contradiction.
Qed.

Lemma unique_repeated_text (ss : list string) (ix : list Label.Label) :
  made_from ss ix -> ~ NoDup ss -> (length (unique ix) < length ix)%nat.
Proof.
  induction 1 as [|s a ss ix Ha Hrest IH]; intros Hdup.
  - exfalso. apply Hdup. constructor.
  - cbn [unique length].
    pose proof (length_filter (fun b => same_key a b = false) (unique ix)) as Hf.
    destruct (decide (NoDup ss)) as [Hnd|Hnd].
    + destruct (decide (s ∈ ss)) as [Hin|Hnin].
      * rewrite (unique_distinct_texts ss ix Hrest Hnd) in Hf |- *.
        destruct (made_from_text ss ix s Hrest Hin) as (b & Hb & Hinit).
        pose proof (length_filter_lt (fun b => same_key a b = false) ix b Hb) as Hlt.
        apply Nat.succ_lt_mono in Hlt; [exact Hlt|].
        rewrite (same_key_texts s s a b Ha Hinit).
        rewrite bool_decide_eq_true_2 by reflexivity. discriminate.
      * exfalso. apply Hdup. now constructor.
    + specialize (IH Hnd). lia.
Qed.

Lemma equals_refl (ix : list Label.Label) : equals ix ix = true.
Proof.
  unfold equals. rewrite Nat.eqb_refl. cbn [andb].
  induction ix as [|a ix IH]; [reflexivity|]. cbn. now rewrite Z.eqb_refl.
Qed.



End BucketConstruction.

(** ** Buckets: distributing values *)

Module DistributeFacts.
Import Bucket BucketFacts BucketConstruction.
Local Open Scope float_scope.

(** *** The distribution loop *)

Lemma add_at_length to_ndays distributed nd amount out :
  add_at to_ndays distributed nd amount = Ok out -> length out = length distributed.
Proof.
  unfold add_at. destruct (list_index to_ndays nd); [|discriminate].
  cbn [bindR]. intros [= <-]. apply length_alter.
Qed.

Lemma distribute_one_length to_ndays distributed entry out :
  distribute_one to_ndays distributed entry = Ok out -> length out = length distributed.
Proof.
  unfold distribute_one. destruct entry as [label value].
  destruct (find_closest to_ndays (Label.dc_count label)) as [[[l|] [r|]]|];
    cbn [bindR]; try discriminate; try apply add_at_length.
  destruct (Z.eqb l r); [apply add_at_length|].
  repeat match goal with
         | |- bindR (python_assert ?b _) _ = _ -> _ =>
             destruct b; cbn [python_assert bindR]; [|discriminate]
         end.
  destruct (add_at to_ndays distributed l _) as [d1|] eqn:H1; [|discriminate].
  cbn [bindR]. intros H2. apply add_at_length in H1, H2. congruence.
Qed.

Lemma distribute_all_length to_ndays distributed entries out :
  distribute_all to_ndays distributed entries = Ok out -> length out = length distributed.
Proof.
  revert distributed. induction entries as [|entry entries IH]; intros distributed.
  - now intros [= <-].
  - cbn [distribute_all].
    destruct (distribute_one to_ndays distributed entry) as [d1|] eqn:H1; [|discriminate].
    cbn [bindR]. intros H2. apply IH in H2. apply distribute_one_length in H1. congruence.
Qed.

Lemma init_lengths labels data b :
  __init__ labels (Some data) = Ok b ->
  length (Bucket.index b) = length labels /\ length (Bucket.values b) = length labels.
Proof.
  unfold __init__. destruct (map_res Label.new labels) as [ix|] eqn:Hix; [|discriminate].
  cbn [bindR]. destruct (negb (equals ix (unique ix))); [discriminate|].
  pose proof (map_res_length _ _ _ Hix) as Hlen. rewrite <- Hlen.
  destruct (Nat.eqb_spec (length data) (length ix)) as [Hd|]; [|discriminate].
  cbn [bindR]. intros [= <-]. now apply (sorted_entries ix data).
Qed.

(** [distribute_values] returns one number per target label, as an array
    or as a Bucket; on no target labels at all a Bucket that holds an
    entry fails with the AssertionError of [find_closest]. *)
Theorem distribute_values_shape (b : Bucket) :
  (forall verts return_bucket out,
      distribute_values b verts return_bucket = Ok out ->
      match out with
      | AsArray a => length a = length verts
      | AsBucket b' =>
          length (Bucket.index b') = length verts
          /\ length (Bucket.values b') = length verts
      end)
  /\ (iteritems b <> [] -> existsb PrimFloat.is_nan (Bucket.values b) = false ->
      forall return_bucket,
        distribute_values b [] return_bucket
        = Error (AssertionError "left = right = None!")).
Proof.
  split.
  - intros verts return_bucket out. unfold distribute_values.
    destruct (existsb PrimFloat.is_nan (Bucket.values b)); [discriminate|].
    destruct (map_res Label.new verts) as [vs|] eqn:Hvs; [|discriminate].
    cbn [bindR]. pose proof (map_res_length _ _ _ Hvs) as Hlen.
    destruct (distribute_all _ _ (iteritems b)) as [d|] eqn:Hd; [|discriminate].
    cbn [bindR]. apply distribute_all_length in Hd. rewrite repeat_length in Hd.
    destruct (np_isclose _ _ _ _); cbn [python_assert bindR]; [|discriminate].
    destruct return_bucket.
    + destruct (__init__ (map Label.PyLabel vs) (Some d)) as [b'|] eqn:Hb; [|discriminate].
      cbn [bindR]. intros [= <-]. apply init_lengths in Hb.
      rewrite length_map in Hb. lia.
    + intros [= <-]. lia.
  - intros Hne Hnan return_bucket. unfold distribute_values. rewrite Hnan.
    cbn [map_res bindR map length repeat].
    destruct (iteritems b) as [|[label value] entries]; [congruence|].
    reflexivity.
Qed.

(** *** Sums in binary64 *)

Lemma isclose_self (x : float) :
  np_isclose (0 + x) x 0 0.01 = negb (PrimFloat.is_nan x).
Proof.
  unfold np_isclose, is_finite, PrimFloat.is_nan, PrimFloat.is_infinity.
  rewrite !FloatAxioms.leb_spec, !FloatAxioms.eqb_spec.
  rewrite ?abs_spec, ?add_spec, ?mul_spec, ?sub_spec, ?abs_spec, ?add_spec.
  destruct (Prim2SF x) as [s|s| |s m e] eqn:Hx.
  - destruct s; vm_compute; reflexivity.
  - destruct s; vm_compute; reflexivity.
  - vm_compute. reflexivity.
  - change (Prim2SF 0) with (S754_zero false).
    cbn [SF64add SFadd SF64sub SFsub SFabs]. rewrite Z.sub_diag.
    cbn [binary_normalize SFabs].
    destruct s; cbn; rewrite ?Z.compare_refl, ?Pos.compare_cont_refl; cbn;
      vm_compute; reflexivity.
Qed.


Lemma distribute_one_single (k : Z) (acc : float) (entry : Label.Label * float) :
  distribute_one [k] [acc] entry = Ok [acc + entry.2].
Proof.
  unfold distribute_one, find_closest. destruct entry as [label value].
  cbn [rev app next_dropwhile snd].
  destruct (Z.ltb_spec (Label.dc_count label) k) as [Hlt|Hge];
    destruct (Z.ltb_spec k (Label.dc_count label)) as [Hgt|Hle]; try lia;
    rewrite ?(bool_decide_eq_false_2 (Some k = None)) by discriminate;
    rewrite ?andb_false_r; cbn [andb negb python_assert bindR];
    rewrite ?Z.eqb_refl; unfold add_at; cbn [list_index]; rewrite Z.eqb_refl;
    reflexivity.
Qed.

Lemma distribute_all_single (k : Z) (acc : float) (entries : list (Label.Label * float)) :
  distribute_all [k] [acc] entries = Ok [fold_left PrimFloat.add (map snd entries) acc].
Proof.
  revert acc. induction entries as [|entry entries IH]; intros acc; [reflexivity|].
  cbn [distribute_all]. rewrite distribute_one_single. cbn [bindR]. apply IH.
Qed.

Lemma zip_snd {B C : Type} (l : list B) (k : list C) :
  length l = length k -> map snd (zip_with_same pair l k) = k.
Proof.
  revert k. induction l as [|b l IH]; intros [|c k] H; try discriminate;
    [reflexivity|]. cbn in *. f_equal. apply IH. lia.
Qed.

Lemma distribute_values_shape_witness :
  exists b,
    __init__ (strs ["1M"; "1Y"]) (Some [1; 2]) = Ok b
    /\ distribute_values b [] false = Error (AssertionError "left = right = None!").
Proof.
  destruct (__init__ (strs ["1M"; "1Y"]) (Some [1; 2])) as [b|] eqn:Hb;
    [|vm_compute in Hb; discriminate].
  exists b. split; [reflexivity|].
  pose proof Hb as Hb'. vm_compute in Hb'. injection Hb' as Hb'.
  apply (proj2 (distribute_values_shape b)); subst b;
    [vm_compute; discriminate|reflexivity].
Defined.



End DistributeFacts.

(** ** Buckets: dates of the labels *)

Module ToDatesFacts.
Import Calendar CalendarFacts Label LabelFacts ToDateFacts Bucket BucketFacts BucketConstruction.

Lemma map_M_pure {B C : Type} (f : B -> M C) (g : B -> C) (l : list B)
    (c : gmap string busdaycalendar) :
  Forall (fun x => f x c = (c, Ok (g x))) l -> map_M f l c = (c, Ok (map g l)).
Proof.
  induction 1 as [|x l Hx Hl IH]; [reflexivity|].
  cbn [map_M map]. unfold bind. rewrite Hx, IH. reflexivity.
Qed.

Lemma zip_with_same_fst {B C : Type} (l : list B) (k : list C) (x : B) :
  x ∈ map fst (zip_with_same pair l k) -> x ∈ l.
Proof.
  revert k. induction l as [|b l IH]; intros [|d k] Hx; cbn in Hx;
    try (now apply elem_of_nil in Hx).
  apply elem_of_cons in Hx as [->|Hx]; [left|right; eauto].
Qed.

(** Every label of a Bucket made from texts was constructed from a
    text. *)
Lemma init_index_made (ss : list string) (values : option (list float)) (b : Bucket) :
  Bucket.__init__ (strs ss) values = Ok b ->
  Forall (fun l => exists s, Label.__init__ s = Ok l) (index b).
Proof.
  unfold Bucket.__init__.
  destruct (map_res Label.new (strs ss)) as [ix|] eqn:Hix; [|discriminate].
  cbn [bindR]. destruct (negb (equals ix (unique ix))); [discriminate|].
  apply made_from_new in Hix.
  assert (Hall : forall data,
            Forall (fun l => exists s, Label.__init__ s = Ok l)
              (map fst (sort_index (zip_with_same pair ix data)))).
  { intros data. apply Forall_forall. intros l Hl.
    rewrite (sort_index_perm (zip_with_same pair ix data)) in Hl.
    apply zip_with_same_fst in Hl.
    destruct (made_from_elem ss ix l Hix Hl) as (t & _ & Ht). eauto. }
  destruct values as [data|].
  - destruct (length data =? length ix)%nat; [|discriminate].
    cbn [bindR]. intros [= <-]. apply Hall.
  - cbn [bindR]. intros [= <-]. apply Hall.
Qed.



End ToDatesFacts.

(** ** Root names of txt files *)

Module TxtsFacts.
Import Txts SplitFacts.

Lemma chars_append (a b : string) :
  list_ascii_of_string (a ++ b) = (list_ascii_of_string a ++ list_ascii_of_string b)%list.
Proof.
  induction a as [|c a IH]; [reflexivity|].
  change (list_ascii_of_string (String c a ++ b))
    with (c :: list_ascii_of_string (a ++ b)).
  now rewrite IH.
Qed.

Lemma join_chars (P : ascii -> Prop) (sep : string) (parts : list string) :
  Forall P (list_ascii_of_string sep) ->
  Forall (fun w => Forall P (list_ascii_of_string w)) parts ->
  Forall P (list_ascii_of_string (join sep parts)).
Proof.
  intros Hsep. induction 1 as [|w parts Hw Hparts IH]; [constructor|].
  cbn [join]. destruct parts as [|w' parts']; [exact Hw|].
  rewrite !chars_append. apply Forall_app. split; [exact Hw|].
  apply Forall_app. split; [exact Hsep|exact IH].
Qed.

Lemma join_nonempty (sep : string) (parts : list string) :
  Forall (fun w => w <> EmptyString) parts -> parts <> [] ->
  join sep parts <> EmptyString.
Proof.
  intros Hall Hne. destruct parts as [|w parts]; [congruence|].
  apply Forall_cons in Hall as [Hw _]. cbn [join].
  destruct parts; [exact Hw|]. destruct w; [congruence|discriminate].
Qed.

Lemma drop_spaces_no_space (cs : list ascii) :
  Forall no_space cs -> drop_spaces cs = cs.
Proof.
  destruct 1 as [|c cs Hc Hcs]; [reflexivity|]. cbn. unfold no_space in Hc. now rewrite Hc.
Qed.

Lemma strip_no_space (s : string) :
  Forall no_space (list_ascii_of_string s) -> strip s = s.
Proof.
  intros Hs. unfold strip. rewrite (drop_spaces_no_space _ Hs).
  rewrite drop_spaces_no_space by (now apply Forall_rev).
  now rewrite rev_involutive, string_of_list_ascii_of_string.
Qed.

(** A root name comes out with no blank and no lower-case letter in it,
    and is left as it is when normalised again: 'on brl ipca',
    ' ON  BRL IPCA ' and 'ON_BRL_IPCA' all name 'ON_BRL_IPCA'. *)
Theorem easy_txt_rootname_normal (root_fname : string) :
  Forall (fun c => is_space c = false /\ is_lower_ascii c = false)
    (list_ascii_of_string (_easy_txt_rootname root_fname))
  /\ _easy_txt_rootname (_easy_txt_rootname root_fname) = _easy_txt_rootname root_fname
  /\ _easy_txt_rootname "on brl ipca" = "ON_BRL_IPCA"
  /\ _easy_txt_rootname " ON  BRL IPCA " = "ON_BRL_IPCA".
Proof.
  assert (Hwords : Forall (fun w => w <> EmptyString
                                    /\ Forall no_space (list_ascii_of_string w)
                                    /\ Forall (fun c => upper_ascii c = c)
                                         (list_ascii_of_string w))
                     (split (upper (strip root_fname)))).
  { apply (split_from_words (fun c => upper_ascii c = c));
      [apply upper_chars|constructor|constructor]. }
  assert (Hns : Forall no_space (list_ascii_of_string (_easy_txt_rootname root_fname))).
  { apply join_chars; [repeat constructor|].
    eapply Forall_impl; [exact Hwords|]. cbn. tauto. }
  assert (Hup : Forall (fun c => upper_ascii c = c)
                  (list_ascii_of_string (_easy_txt_rootname root_fname))).
  { apply join_chars; [repeat constructor|].
    eapply Forall_impl; [exact Hwords|]. cbn. tauto. }
  split; [|split; [|split; reflexivity]].
  - rewrite List.Forall_forall in Hns, Hup |- *. intros c Hc.
    split; [apply Hns, Hc|]. specialize (Hup c Hc). unfold upper_ascii in Hup.
    destruct (is_lower_ascii c) eqn:Hlow; [|reflexivity].
    exfalso. revert Hlow Hup. unfold is_lower_ascii. cbv zeta.
    intros Hlow Hup. apply (f_equal nat_of_ascii) in Hup.
    apply andb_prop in Hlow as [H1%Nat.leb_le H2%Nat.leb_le].
    rewrite nat_ascii_embedding in Hup by lia. lia.
  - destruct (split (upper (strip root_fname))) as [|w ws] eqn:Hsplit.
    { unfold _easy_txt_rootname. rewrite Hsplit. reflexivity. }
    assert (Hne : _easy_txt_rootname root_fname <> EmptyString).
    { unfold _easy_txt_rootname. rewrite Hsplit. apply join_nonempty; [|discriminate].
      eapply Forall_impl; [exact Hwords|]. cbn. tauto. }
    unfold _easy_txt_rootname at 1.
    rewrite (strip_no_space _ Hns), (upper_fixed _ Hup), (split_word _ Hne Hns).
    reflexivity.
Qed.

End TxtsFacts.
